(* ===== verification/_CoqProject ===== *)
-Q . S2P
Prelude.v
JsString.v
JsNumber.v
JsValue.v
Json.v
JsonParse.v
JsonRoundTrip.v
JsonGrammar.v
IsoDate.v
Response.v
Handler.v
ResponseLife.v
Order.v
Amounts.v
HandlerSpec.v
SentOrder.v
RequestText.v
ProviderView.v
ClientView.v
