(* ===== verification/Prelude.v ===== *)
(** * A verification development of the PIX payment endpoint [src/api/gerar-pix.js]

    The program is one Vercel serverless handler, [handler(req, res)].
    It sets four CORS headers and answers an [OPTIONS] preflight with 200.
    It refuses every method other than [POST] with 405.
    It reads the bearer token [process.env.PAGBANK_TOKEN] and answers 500
    when it is missing.  It requires [req.body.cpf] and answers 400 without it.
    Otherwise it builds a PagBank order: a reference id from [Date.now()], the
    tax id with [/\D/g] stripped, the amount [Math.round(valor * 100)] twice,
    and an expiry [new Date(Date.now() + 3600 * 1000).toISOString()].  It
    POSTs the order to the provider with [fetch] and parses the answer's
    body with [response.json()], whatever its HTTP status.
    It returns 200 with the first QR code, 400 when the provider returned
    none, and 500 with the exception's message when anything in between
    throws.

    The development models the handler together with the part of the
    JavaScript semantics it relies on, because most of its behaviour lives
    there: [!x] and [x || y] are ToBoolean, [valor * 100] is ToNumber and
    IEEE-754 binary64 multiplication, [Math.round] rounds half towards
    +infinity, ["PEDIDO-" + Date.now()] is Number::toString,
    [cpf.replace] throws on a non-string, property reads throw on
    [null]/[undefined], and [JSON.stringify] drops [undefined] members and
    prints NaN as [null], and [response.json()] is [JSON.parse] with its
    SyntaxErrors.

    ** Files (in dependency order), and what each models

    - [Prelude] (this file): the [js_scope] notation scope, the [js] hint
      database, the development's tactics, generic lemmas on lists and
      the bounded exhaustive check [forall_range] with its soundness.
    - [JsString]: JavaScript strings as lists of UTF-16 code units ([Z]);
      the [\d] class, [replace(/\D/g, '')] (line 39), decimal printing of
      integers, and the JS white-space set.
    - [JsNumber]: Numbers as Rocq's primitive binary64 floats ([float],
      computed by the kernel), reasoned about through the axiom-free
      [SpecFloat] model.  It holds correctly rounded decimal-to-binary
      conversion, StringToNumber, Number::toString (shortest round-trip
      digits) and [Math.round] (lines 45 and 51).
    - [JsValue]: the values the handler touches (undefined, null, booleans,
      numbers, strings, arrays, plain objects as ordered property lists),
      with ToBoolean, ToString, ToNumber, property reads with the TypeError
      they raise, strict equality and [Array.prototype.find].
    - [Json]: [JSON.stringify] on those values (lines 66 and 88, and the body
      [res.json] sends).
    - [JsonParse]: [JSON.parse] (line 69, [response.json()]): the JSON
      grammar on code units by recursive descent with fuel, objects built
      by CreateDataProperty, and V8's SyntaxError messages.
    - [JsonRoundTrip]: [JSON.parse] of the text [JSON.stringify] gives.
    - [JsonGrammar]: ECMA-404's grammar as mutually inductive relations
      between a text and the value it denotes ([gvalue], [gelements],
      [gmembers], with [gchars], [gnumber] and [ws]), written from the
      standard and not from the parser, and [JSON.parse] against it.
    - [IsoDate]: [new Date(t).toISOString()] (line 53): TimeClip, the civil
      calendar and the 24-character ISO format.
    - [Response]: the Node/Vercel response object [res] ([setHeader],
      [status], [json], [end]) as a record updated by functions, and its
      life cycle as a reachability relation over those calls.
    - [Handler]: the handler itself, lines 1-95, in a state-and-exception
      monad over an explicit platform: the environment variable, the
      successive clock readings of [Date.now()], the provider behind
      [fetch] (a network rejection, or an HTTP response: status and body
      text), and the [console.error] log; [response.json()] is
      [JsonParse.json_parse] of the body.
    - [ResponseLife]: the frame property that the handler touches [res]
      only through its methods.
    - [Order]: the computed fields of the order literal: the reference id
      (line 35), the tax id (line 39) and the expiry (line 53).
    - [Amounts]: the amount in centavos, [Math.round(valor * 100)] (lines
      45 and 51), on the amounts a client sends.
    - [HandlerSpec]: the abstract contract of the endpoint (the outcome
      table of the spec, section 6) and the refinement theorem that the
      handler implements it, with the spec's testable properties.
    - [SentOrder]: the order the handler sends, end to end, and the frame
      property that replying and logging never send a request.
    - [RequestText]: the text a client posts, [JSON.parse] of it (the
      runtime's parse of [req.body]) composed with the handler.
    - [ProviderView]: what the handler reads of its platform, and the
      frame property that nothing else (in particular no HTTP status)
      changes its run.
    - [ClientView]: the handler composed with [JSON.parse] on both of its
      sides: the client's reading of a success, and PagBank's non-JSON
      answers.

    How they interact: [Handler] composes the operations of the value
    files the way the source's expressions do (for example
    [amount_cents = math_round (times_100 (to_number valor))]), and
    threads the response of [Response] through its monad; [HandlerSpec]
    states the contract on [Handler.run] and proves it from one lemma per
    path of [route], [handle_post], [create_order] and [answer].

    ** What the theorems show

    - [HandlerSpec]: the refinement theorem (every run, for every platform
      and request, is one row of [endpoint_contract]; the rows that reach
      PagBank require a POST, a truthy token and a body whose [cpf] is
      truthy); the outcome of each path (preflight, 405, missing token,
      missing CPF, success, refusal, provider failure, nullish body, a
      truthy non-string CPF, a clock reading whose expiry is past the
      largest time value) with its status, body, log, provider requests and
      clock readings, the error paths stated on the request's body and the
      clock rather than on the failing call; where the image link of a
      success comes from ([qr_image] on every shape of [pix.links]); the
      invariants that the CORS headers are always set, that at most one
      request is sent, that 200 needs a non-empty [qr_codes], and that the
      handler returns normally exactly when it has ended the response; and the
      JSON order sent for the spec's example request; every request goes
      to PagBank with the configured bearer token.
    - [SentOrder]: for a well-formed POST the one request sent carries
      the cpf's digits, the exact (possibly negative) centavos twice and the expiry one hour
      after the second clock reading, whatever PagBank answers.
    - [RequestText]: from the posted text [{"valor":12.34,"cpf":"..."}]
      to the order PagBank receives: [JSON.parse] gives the body (by the
      completeness half of [JsonGrammar]) and the order carries the
      centavos of the amount as written and the digits of the cpf.
    - [ProviderView]: two platforms with the same token, clock and
      [fetch]-then-[json()] results give the same run, so [response.ok]
      is never consulted (an answer with status 500 and QR codes is
      answered 200).
    - [JsonParse]: the parser's fuel always suffices (a lemma), every
      parsed value is JSON-shaped (no [undefined], no repeated key), and
      an empty or non-JSON body gives V8's SyntaxError message.
    - [JsonRoundTrip]: [JSON.parse (JSON.stringify v) = v] for every value
      without [undefined], with integral numbers below [10^15],
      well-formed strings and distinct non-index keys.
    - [JsonGrammar]: [json_parse text = Normal v] if and only if [text] is
      a JSON text of the grammar denoting [v] (soundness by induction on
      the fuel, completeness by the combined induction principle of the
      grammar and fuel monotonicity), so the parser refines ECMA-404.
    - [ClientView]: after a success the client's [JSON.parse] of the body
      gives the object [{ id, qr_code, qr_code_base64_url }] with PagBank's
      values; an HTML answer of any status is answered 500 with V8's
      "Unexpected token <" message.
    - [Order]: the expiry is [toISOString] of exactly the clock reading
      plus one hour; the reference id is ["PEDIDO-"] and the decimal
      clock reading, equal for two orders exactly when they share the
      millisecond; [cpf.replace] on every kind of value (a lemma).
    - [Amounts]: [Math.round(valor * 100)] is exact for every two-decimal
      amount from -R$ 999,99 to R$ 999,99, sent as a JSON number or as a
      decimal string (StringToNumber of ["12.34"] is the Number of the
      literal [12.34]); a third decimal is not rounded half up (the lemma
      [amount_cents_third_decimal] on R$ 1,005); an amount
      whose product by 100 is not finite (NaN, or an overflow to an
      infinity from about [1.8e306] up) is sent as [null]; negative
      amounts are sent unchecked.
    - [JsNumber]: [Math.round] returns the exactly represented integer
      nearest to a non-integral Number, ties towards +infinity; adding
      integers below [2^53] is exact; Number::toString of an integer
      below [10^15] is its plain decimal form.
    - [Json]: members are serialised in own-property order, each once;
      QuoteJSONString gives well-formed UTF-16 without control characters.
    - [Response]: [setHeader]/[getHeader] round trip up to ASCII case, one
      entry per name, and what [res.json] leaves (a lemma); by rule induction on
      [reachable], every response the methods can leave is well formed
      ([res_wf]), and a sent response's headers never change.
    - [ResponseLife]: the response every run leaves is reachable, hence
      well formed (a lemma: it holds of any handler that only calls
      [res]'s methods).
    - [IsoDate]: YearFromTime is the year that contains the day, DayFromYear
      agrees with DaysInYear, and MonthFromTime/DateFromTime name every day
      of a common and a leap year correctly; the ISO string has 24 code
      units up to year 9999.
    - [JsValue]: [Array.prototype.find] returns the first accepted
      element.
    [PROJECT.json] lists the claims in order of importance.

    ** Bounds and fuel

    - [digits_fuel] runs on the bit length of its argument, which bounds its
      number of decimal digits; [digits_fuel_value] proves it enough.
    - Number::toString searches the digit counts 1 to 17, enough for every
      binary64 value (17 significant digits always round-trip).
    - The exact-amount theorem is a check of all 100000 amounts
      [0.00 .. 999.99] and all 99999 amounts [-999.99 .. -0.01] by
      [forall_range], each evaluated once by [vm_compute] (about 70
      seconds for both; [-0.00] is left out, it is the Number [-0]); the calendar check covers the 365 and 366 days of
      the two kinds of year, so it is complete.
    - YearFromTime starts from the estimate [1970 + d * 400 / 146097] and
      corrects it by at most two years; [year_estimate_bounds] proves the
      answer lies within that window for every day [d].
    - Number::toString of integers is proved below [10^15]: there every
      shorter candidate is an integer below [2^53], which converts to
      itself; [Date.now()] stays below that bound until the year 33658.
      The expiry theorem covers every valid time value ([<= 8.64e15],
      below [2^53]).
    - [JSON.parse] gives its parser twice the length of the text plus one
      as fuel: a call on an array's elements passes its input on
      unconsumed, every other call consumes a code unit first;
      [json_parse_fuel] proves it enough, and [parse_mono] that more fuel
      never changes a result.
    - The [\uXXXX] escapes are checked on all 65536 code units by
      [forall_range].

    ** Not modelled

    The HTTP transport, Vercel's body parser (the body arrives as a parsed
    value; [RequestText] takes it to be [JSON.parse] of a JSON request
    text, and other content types are not modelled) and PagBank's behaviour (an arbitrary function from the request
    to a rejection or an HTTP status and body text) are inputs, not
    models; the response headers PagBank sends are not read by the code.  Prototype methods are not data values: no
    property the handler reads ([qr_codes], [length], [0], [links], [rel],
    [href], [text], [id], [valor], [nome], [cpf]) names one.

    The body text is taken as already decoded into code units (the UTF-8
    decoding of [response.json()] is the runtime's).  Vercel's additions
    to [res.json] (Content-Length, ETag) are not modelled, nor is the
    transport's treatment of a HEAD request: the handler answers it 405
    with a JSON body, which Node's HTTP server then drops from the wire.

    The error messages of the model ([SyntaxError] texts of [JSON.parse],
    the [TypeError] of [cpf.replace], "Invalid time value") are those of
    V8 as shipped with Node 18, the runtime Vercel gives this function;
    other engines word them differently, and only the 500 status and the
    presence of a message are engine independent.

    ** Left for later

    The JSON round trip for negative and non-integral numbers (it needs
    the round trip of Number::toString and StringToNumber on all Numbers,
    proved here for integers).
*)

From Stdlib Require Import ZArith List Lia Bool.
Import ListNotations.
Open Scope Z_scope.

Declare Scope js_scope.
Delimit Scope js_scope with js.

Create HintDb js.
Create Rewrite HintDb js.

(** ** Tactics *)

(** [inv H]: invert a hypothesis and clean up. *)
Ltac inv H := inversion H; subst; clear H.

(** [destruct_ifs]: case on every boolean test in the goal, keeping the
    equation. *)
Ltac destruct_ifs :=
  repeat match goal with
         | |- context [if ?b then _ else _] =>
             lazymatch b with
             | context [if _ then _ else _] => fail
             | _ => destruct b eqn:?
             end
         end.

(** ** Bounded exhaustive checks *)

(** [forall_range f n lo]: [f] holds on [lo], [lo + 1], ..., [lo + n - 1].
    Evaluated by [vm_compute], it turns a property of finitely many
    integers into one computation of the kernel. *)
Fixpoint forall_range (f : Z -> bool) (n : nat) (lo : Z) : bool :=
  match n with
  | O => true
  | S n' => f lo && forall_range f n' (lo + 1)
  end.

(** ** Generic lemmas on lists *)

Section ListLemmas.
Context {A : Type}.

Lemma filter_idem (p : A -> bool) (l : list A) :
  filter p (filter p l) = filter p l.
Proof.
  induction l as [|x l IH]; simpl; [reflexivity|].
  destruct (p x) eqn:E; simpl; [rewrite E, IH|]; auto.
Qed.

Lemma filter_all (p : A -> bool) (l : list A) :
  forallb p l = true -> filter p l = l.
Proof.
  induction l as [|x l IH]; simpl; [reflexivity|].
  intros H. apply andb_prop in H as [Hx Hl]. rewrite Hx, IH; auto.
Qed.

Lemma forallb_filter (p : A -> bool) (l : list A) :
  forallb p (filter p l) = true.
Proof.
  induction l as [|x l IH]; simpl; [reflexivity|].
  destruct (p x) eqn:E; simpl; [rewrite E|]; auto.
Qed.

Lemma length_filter_le (p : A -> bool) (l : list A) :
  (length (filter p l) <= length l)%nat.
Proof.
  induction l as [|x l IH]; simpl; [lia|]. destruct (p x); simpl; lia.
Qed.
Lemma forallb_rev (p : A -> bool) (l : list A) : forallb p (rev l) = forallb p l.
Proof.
  induction l as [|x l IH]; simpl; [reflexivity|].
  rewrite forallb_app, IH. simpl. rewrite andb_true_r. apply andb_comm.
Qed.

Lemma forallb_impl (p q : A -> bool) (l : list A) :
  (forall x, In x l -> p x = true -> q x = true) -> forallb p l = true -> forallb q l = true.
Proof.
  intros H Hp. apply forallb_forall. intros x Hx.
  apply H; [exact Hx | exact (proj1 (forallb_forall p l) Hp x Hx)].
Qed.

Lemma Forall_impl_in (P Q : A -> Prop) (l : list A) :
  Forall P l -> (forall x, In x l -> P x -> Q x) -> Forall Q l.
Proof.
  intros HP H. apply Forall_forall. intros x Hx. apply H; [exact Hx|].
  exact (proj1 (Forall_forall P l) HP x Hx).
Qed.
End ListLemmas.

#[export] Hint Resolve forallb_filter filter_idem : js.
#[export] Hint Rewrite @filter_idem : js.

Lemma forall_range_sound (f : Z -> bool) (n : nat) :
  forall lo z, forall_range f n lo = true -> lo <= z < lo + Z.of_nat n -> f z = true.
Proof.
  induction n as [|n IH]; intros lo z H Hz; simpl in *; [lia|].
  apply andb_prop in H as [H0 Hn].
  destruct (Z.eq_dec z lo) as [->|Hne]; [exact H0|].
  apply (IH (lo + 1)); [exact Hn | lia].
Qed.
