(* ===== verification/JsString.v ===== *)
(** * JavaScript strings

    A JavaScript string is a sequence of UTF-16 code units; here a [jstr] is
    a [list Z] whose elements are code units in [0, 65536).  Literals of the
    source are written with [js] (ASCII) and explicit code units for the
    accented letters of the Portuguese messages.

    This file models [cpf.replace(/\D/g, '')] (src/api/gerar-pix.js, line
    39): a global regular-expression replacement of the single-code-unit
    class [\D] by the empty string.  It also holds the decimal printing of
    integers that Number::toString and the ISO date format build on, its
    parser and their round trip, and the StrWhiteSpaceChar set of
    StringToNumber. *)

From Stdlib Require Import String Ascii ZArith List Lia Bool.
From S2P Require Import Prelude.
Import ListNotations.
Open Scope Z_scope.

Definition code_unit := Z.
Definition jstr := list code_unit.

(** A code unit is a 16-bit value. *)
Definition is_code_unit (c : Z) : bool := (0 <=? c) && (c <? 65536).
Definition wf_jstr (s : jstr) : bool := forallb is_code_unit s.

Definition cu_of_ascii (a : ascii) : code_unit := Z.of_nat (nat_of_ascii a).

(** [js "abc"]: the JavaScript string literal ['abc'] (ASCII only). *)
Fixpoint js (s : string) : jstr :=
  match s with
  | EmptyString => []
  | String a r => cu_of_ascii a :: js r
  end.

(** ** The class [\d] and [replace(/\D/g, '')] *)

(** [\d] without the [u] flag is exactly the ten ASCII digits. *)
Definition is_digit (c : code_unit) : bool := (48 <=? c) && (c <=? 57).

(** [s.replace(re, repl)] for a global [re] that matches exactly one code
    unit of a class [cls], with a replacement [repl] free of [$] patterns:
    each code unit of the class is replaced, the others are copied. *)
Definition replace_class_global (cls : code_unit -> bool) (repl : jstr)
    (s : jstr) : jstr :=
  flat_map (fun c => if cls c then repl else [c]) s.

(** [\D] is the complement of [\d]. *)
Definition is_non_digit (c : code_unit) : bool := negb (is_digit c).

(** Line 39: [cpf.replace(/\D/g, '')] on a string [cpf]. *)
Definition strip_non_digits (s : jstr) : jstr :=
  replace_class_global is_non_digit [] s.

(** ** Decimal digits of integers *)
Definition digit_char (d : Z) : code_unit := 48 + d.
Definition digit_val (c : code_unit) : Z := c - 48.

(** The digits of [n >= 0], most significant first, pushed in front of
    [acc]; the fuel is the bit length of [n], which bounds its number of
    decimal digits. *)
Fixpoint digits_fuel (fuel : nat) (n : Z) (acc : jstr) : jstr :=
  match fuel with
  | O => acc
  | S f =>
      let acc' := digit_char (n mod 10) :: acc in
      if n <? 10 then acc' else digits_fuel f (n / 10) acc'
  end.

Definition digits_of_nonneg (n : Z) : jstr :=
  digits_fuel (S (Z.to_nat (Z.log2 n))) n [].

(** Decimal form of an integer, with a leading ['-'] when negative: the
    form Number::toString gives an integral value below [10^21]. *)
Definition Z_to_dec (z : Z) : jstr :=
  if z <? 0 then 45 :: digits_of_nonneg (- z) else digits_of_nonneg z.

(** Value of a sequence of decimal digits (no sign). *)
Definition dec_step (acc : Z) (c : code_unit) : Z := acc * 10 + digit_val c.
Definition dec_value (s : jstr) : Z := fold_left dec_step s 0.

(** A decimal integer literal: an optional ['-'] and at least one digit. *)
Definition parse_dec (s : jstr) : option Z :=
  match s with
  | [] => None
  | c :: r =>
      if c =? 45 then
        match r with
        | [] => None
        | _ => if forallb is_digit r then Some (- dec_value r) else None
        end
      else if forallb is_digit s then Some (dec_value s) else None
  end.

(** [pad_left n c s]: [s] preceded by copies of [c] up to length [n]
    ([String.prototype.padStart]). *)
Definition pad_left (n : nat) (c : code_unit) (s : jstr) : jstr :=
  repeat c (n - length s) ++ s.

(** ** White space of StringToNumber (StrWhiteSpaceChar) *)

(** WhiteSpace (TAB, VT, FF, ZWNBSP and the Zs category) and
    LineTerminator (LF, CR, LS, PS). *)
Definition is_str_whitespace (c : code_unit) : bool :=
  (c =? 9) || (c =? 11) || (c =? 12) || (c =? 32) || (c =? 160)
  || (c =? 5760) || ((8192 <=? c) && (c <=? 8202)) || (c =? 8239)
  || (c =? 8287) || (c =? 12288) || (c =? 65279)
  || (c =? 10) || (c =? 13) || (c =? 8232) || (c =? 8233).

Fixpoint drop_while (p : code_unit -> bool) (s : jstr) : jstr :=
  match s with
  | [] => []
  | c :: r => if p c then drop_while p r else s
  end.

(** Remove leading and trailing StrWhiteSpaceChar. *)
Definition trim_whitespace (s : jstr) : jstr :=
  rev (drop_while is_str_whitespace (rev (drop_while is_str_whitespace s))).

(** Split off the longest prefix whose code units satisfy [p]. *)
Fixpoint span (p : code_unit -> bool) (s : jstr) : jstr * jstr :=
  match s with
  | [] => ([], [])
  | c :: r => if p c then let '(a, b) := span p r in (c :: a, b) else ([], s)
  end.

Definition jstr_eqb (a b : jstr) : bool :=
  if list_eq_dec Z.eq_dec a b then true else false.

(** [lia] after unfolding the type aliases: [length] of a [jstr] and of a
    [list Z] are then the same atom. *)
Ltac jlia := unfold jstr, code_unit in *; lia.

(** * Properties *)

(** ** [replace(/\D/g, '')] *)
Lemma replace_class_global_empty (cls : code_unit -> bool) (s : jstr) :
  replace_class_global cls [] s = filter (fun c => negb (cls c)) s.
Proof.
  induction s as [|c s IH]; simpl; [reflexivity|].
  destruct (cls c); simpl; rewrite <- IH; reflexivity.
Qed.

Lemma strip_non_digits_eq (s : jstr) : strip_non_digits s = filter is_digit s.
Proof.
  unfold strip_non_digits. rewrite replace_class_global_empty.
  apply filter_ext. intros c. unfold is_non_digit. apply negb_involutive.
Qed.



(** ** Decimal printing *)
Lemma dec_step_fold (l : jstr) (a : Z) (d : Z) :
  fold_left dec_step (digit_char d :: l) a = fold_left dec_step l (a * 10 + d).
Proof. simpl. unfold dec_step, digit_val, digit_char. f_equal; lia. Qed.

Lemma digits_fuel_value (f : nat) :
  forall (n a : Z) (acc : jstr), 0 <= n < 2 ^ Z.of_nat f ->
  exists k, 0 <= k /\
    fold_left dec_step (digits_fuel f n acc) a
    = fold_left dec_step acc (a * 10 ^ k + n).
Proof.
  induction f as [|f IH]; intros n a acc Hn.
  - simpl in Hn. exists 0. simpl. split; [lia|]. f_equal; lia.
  - cbn [digits_fuel]. destruct (Z.ltb_spec n 10) as [Hlt|Hge].
    + exists 1. split; [lia|]. rewrite dec_step_fold.
      rewrite Z.mod_small by lia. f_equal; lia.
    + rewrite Nat2Z.inj_succ, Z.pow_succ_r in Hn by lia.
      destruct (IH (n / 10) a (digit_char (n mod 10) :: acc)) as [k [Hk E]].
      { split; [apply Z.div_pos; lia|]. apply Z.div_lt_upper_bound; lia. }
      exists (k + 1). split; [lia|]. rewrite E, dec_step_fold. f_equal.
      rewrite Z.pow_add_r by lia. pose proof (Z.div_mod n 10). lia.
Qed.

Lemma log2_fuel (n : Z) : 0 <= n -> n < 2 ^ Z.of_nat (S (Z.to_nat (Z.log2 n))).
Proof.
  intros Hn. rewrite Nat2Z.inj_succ, Z2Nat.id by apply Z.log2_nonneg.
  destruct (Z.eq_dec n 0) as [->|Hnz]; [reflexivity|].
  apply Z.log2_spec; lia.
Qed.

Lemma dec_value_digits (n : Z) : 0 <= n -> dec_value (digits_of_nonneg n) = n.
Proof.
  intros Hn. unfold dec_value, digits_of_nonneg.
  destruct (digits_fuel_value (S (Z.to_nat (Z.log2 n))) n 0 [])
    as [k [_ E]]; [split; [lia | now apply log2_fuel]|].
  rewrite E. simpl. lia.
Qed.

Lemma digits_fuel_digits (f : nat) :
  forall (n : Z) (acc : jstr), 0 <= n ->
  forallb is_digit acc = true -> forallb is_digit (digits_fuel f n acc) = true.
Proof.
  induction f as [|f IH]; intros n acc Hn Hacc; simpl; [exact Hacc|].
  assert (Hd : is_digit (digit_char (n mod 10)) = true).
  { unfold is_digit, digit_char. pose proof (Z.mod_pos_bound n 10). lia. }
  destruct (n <? 10); simpl.
  - now rewrite Hd, Hacc.
  - apply IH; [apply Z.div_pos; lia|]. simpl. now rewrite Hd, Hacc.
Qed.

Lemma digits_fuel_nonempty (f : nat) :
  forall (n : Z) (acc : jstr), f <> O -> digits_fuel f n acc <> [].
Proof.
  induction f as [|f IH]; intros n acc Hf; [congruence|]. simpl.
  destruct (n <? 10); [discriminate|].
  destruct f; [discriminate | apply IH; discriminate].
Qed.

Lemma digits_fuel_length (f : nat) :
  forall (n : Z) (acc : jstr) (k : nat), (1 <= k)%nat -> 0 <= n < 10 ^ Z.of_nat k ->
  (length (digits_fuel f n acc) <= length acc + k)%nat.
Proof.
  induction f as [|f IH]; intros n acc k Hk Hn; cbn [digits_fuel]; [lia|].
  destruct (Z.ltb_spec n 10); [simpl; lia|].
  destruct k as [|[|k]]; [lia| simpl in Hn; lia |].
  assert (Hp : 10 ^ Z.of_nat (S (S k)) = 10 * 10 ^ Z.of_nat (S k))
    by (rewrite (Nat2Z.inj_succ (S k)), Z.pow_succ_r; lia).
  assert (Hq : 0 <= n / 10 < 10 ^ Z.of_nat (S k))
    by (split; [apply Z.div_pos; lia | apply Z.div_lt_upper_bound; lia]).
  specialize (IH (n / 10) (digit_char (n mod 10) :: acc) (S k) ltac:(lia) Hq).
  simpl in IH. lia.
Qed.

Lemma digits_of_nonneg_shape (n : Z) : 0 <= n ->
  digits_of_nonneg n <> [] /\ forallb is_digit (digits_of_nonneg n) = true.
Proof.
  intros Hn. split.
  - apply digits_fuel_nonempty. discriminate.
  - now apply digits_fuel_digits.
Qed.

Lemma parse_dec_neg (r : jstr) :
  r <> [] -> forallb is_digit r = true -> parse_dec (45 :: r) = Some (- dec_value r).
Proof. intros Hne Hd. destruct r as [|c r]; [congruence|]. simpl in *. now rewrite Hd. Qed.

Lemma parse_dec_pos (r : jstr) :
  r <> [] -> forallb is_digit r = true -> parse_dec r = Some (dec_value r).
Proof.
  intros Hne Hd. destruct r as [|c r]; [congruence|].
  cbn [parse_dec]. rewrite Hd.
  simpl in Hd. apply andb_prop in Hd as [Hc _].
  unfold is_digit in Hc. destruct (Z.eqb_spec c 45); [lia|reflexivity].
Qed.

Lemma parse_dec_Z_to_dec (z : Z) : parse_dec (Z_to_dec z) = Some z.
Proof.
  unfold Z_to_dec. destruct (Z.ltb_spec z 0) as [Hneg|Hpos].
  - destruct (digits_of_nonneg_shape (- z)) as [Hne Hd]; [lia|].
    rewrite parse_dec_neg, dec_value_digits by (auto; lia). f_equal; lia.
  - destruct (digits_of_nonneg_shape z) as [Hne Hd]; [lia|].
    rewrite parse_dec_pos, dec_value_digits by (auto; lia). reflexivity.
Qed.


Lemma jstr_eqb_eq (a b : jstr) : jstr_eqb a b = true <-> a = b.
Proof. unfold jstr_eqb. destruct (list_eq_dec Z.eq_dec a b); split; congruence. Qed.

Lemma jstr_eqb_refl (a : jstr) : jstr_eqb a a = true.
Proof. now apply jstr_eqb_eq. Qed.

#[export] Hint Rewrite jstr_eqb_refl : js.

(** ** Canonical decimal digits *)

Lemma digits_fuel_acc (f : nat) : forall n acc, digits_fuel f n acc = digits_fuel f n [] ++ acc.
Proof.
  induction f as [|f IH]; intros n acc; [reflexivity|]. cbn [digits_fuel].
  destruct (n <? 10); [reflexivity|].
  rewrite (IH _ (_ :: acc)), (IH _ [_]), <- app_assoc. reflexivity.
Qed.

Lemma digits_fuel_enough (f g : nat) :
  forall n acc, (1 <= f)%nat -> 0 <= n < 10 ^ Z.of_nat f -> digits_fuel (f + g) n acc = digits_fuel f n acc.
Proof.
  induction f as [|f IH]; intros n acc Hf Hn; [lia|]. cbn [Nat.add digits_fuel].
  destruct (Z.ltb_spec n 10); [reflexivity|].
  destruct f as [|f]; [simpl in Hn; lia|].
  apply IH; [lia|]. split; [apply Z.div_pos; lia|]. apply Z.div_lt_upper_bound; [lia|].
  rewrite <- Z.pow_succ_r by lia. rewrite <- Nat2Z.inj_succ. exact (proj2 Hn).
Qed.

Lemma pow2_le_pow10 (k : Z) : 0 <= k -> 2 ^ k <= 10 ^ k.
Proof. intros Hk. apply Z.pow_le_mono_l. lia. Qed.

Lemma digits_of_nonneg_fuel (z : Z) (f : nat) :
  0 <= z -> (S (Z.to_nat (Z.log2 z)) <= f)%nat -> digits_fuel f z [] = digits_of_nonneg z.
Proof.
  intros Hz Hf. unfold digits_of_nonneg. replace f with (S (Z.to_nat (Z.log2 z)) + (f - S (Z.to_nat (Z.log2 z))))%nat by lia.
  apply digits_fuel_enough; [lia|]. split; [lia|].
  eapply Z.lt_le_trans; [apply log2_fuel; lia | apply pow2_le_pow10; lia].
Qed.

Lemma digits_of_nonneg_mul10 (z : Z) : 0 < z -> digits_of_nonneg (10 * z) = digits_of_nonneg z ++ [48].
Proof.
  intros Hz. unfold digits_of_nonneg at 1.
  assert (Hl : (S (Z.to_nat (Z.log2 z)) <= Z.to_nat (Z.log2 (10 * z)))%nat).
  { pose proof (Z.log2_le_mono (z * 2 ^ 3) (10 * z) ltac:(change (2 ^ 3) with 8; lia)) as H.
    rewrite Z.log2_mul_pow2 in H by lia. pose proof (Z.log2_nonneg z). lia. }
  cbn [digits_fuel]. destruct (Z.ltb_spec (10 * z) 10); [lia|].
  replace ((10 * z) mod 10) with 0 by (rewrite Z.mul_comm, Z.mod_mul; lia).
  replace ((10 * z) / 10) with z by (rewrite Z.mul_comm, Z.div_mul; lia). rewrite digits_fuel_acc.
  rewrite digits_of_nonneg_fuel by lia. reflexivity.
Qed.

Lemma digits_of_nonneg_pow10 (s : Z) (e : nat) :
  0 < s -> digits_of_nonneg (s * 10 ^ Z.of_nat e) = digits_of_nonneg s ++ repeat 48 e.
Proof.
  intros Hs. induction e as [|e IH]; [simpl; now rewrite Z.mul_1_r, app_nil_r|].
  rewrite Nat2Z.inj_succ, Z.pow_succ_r by lia.
  replace (s * (10 * 10 ^ Z.of_nat e)) with (10 * (s * 10 ^ Z.of_nat e)) by lia.
  rewrite digits_of_nonneg_mul10 by (pose proof (Z.pow_pos_nonneg 10 (Z.of_nat e)); nia).
  rewrite IH, <- app_assoc. f_equal. simpl. rewrite repeat_cons. reflexivity.
Qed.

Lemma digits_fuel_len_bounds (f : nat) :
  forall n, 1 <= n < 2 ^ Z.of_nat f ->
  10 ^ (Z.of_nat (length (digits_fuel f n [])) - 1) <= n < 10 ^ Z.of_nat (length (digits_fuel f n [])).
Proof.
  induction f as [|f IH]; intros n Hn; [simpl in Hn; lia|]. cbn [digits_fuel].
  destruct (Z.ltb_spec n 10); [simpl; lia|].
  rewrite digits_fuel_acc, length_app. cbn [length].
  rewrite Nat2Z.inj_succ, Z.pow_succ_r in Hn by lia.
  destruct (IH (n / 10)) as [Hlo Hhi].
  { split; [apply Z.div_le_lower_bound; lia | apply Z.div_lt_upper_bound; lia]. }
  set (L := Z.of_nat (length (digits_fuel f (n / 10) []))) in *.
  assert (HL : 1 <= L).
  { destruct (Z.le_gt_cases 1 L) as [|Hl]; [assumption|]. assert (L = 0) by lia.
    rewrite H0 in Hhi. simpl in Hhi. assert (1 <= n / 10) by (apply Z.div_le_lower_bound; lia). lia. }
  rewrite Nat2Z.inj_add. fold L. simpl (Z.of_nat 1).
  replace (L + 1 - 1) with (1 + (L - 1)) by lia.
  rewrite Z.pow_add_r, Z.pow_add_r by lia. rewrite Z.pow_1_r.
  pose proof (Z.div_mod n 10 ltac:(lia)). pose proof (Z.mod_pos_bound n 10 ltac:(lia)).
  replace (10 ^ L) with (10 * 10 ^ (L - 1)) in * by (rewrite <- Z.pow_succ_r by lia; f_equal; lia).
  nia.
Qed.

Lemma Z_to_dec_inj (a b : Z) : Z_to_dec a = Z_to_dec b -> a = b.
Proof.
  intros E. pose proof (parse_dec_Z_to_dec a) as Ha. rewrite E, parse_dec_Z_to_dec in Ha. congruence.
Qed.

(** The leading digit of the decimal form of a positive integer is not 0. *)
Lemma digits_fuel_head (f : nat) :
  forall (n : Z) (acc : jstr), 1 <= n < 2 ^ Z.of_nat f ->
  exists c r, digits_fuel f n acc = c :: r /\ c <> 48.
Proof.
  induction f as [|f IH]; intros n acc Hn; [simpl in Hn; lia|]. cbn [digits_fuel].
  rewrite Nat2Z.inj_succ, Z.pow_succ_r in Hn by lia.
  destruct (Z.ltb_spec n 10).
  - exists (digit_char (n mod 10)), acc. rewrite Z.mod_small by lia. unfold digit_char. split; [reflexivity | lia].
  - apply IH. split; [apply Z.div_le_lower_bound | apply Z.div_lt_upper_bound]; lia.
Qed.

Lemma digits_of_nonneg_head (n : Z) :
  1 <= n -> exists c r, digits_of_nonneg n = c :: r /\ c <> 48.
Proof. intros Hn. unfold digits_of_nonneg. apply digits_fuel_head. split; [lia | apply log2_fuel; lia]. Qed.

(** [span] stops at the first code unit that fails the test. *)
Lemma span_app (p : code_unit -> bool) (ds rest : jstr) :
  forallb p ds = true -> (forall c r, rest = c :: r -> p c = false) ->
  span p (ds ++ rest) = (ds, rest).
Proof.
  intros Hd He. induction ds as [|c ds IH]; simpl in *.
  - destruct rest as [|c r]; [reflexivity|]. simpl. now rewrite (He c r eq_refl).
  - apply andb_prop in Hd as [Hc Hd]. rewrite Hc, IH by assumption. reflexivity.
Qed.

(** The minus sign, the digits and the point are not white space:
    checked on the 13 code units from U+002D to U+0039. *)
Lemma not_ws_range : forall_range (fun c => negb (is_str_whitespace c)) 13 45 = true.
Proof. vm_compute. reflexivity. Qed.

Lemma not_ws_digit (c : code_unit) : 45 <= c <= 57 -> is_str_whitespace c = false.
Proof.
  intros Hc. pose proof (forall_range_sound _ 13 45 c not_ws_range ltac:(simpl; lia)) as H.
  now apply negb_true_iff in H.
Qed.

(** A string that starts and ends with a code unit that is not white
    space is its own trim. *)
Lemma trim_whitespace_id (s : jstr) :
  (forall x r, s = x :: r -> is_str_whitespace x = false) ->
  (forall m y, s = m ++ [y] -> is_str_whitespace y = false) ->
  trim_whitespace s = s.
Proof.
  intros Hh Ht. destruct s as [|x r]; [reflexivity|].
  destruct (exists_last (l := x :: r) ltac:(discriminate)) as (m & y & E).
  unfold trim_whitespace. cbn [drop_while]. rewrite (Hh x r eq_refl).
  rewrite E, rev_unit. cbn [drop_while]. rewrite (Ht m y E).
  rewrite <- rev_unit, rev_involutive. reflexivity.
Qed.

Lemma jstr_eqb_cons_neq (a b : code_unit) (x y : jstr) : a <> b -> jstr_eqb (a :: x) (b :: y) = false.
Proof.
  intros Hne. destruct (jstr_eqb (a :: x) (b :: y)) eqn:E; [|reflexivity].
  apply jstr_eqb_eq in E. congruence.
Qed.
