(* ===== verification/JsNumber.v ===== *)
(** * JavaScript Numbers

    A Number is an IEEE-754 binary64 value: Rocq's primitive [float], whose
    operations the kernel computes exactly as the hardware does.  To reason
    about them we go through [Prim2SF], the axiom-specified bijection with
    the inductive [spec_float] of [SpecFloat] (sign, mantissa, exponent),
    on which the operations below are plain Rocq functions.

    This file models what the handler does to numbers:
    - [valor * 100] (lines 45 and 51): ToNumber and [PrimFloat.mul];
    - [Math.round] (lines 45 and 51), following ECMAScript's five steps;
    - StringToNumber, the conversion of a string amount (for example the
      form-encoded ["10.50"]), with correct rounding of decimal literals;
    - Number::toString radix 10 (["PEDIDO-" + Date.now()], line 35, and
      every number JSON.stringify prints): the shortest digit string that
      converts back to the same Number, closest to it on ties.
    Its theorems show that [Math.round] rounds a non-integral Number to
    the nearest integer (ties towards +infinity), exactly, and leaves an
    integral one unchanged, through the exactness of [binary_round] on
    integers below [2^53]. *)

From Stdlib Require Import String ZArith List Lia Bool Floats.
From S2P Require Import Prelude JsString.
Import ListNotations.
Open Scope Z_scope.

Definition number := float.

(** ** Exact values and correct rounding *)
Definition spec_float_eq_dec (a b : spec_float) : {a = b} + {a <> b}.
Proof. decide equality; first [apply Bool.bool_dec | apply Pos.eq_dec | apply Z.eq_dec]. Defined.

Definition sf_eqb (a b : spec_float) : bool :=
  if spec_float_eq_dec a b then true else false.

(** The binary64 value nearest to [p / q] (ties to even), negated when
    [neg]: SpecFloat's correctly rounded division of two integers. *)
Definition sf_of_ratio (neg : bool) (p q : positive) : spec_float :=
  let '(mz, ez, lz) := SFdiv_core_binary prec emax (Zpos p) 0 (Zpos q) 0 in
  binary_round_aux prec emax neg mz ez lz.

(** The Number value of [m * 10^k] for [m >= 0], negated when [neg]:
    ECMAScript's "the Number value for" a mathematical value, rounded to
    nearest, ties to even. *)
Definition sf_of_decimal (neg : bool) (m k : Z) : spec_float :=
  match m with
  | Zpos p =>
      if 0 <=? k then sf_of_ratio neg (p * Z.to_pos (10 ^ k))%positive 1
      else sf_of_ratio neg p (Z.to_pos (10 ^ (- k)))
  | _ => S754_zero neg
  end.

Definition float_of_decimal (neg : bool) (m k : Z) : number :=
  SF2Prim (sf_of_decimal neg m k).

(** [𝔽(z)] for an integer [z]. *)
Definition float_of_Z (z : Z) : number :=
  SF2Prim (binary_normalize prec emax z 0 false).

(** ** StringToNumber *)
Definition hex_val (c : code_unit) : option Z :=
  if (48 <=? c) && (c <=? 57) then Some (c - 48)
  else if (97 <=? c) && (c <=? 102) then Some (c - 87)
  else if (65 <=? c) && (c <=? 70) then Some (c - 55)
  else None.

(** The value of a non-empty digit string in base [radix], or [None] when a
    code unit is not a digit of that base. *)
Fixpoint radix_value_acc (radix acc : Z) (s : jstr) : option Z :=
  match s with
  | [] => Some acc
  | c :: r =>
      match hex_val c with
      | Some d => if d <? radix then radix_value_acc radix (acc * radix + d) r else None
      | None => None
      end
  end.

Definition radix_value (radix : Z) (s : jstr) : option Z :=
  match s with [] => None | _ => radix_value_acc radix 0 s end.

(** DecimalDigits: non-empty, ASCII digits only. *)
Definition decimal_digits_value (s : jstr) : option Z :=
  match s with
  | [] => None
  | _ => if forallb is_digit s then Some (dec_value s) else None
  end.

(** ExponentPart, when present: [e] or [E], an optional sign, digits. *)
Definition parse_exponent (s : jstr) : option Z :=
  match s with
  | [] => Some 0
  | c :: r =>
      if (c =? 101) || (c =? 69) then
        match r with
        | 43 :: d => decimal_digits_value d
        | 45 :: d => option_map Z.opp (decimal_digits_value d)
        | d => decimal_digits_value d
        end
      else None
  end.

(** StrUnsignedDecimalLiteral other than [Infinity]: its value as a pair
    (mantissa [m], decimal exponent [k]) meaning [m * 10^k]. *)
Definition parse_unsigned_decimal (s : jstr) : option (Z * Z) :=
  let '(ip, r1) := span is_digit s in
  match r1 with
  | 46 :: r2 =>
      let '(fp, r3) := span is_digit r2 in
      match ip, fp with
      | [], [] => None
      | _, _ =>
          option_map (fun e => (dec_value (ip ++ fp), e - Z.of_nat (length fp)))
            (parse_exponent r3)
      end
  | _ =>
      match ip with
      | [] => None
      | _ => option_map (fun e => (dec_value ip, e)) (parse_exponent r1)
      end
  end.

Definition infinity_literal : jstr := js "Infinity"%string.

(** StrDecimalLiteral: an optional sign and an unsigned literal. *)
Definition parse_str_decimal (s : jstr) : option number :=
  let '(neg, u) :=
    match s with
    | c :: r => if c =? 43 then (false, r) else if c =? 45 then (true, r) else (false, s)
    | [] => (false, s)
    end in
  if jstr_eqb u infinity_literal then
    Some (if neg then neg_infinity else infinity)
  else
    option_map (fun '(m, k) => float_of_decimal neg m k) (parse_unsigned_decimal u).

(** NonDecimalIntegerLiteral: [0x], [0o], [0b] (either case), no sign. *)
Definition parse_non_decimal (s : jstr) : option number :=
  match s with
  | z :: c :: r =>
      if negb (z =? 48) then None else
      let radix :=
        if (c =? 120) || (c =? 88) then 16
        else if (c =? 111) || (c =? 79) then 8
        else if (c =? 98) || (c =? 66) then 2 else 0 in
      if radix =? 0 then None
      else option_map (fun v => float_of_decimal false v 0) (radix_value radix r)
  | _ => None
  end.

(** StringToNumber: trim the white space; the empty string is [+0]; a
    string that is not a StringNumericLiteral is NaN. *)
Definition StringToNumber (s : jstr) : number :=
  match trim_whitespace s with
  | [] => 0%float
  | t =>
      match parse_non_decimal t with
      | Some f => f
      | None => match parse_str_decimal t with Some f => f | None => nan end
      end
  end.

(** ** Number::toString *)

(** The exact value of a positive finite [spec_float] as a fraction. *)
Definition sf_ratio (m : positive) (e : Z) : positive * positive :=
  if 0 <=? e then ((m * Z.to_pos (2 ^ e))%positive, 1%positive)
  else (m, Z.to_pos (2 ^ (- e))).

(** [p / q < 10^e], decided on integers. *)
Definition ratio_lt_pow10 (p q : positive) (e : Z) : bool :=
  Zpos p * 10 ^ Z.max 0 (- e) <? Zpos q * 10 ^ Z.max 0 e.

Definition ndigits (z : Z) : Z := Z.of_nat (length (digits_of_nonneg z)).

(** The [n] with [10^(n-1) <= p / q < 10^n]. *)
Definition dec_exponent (p q : positive) : Z :=
  let d := ndigits (Zpos p) - ndigits (Zpos q) in
  if ratio_lt_pow10 p q d then d else d + 1.

(** [floor(p / q * 10^j)] and the comparison of the remainder with half a
    unit ([Lt]: closer to the floor). *)
Definition scaled_floor (p q : positive) (j : Z) : Z * Z * comparison :=
  let num := Zpos p * 10 ^ Z.max 0 j in
  let den := Zpos q * 10 ^ Z.max 0 (- j) in
  (num / den, num mod den, Z.compare (2 * (num mod den)) den).

(** The digits [s] (with [k] of them) for [k = 1, 2, ...]: the first [k]
    for which an [s] of [k] digits with [s * 10^(n-k)] converting to [x]
    exists; among the two candidates around [x], the one closest to [x],
    the even one on a tie. *)
Fixpoint shortest_digits (fuel : nat) (x : spec_float) (p q : positive)
    (n k : Z) : option (Z * Z) :=
  match fuel with
  | O => None
  | S f =>
      let '(fl, r, half) := scaled_floor p q (k - n) in
      let ok s := sf_eqb (sf_of_decimal false s (n - k)) x in
      if r =? 0 then Some (fl, n - k)
      else
        match ok fl, ok (fl + 1) with
        | true, true =>
            match half with
            | Lt => Some (fl, n - k)
            | Gt => Some (fl + 1, n - k)
            | Eq => Some (if Z.even fl then fl else fl + 1, n - k)
            end
        | true, false => Some (fl, n - k)
        | false, true => Some (fl + 1, n - k)
        | false, false => shortest_digits f x p q n (k + 1)
        end
  end.

(** Drop trailing zeros of [s], raising the exponent [e]. *)
Fixpoint strip_zeros (fuel : nat) (s e : Z) : Z * Z :=
  match fuel with
  | O => (s, e)
  | S f => if (s mod 10 =? 0) && (0 <? s) then strip_zeros f (s / 10) (e + 1) else (s, e)
  end.

Definition zeros (n : Z) : jstr := repeat 48 (Z.to_nat n).

(** Steps 6 to 10 of Number::toString: lay out the digits [ds] of [s]
    with the decimal exponent [n]. *)
Definition layout_digits (ds : jstr) (n : Z) : jstr :=
  let k := Z.of_nat (length ds) in
  if (k <=? n) && (n <=? 21) then ds ++ zeros (n - k)
  else if (0 <? n) && (n <=? 21) then
    firstn (Z.to_nat n) ds ++ [46] ++ skipn (Z.to_nat n) ds
  else if (-6 <? n) && (n <=? 0) then [48; 46] ++ zeros (- n) ++ ds
  else
    let e := n - 1 in
    let exp := 101 :: (if e <? 0 then 45 else 43) :: digits_of_nonneg (Z.abs e) in
    match ds with
    | [d] => [d] ++ exp
    | d :: rest => [d; 46] ++ rest ++ exp
    | [] => exp
    end.

(** Number::toString for a positive finite value [m * 2^e]. *)
Definition positive_to_string (m : positive) (e : Z) : jstr :=
  let '(p, q) := sf_ratio m e in
  let n := dec_exponent p q in
  match shortest_digits 17 (S754_finite false m e) p q n 1 with
  | Some (s, e10) =>
      let '(s', e10') := strip_zeros 17 s e10 in
      let ds := digits_of_nonneg s' in
      layout_digits ds (e10' + Z.of_nat (length ds))
  | None => js "NaN"%string
  end.

Definition sf_to_string (x : spec_float) : jstr :=
  match x with
  | S754_nan => js "NaN"%string
  | S754_zero _ => js "0"%string
  | S754_infinity false => js "Infinity"%string
  | S754_infinity true => js "-Infinity"%string
  | S754_finite false m e => positive_to_string m e
  | S754_finite true m e => 45 :: positive_to_string m e
  end.

Definition NumberToString (x : number) : jstr := sf_to_string (Prim2SF x).

(** ** Math.round *)

(** [m * 2^e] is an integer. *)
Definition sf_integral (m : positive) (e : Z) : bool :=
  (0 <=? e) || (Zpos m mod 2 ^ (- e) =? 0).

(** [floor(z / 2^k + 1/2)]: the integer nearest to [z / 2^k], the larger
    one on a tie. *)
Definition round_half_up (z k : Z) : Z := (2 * z + 2 ^ k) / 2 ^ (k + 1).

(** [Math.round(x)]: 2. a non-finite or integral [x] is returned;
    3. [+0] for [0 < x < 0.5]; 4. [-0] for [-0.5 <= x < 0]; 5. otherwise
    the integral Number closest to [x], the one closer to +infinity on a
    tie. *)
Definition sf_round (x : spec_float) : spec_float :=
  match x with
  | S754_finite s m e =>
      if sf_integral m e then x
      else
        let k := - e in
        if negb s && (2 * Zpos m <? 2 ^ k) then S754_zero false
        else if s && (2 * Zpos m <=? 2 ^ k) then S754_zero true
        else binary_normalize prec emax
               (round_half_up (if s then - Zpos m else Zpos m) k) 0 false
  | _ => x
  end.

Definition math_round (x : number) : number := SF2Prim (sf_round (Prim2SF x)).

(** The integer a [spec_float] denotes, if it denotes one. *)
Definition sf_int_value (x : spec_float) : option Z :=
  match x with
  | S754_zero _ => Some 0
  | S754_finite s m e =>
      let a := if 0 <=? e then Some (Zpos m * 2 ^ e)
               else if Zpos m mod 2 ^ (- e) =? 0 then Some (Zpos m / 2 ^ (- e)) else None in
      option_map (fun a => if s then - a else a) a
  | _ => None
  end.

(** [valor * 100] once [valor] is a Number. *)
Definition times_100 (x : number) : number := (x * 100)%float.

(** * Properties *)

(** ** Exact rounding of integers below [2^53] *)
Lemma digits2_pos_size (p : positive) : digits2_pos p = Pos.size p.
Proof. induction p; simpl; congruence. Qed.

Lemma fexp_normal (e : Z) : -1074 <= e -> fexp prec emax (53 + e) = e.
Proof. intros H. unfold fexp, emin. change prec with 53. change emax with 1024. lia. Qed.

(** Rounding a 53-bit mantissa at an exponent of the normal range is exact. *)
Lemma binary_round_aux_exact (s : bool) (m : positive) (e : Z) :
  Pos.size m = 53%positive -> -1074 <= e <= 971 ->
  binary_round_aux prec emax s (Zpos m) e loc_Exact = S754_finite s m e.
Proof.
  intros Hm He. unfold binary_round_aux, shr_fexp.
  assert (Hd : Zdigits2 (Zpos m) = 53) by (simpl; now rewrite digits2_pos_size, Hm).
  rewrite Hd, fexp_normal, Z.sub_diag by lia. cbn [shr shr_m shr_record_of_loc loc_of_shr_record round_nearest_even].
  rewrite Hd, fexp_normal, Z.sub_diag by lia. cbn [shr shr_m shr_record_of_loc].
  change (Z.sub emax prec) with 971.
  destruct (Z.leb_spec e 971); [reflexivity | lia].
Qed.

Lemma size_iter_xO (m k : positive) : Pos.size (Pos.iter xO m k) = (Pos.size m + k)%positive.
Proof.
  induction k using Pos.peano_ind.
  - simpl. lia.
  - rewrite Pos.iter_succ. simpl. rewrite IHk. lia.
Qed.

Lemma iter_xO_mul (m k : positive) : Zpos (Pos.iter xO m k) = Zpos m * 2 ^ Zpos k.
Proof.
  induction k using Pos.peano_ind.
  - simpl. lia.
  - rewrite Pos.iter_succ, Pos2Z.inj_succ, Z.pow_succ_r by lia.
    change (Zpos (xO (Pos.iter xO m k))) with (2 * Zpos (Pos.iter xO m k)). rewrite IHk. lia.
Qed.

Lemma binary_round_small (s : bool) (m : positive) :
  (Pos.size m <= 53)%positive ->
  exists m', binary_round prec emax s m 0 = S754_finite s m' (Zpos (Pos.size m) - 53)
    /\ Zpos m' = Zpos m * 2 ^ (53 - Zpos (Pos.size m)) /\ Pos.size m' = 53%positive.
Proof.
  intros Hs. unfold binary_round. rewrite digits2_pos_size.
  replace (Zpos (Pos.size m) + 0) with (53 + (Zpos (Pos.size m) - 53)) by lia.
  rewrite fexp_normal by lia. unfold shl_align.
  destruct (Zpos (Pos.size m) - 53 - 0) eqn:E; [| lia |].
  - exists m. rewrite binary_round_aux_exact by lia.
    replace (Zpos (Pos.size m) - 53) with 0 by lia.
    replace (53 - Zpos (Pos.size m)) with 0 by lia. split; [reflexivity|]. split; lia.
  - exists (Pos.iter xO m p).
    assert (Hp : Zpos p = 53 - Zpos (Pos.size m)) by lia.
    assert (Hsz : Pos.size (Pos.iter xO m p) = 53%positive) by (rewrite size_iter_xO; lia).
    rewrite binary_round_aux_exact by lia.
    split; [reflexivity|]. split; [rewrite iter_xO_mul; now rewrite Hp | exact Hsz].
Qed.



Lemma size_lt_pow (m : positive) : Zpos m < 2 ^ 53 -> (Pos.size m <= 53)%positive.
Proof.
  intros H. pose proof (Pos.size_le m) as Hl. apply Pos2Z.pos_le_pos in Hl.
  rewrite Pos2Z.inj_pow in Hl. change (Z.pos m~0) with (2 * Z.pos m) in Hl.
  change (2 ^ Z.pos (Pos.size m) <= 2 * Z.pos m) in Hl.
  destruct (Pos.leb_spec (Pos.size m) 53) as [|Hgt]; [assumption|].
  exfalso. assert (2 ^ 54 <= 2 ^ Zpos (Pos.size m)) by (apply Z.pow_le_mono_r; lia).
  assert (2 ^ 54 = 2 * 2 ^ 53) by reflexivity. lia.
Qed.

Lemma binary_round_int (s : bool) (m : positive) :
  Zpos m < 2 ^ 53 ->
  sf_int_value (binary_round prec emax s m 0) = Some (if s then - Zpos m else Zpos m).
Proof.
  intros Hb. pose proof (size_lt_pow m Hb) as Hs.
  destruct (binary_round_small s m Hs) as (m' & -> & Hv & _).
  unfold sf_int_value. destruct (Z.leb_spec 0 (Zpos (Pos.size m) - 53)) as [H0|H0].
  - assert (E0 : 53 - Zpos (Pos.size m) = 0) by lia.
    rewrite E0, Z.pow_0_r, Z.mul_1_r in Hv.
    assert (E1 : Zpos (Pos.size m) - 53 = 0) by lia.
    rewrite E1, Z.pow_0_r, Z.mul_1_r, Hv. reflexivity.
  - replace (- (Zpos (Pos.size m) - 53)) with (53 - Zpos (Pos.size m)) by lia.
    rewrite Hv, Z.mod_mul, Z.div_mul by (apply Z.pow_nonzero; lia). reflexivity.
Qed.

(** An integer of at most 53 bits is a Number exactly. *)
Lemma binary_normalize_int (z : Z) :
  z <> 0 -> Z.abs z < 2 ^ 53 -> sf_int_value (binary_normalize prec emax z 0 false) = Some z.
Proof.
  intros Hz Hb. destruct z as [|m|m]; [congruence| |].
  - exact (binary_round_int false m Hb).
  - exact (binary_round_int true m Hb).
Qed.

Lemma binary_round_valid (s : bool) (m : positive) :
  Zpos m < 2 ^ 53 -> valid_binary (binary_round prec emax s m 0) = true.
Proof.
  intros Hb. destruct (binary_round_small s m (size_lt_pow m Hb)) as (m' & -> & _ & Hsz).
  unfold valid_binary, bounded, canonical_mantissa. rewrite digits2_pos_size, Hsz.
  pose proof (size_lt_pow m Hb). pose proof (Pos2Z.is_pos (Pos.size m)).
  rewrite fexp_normal by lia. rewrite Z.eqb_refl. change (Z.sub emax prec) with 971.
  cbn [andb]. apply Z.leb_le. lia.
Qed.

Lemma valid_finite_mantissa (s : bool) (m : positive) (e : Z) :
  valid_binary (S754_finite s m e) = true -> Zpos m < 2 ^ 53.
Proof.
  unfold valid_binary, bounded, canonical_mantissa. intros H.
  apply andb_prop in H as [H _]. apply Z.eqb_eq in H. rewrite digits2_pos_size in H.
  unfold fexp, emin in H. change prec with 53 in H. change emax with 1024 in H.
  pose proof (Pos.size_gt m) as Hg. apply Pos2Z.pos_lt_pos in Hg. rewrite Pos2Z.inj_pow in Hg.
  assert (Zpos (Pos.size m) <= 53) by lia.
  eapply Z.lt_le_trans; [exact Hg|]. apply Z.pow_le_mono_r; lia.
Qed.

Lemma round_half_up_spec (z k : Z) :
  0 <= k -> 2 ^ k * (2 * round_half_up z k - 1) <= 2 * z < 2 ^ k * (2 * round_half_up z k + 1).
Proof.
  intros Hk. unfold round_half_up. rewrite Z.pow_add_r, Z.pow_1_r by lia.
  pose proof (Z.pow_pos_nonneg 2 k ltac:(lia) Hk) as HP.
  set (P := 2 ^ k) in *.
  pose proof (Z.div_mod (2 * z + P) (P * 2) ltac:(lia)) as Hd.
  pose proof (Z.mod_pos_bound (2 * z + P) (P * 2) ltac:(lia)) as Hm.
  set (q := (2 * z + P) / (P * 2)) in *. nia.
Qed.

Lemma binary_normalize_valid (z : Z) :
  z <> 0 -> Z.abs z < 2 ^ 53 -> valid_binary (binary_normalize prec emax z 0 false) = true.
Proof.
  intros Hz Hb. destruct z as [|m|m]; [congruence| |]; apply binary_round_valid; exact Hb.
Qed.

Lemma round_result_int (n : Z) :
  n <> 0 -> Z.abs n < 2 ^ 53 ->
  sf_int_value (Prim2SF (SF2Prim (binary_normalize prec emax n 0 false))) = Some n.
Proof.
  intros Hz Hb. rewrite FloatAxioms.Prim2SF_SF2Prim by (now apply binary_normalize_valid).
  now apply binary_normalize_int.
Qed.

(** C28 (functional): [Math.round] of a finite Number [x = (-1)^s * m * 2^e]
    that is not an integer gives an integer [n] with
    [n - 1/2 <= x < n + 1/2], that is [floor(x + 1/2)]: the nearest
    integer, the larger one on a tie, and the result is exact (it is a
    Number that denotes [n]). *)
Theorem math_round_nearest (x : number) (s : bool) (m : positive) (e : Z) :
  Prim2SF x = S754_finite s m e -> sf_integral m e = false ->
  exists n, sf_int_value (Prim2SF (math_round x)) = Some n /\
    2 ^ (- e) * (2 * n - 1) <= 2 * (if s then - Zpos m else Zpos m) < 2 ^ (- e) * (2 * n + 1).
Proof.
  intros Hx Hi.
  pose proof (FloatAxioms.Prim2SF_valid x) as Hv. rewrite Hx in Hv. apply valid_finite_mantissa in Hv.
  assert (Hk : 1 <= - e).
  { unfold sf_integral in Hi. apply orb_false_elim in Hi as [He _]. apply Z.leb_gt in He. lia. }
  unfold math_round. rewrite Hx. unfold sf_round. rewrite Hi.
  pose proof (Z.pow_pos_nonneg 2 (- e) ltac:(lia) ltac:(lia)) as HP.
  assert (H54 : 2 ^ 53 * 2 <= 2 ^ 53 * 2 ^ (- e)) by (apply Z.mul_le_mono_nonneg_l; [lia|];
    change 2 with (2 ^ 1) at 1; apply Z.pow_le_mono_r; lia).
  set (P := 2 ^ (- e)) in *. set (B := 2 ^ 53) in *.
  destruct s; cbn [negb andb].
  - destruct (Z.leb_spec (2 * Zpos m) P) as [Hs|Hs].
    + exists 0. split; [reflexivity|]. lia.
    + pose proof (round_half_up_spec (- Zpos m) (- e) ltac:(lia)) as Hr.
      fold P in Hr. set (n := round_half_up (- Zpos m) (- e)) in *.
      exists n. split; [|exact Hr]. apply round_result_int; nia.
  - destruct (Z.ltb_spec (2 * Zpos m) P) as [Hs|Hs].
    + exists 0. split; [reflexivity|]. lia.
    + pose proof (round_half_up_spec (Zpos m) (- e) ltac:(lia)) as Hr.
      fold P in Hr. set (n := round_half_up (Zpos m) (- e)) in *.
      exists n. split; [|exact Hr]. apply round_result_int; nia.
Qed.

(** An integral Number is its own [Math.round]. *)
Lemma math_round_integral (x : number) (s : bool) (m : positive) (e : Z) :
  Prim2SF x = S754_finite s m e -> sf_integral m e = true -> math_round x = x.
Proof.
  intros Hx Hi. unfold math_round. rewrite Hx. cbn [sf_round]. rewrite Hi, <- Hx.
  apply FloatAxioms.SF2Prim_Prim2SF.
Qed.

Lemma math_round_nearest_witness :
  exists n, sf_int_value (Prim2SF (math_round 2.5%float)) = Some n /\
    2 ^ (- (-51)) * (2 * n - 1) <= 2 * (if false then - Zpos 5629499534213120 else Zpos 5629499534213120)
    < 2 ^ (- (-51)) * (2 * n + 1).
Proof. apply (math_round_nearest 2.5%float false 5629499534213120 (-51)); vm_compute; reflexivity. Defined.

(** ** Exact addition of integers below [2^53] *)

Lemma iter_pos_nat {A} (f : A -> A) (p : positive) (x : A) :
  iter_pos f p x = Nat.iter (Pos.to_nat p) f x.
Proof.
  revert x. induction p as [p IH|p IH|]; intros x; cbn [iter_pos].
  - rewrite Pos2Nat.inj_xI, IH, IH, <- Nat.iter_add, <- Nat.iter_succ_r. f_equal. lia.
  - rewrite Pos2Nat.inj_xO, IH, IH. rewrite <- Nat.iter_add. f_equal. lia.
  - reflexivity.
Qed.

Lemma shr_1_iter_exact (d : nat) (m : positive) :
  Nat.iter d shr_1 (Build_shr_record (Zpos (Nat.iter d xO m)) false false)
  = Build_shr_record (Zpos m) false false.
Proof.
  revert m. induction d as [|d IH]; intros m; [reflexivity|].
  rewrite Nat.iter_succ_r. change (Nat.iter (S d) xO m) with (xO (Nat.iter d xO m)).
  cbn [shr_1 orb]. apply IH.
Qed.

Lemma nat_iter_xO (d : nat) (m : positive) : Zpos (Nat.iter d xO m) = Zpos m * 2 ^ Z.of_nat d.
Proof.
  induction d as [|d IH]; [cbn; lia|].
  rewrite Nat2Z.inj_succ, Z.pow_succ_r by lia.
  change (Nat.iter (S d) xO m) with (xO (Nat.iter d xO m)). rewrite Pos2Z.inj_xO, IH. lia.
Qed.

Lemma size_nat_iter_xO (d : nat) (m : positive) :
  Zpos (Pos.size (Nat.iter d xO m)) = Zpos (Pos.size m) + Z.of_nat d.
Proof.
  induction d as [|d IH]; [cbn; lia|].
  change (Nat.iter (S d) xO m) with (xO (Nat.iter d xO m)). cbn [Pos.size].
  rewrite Pos2Z.inj_succ, IH. lia.
Qed.

(** Rounding [m * 2^d] at exponent [e - d], for a 53-bit [m], shifts the
    [d] zero bits out exactly. *)
Lemma binary_round_aux_shift (s : bool) (m : positive) (e : Z) (d : nat) :
  Pos.size m = 53%positive -> -1074 <= e <= 971 ->
  binary_round_aux prec emax s (Zpos (Nat.iter d xO m)) (e - Z.of_nat d) loc_Exact = S754_finite s m e.
Proof.
  intros Hm He. destruct d as [|d].
  - rewrite Z.sub_0_r. now apply binary_round_aux_exact.
  - unfold binary_round_aux at 1. unfold shr_fexp at 1.
    assert (Hd : Zdigits2 (Zpos (Nat.iter (S d) xO m)) = 53 + Z.of_nat (S d)).
    { cbn [Zdigits2]. rewrite digits2_pos_size, size_nat_iter_xO, Hm. reflexivity. }
    rewrite Hd. replace (53 + Z.of_nat (S d) + (e - Z.of_nat (S d))) with (53 + e) by lia.
    rewrite fexp_normal by lia. replace (e - (e - Z.of_nat (S d))) with (Zpos (Pos.of_succ_nat d)) by lia.
    cbn [shr shr_record_of_loc]. rewrite iter_pos_nat, SuccNat2Pos.id_succ, shr_1_iter_exact.
    replace (e - Z.of_nat (S d) + Zpos (Pos.of_succ_nat d)) with e by lia.
    cbn [shr_m loc_of_shr_record round_nearest_even].
    unfold shr_fexp. assert (Hd' : Zdigits2 (Zpos m) = 53) by (cbn; now rewrite digits2_pos_size, Hm).
    rewrite Hd', fexp_normal, Z.sub_diag by lia. cbn [shr shr_m shr_record_of_loc].
    change (Z.sub emax prec) with 971.
    destruct (Z.leb_spec e 971); [reflexivity | lia].
Qed.

(** Rounding is invariant under scaling by a power of two: [P * 2^d] at
    exponent [-d] rounds as [P] at exponent 0, for [P] of at most 53 bits. *)
Lemma binary_round_scale (s : bool) (P : positive) (d : nat) :
  (Pos.size P <= 53)%positive ->
  binary_round prec emax s (Nat.iter d xO P) (- Z.of_nat d) = binary_round prec emax s P 0.
Proof.
  intros Hs. destruct (binary_round_small s P Hs) as (m' & -> & Hv & Hsz).
  set (k0 := Z.to_nat (53 - Zpos (Pos.size P))).
  assert (Hk0 : Z.of_nat k0 = 53 - Zpos (Pos.size P)) by (unfold k0; rewrite Z2Nat.id; lia).
  assert (Hm' : Nat.iter k0 xO P = m').
  { apply Pos2Z.inj. now rewrite nat_iter_xO, Hk0. }
  unfold binary_round. rewrite digits2_pos_size.
  pose proof (size_nat_iter_xO d P) as HsI.
  replace (Zpos (Pos.size (Nat.iter d xO P)) + - Z.of_nat d) with (53 + (Zpos (Pos.size P) - 53)) by lia.
  rewrite fexp_normal by lia. unfold shl_align.
  destruct (Zpos (Pos.size P) - 53 - - Z.of_nat d) as [|q|q] eqn:E.
  - (* d = 53 - size P: already 53 bits *)
    assert (d = k0) by lia. subst d. rewrite Hm'.
    replace (- Z.of_nat k0) with (Zpos (Pos.size P) - 53) by lia.
    apply binary_round_aux_exact; lia.
  - (* too many bits: shift right by q *)
    assert (Hd : d = (k0 + Pos.to_nat q)%nat) by lia.
    rewrite Hd, Nat.add_comm, Nat.iter_add, Hm'.
    replace (- Z.of_nat (Pos.to_nat q + k0)) with ((Zpos (Pos.size P) - 53) - Z.of_nat (Pos.to_nat q)) by lia.
    apply binary_round_aux_shift; lia.
  - (* too few bits: shift left by q *)
    assert (Hq : Zpos (Pos.iter xO (Nat.iter d xO P) q) = Zpos m').
    { rewrite iter_xO_mul, nat_iter_xO, Hv. rewrite <- Z.mul_assoc, <- Z.pow_add_r by lia. f_equal. f_equal. lia. }
    apply Pos2Z.inj in Hq. rewrite Hq. apply binary_round_aux_exact; lia.
Qed.

Lemma shl_align_fst (m : positive) (e e' : Z) :
  e' <= e -> Zpos (fst (shl_align m e e')) = Zpos m * 2 ^ (e - e').
Proof.
  intros H. unfold shl_align. destruct (e' - e) as [|d|d] eqn:E; simpl.
  - replace (e - e') with 0 by lia. rewrite Z.pow_0_r. lia.
  - lia.
  - rewrite iter_xO_mul. replace (e - e') with (Zpos d) by lia. reflexivity.
Qed.

(** The sum of two positive integers below [2^53] whose sum is below
    [2^53] is computed exactly. *)
Lemma SFadd_int (a b : positive) :
  Zpos a + Zpos b < 2 ^ 53 ->
  SFadd prec emax (binary_normalize prec emax (Zpos a) 0 false) (binary_normalize prec emax (Zpos b) 0 false)
  = binary_normalize prec emax (Zpos (a + b)%positive) 0 false.
Proof.
  intros Hab. cbn [binary_normalize].
  assert (Ha : Zpos a < 2 ^ 53) by lia. assert (Hb : Zpos b < 2 ^ 53) by lia.
  destruct (binary_round_small false a (size_lt_pow a Ha)) as (ma & -> & Hva & _).
  destruct (binary_round_small false b (size_lt_pow b Hb)) as (mb & -> & Hvb & _).
  pose proof (Pos2Z.pos_le_pos _ _ (size_lt_pow a Ha)) as Hsa. pose proof (Pos2Z.pos_le_pos _ _ (size_lt_pow b Hb)) as Hsb.
  cbn [SFadd]. set (ea := Zpos (Pos.size a) - 53) in *. set (eb := Zpos (Pos.size b) - 53) in *.
  set (ez := Z.min ea eb).
  assert (Hez : ez <= 0) by (unfold ez, ea, eb; lia).
  set (K := Z.to_nat (- ez)).
  assert (HK : Z.of_nat K = - ez) by (unfold K; rewrite Z2Nat.id; lia).
  assert (Hsum : cond_Zopp false (Zpos (fst (shl_align ma ea ez))) + cond_Zopp false (Zpos (fst (shl_align mb eb ez)))
                 = Zpos (Nat.iter K xO (a + b)%positive)).
  { cbn [cond_Zopp]. rewrite !shl_align_fst by (unfold ez; lia).
    rewrite Hva, Hvb, nat_iter_xO, HK, <- !Z.mul_assoc, <- !Z.pow_add_r by (unfold ez, ea, eb in *; lia).
    unfold ea, eb. replace (53 - Zpos (Pos.size a) + (Zpos (Pos.size a) - 53 - ez)) with (- ez) by lia.
    replace (53 - Zpos (Pos.size b) + (Zpos (Pos.size b) - 53 - ez)) with (- ez) by lia. lia. }
  rewrite Hsum. cbn [binary_normalize]. replace ez with (- Z.of_nat K) by lia.
  apply binary_round_scale. apply size_lt_pow. lia.
Qed.

Lemma Prim2SF_float_of_Z (z : Z) :
  Z.abs z < 2 ^ 53 -> Prim2SF (float_of_Z z) = binary_normalize prec emax z 0 false.
Proof.
  intros Hb. unfold float_of_Z. apply FloatAxioms.Prim2SF_SF2Prim.
  destruct (Z.eq_dec z 0) as [->|Hz]; [reflexivity|]. now apply binary_normalize_valid.
Qed.

(** Adding two integers whose sum is below [2^53] is exact on Numbers. *)
Lemma float_of_Z_add (a b : Z) :
  0 <= a -> 0 <= b -> a + b < 2 ^ 53 -> (float_of_Z a + float_of_Z b)%float = float_of_Z (a + b).
Proof.
  intros Ha Hb Hab.
  rewrite <- (FloatAxioms.SF2Prim_Prim2SF (float_of_Z a + float_of_Z b)).
  rewrite FloatAxioms.add_spec, !Prim2SF_float_of_Z by lia.
  unfold float_of_Z. f_equal.
  destruct a as [|pa|pa]; destruct b as [|pb|pb]; try lia; try reflexivity.
  - cbn [binary_normalize Z.add].
    destruct (binary_round_small false pb (size_lt_pow pb ltac:(lia))) as (m & -> & _). reflexivity.
  - rewrite Z.add_0_r. cbn [binary_normalize].
    destruct (binary_round_small false pa (size_lt_pow pa ltac:(lia))) as (m & -> & _). reflexivity.
  - apply SFadd_int. exact Hab.
Qed.

(** ** Number::toString of integers *)

Lemma ndigits_bounds (z : Z) : 1 <= z -> 10 ^ (ndigits z - 1) <= z < 10 ^ ndigits z.
Proof.
  intros Hz. unfold ndigits, digits_of_nonneg. apply digits_fuel_len_bounds.
  split; [lia | apply log2_fuel; lia].
Qed.

Lemma div_eucl_1 (x : Z) : Z.div_eucl x 1 = (x, 0).
Proof.
  destruct (Z.div_eucl x 1) as [q r] eqn:E.
  pose proof (Z.div_1_r x) as H1. pose proof (Z.mod_1_r x) as H2.
  unfold Z.div, Z.modulo in H1, H2. rewrite E in H1, H2. now subst.
Qed.

Lemma SFdiv_core_int (P : positive) :
  (Pos.size P <= 53)%positive ->
  SFdiv_core_binary prec emax (Zpos P) 0 1 0
  = (Zpos P * 2 ^ (54 - Zpos (Pos.size P)), Zpos (Pos.size P) - 54, loc_Exact).
Proof.
  intros Hs. apply Pos2Z.pos_le_pos in Hs. unfold SFdiv_core_binary.
  assert (Hd : Zdigits2 (Zpos P) = Zpos (Pos.size P)) by (cbn; now rewrite digits2_pos_size).
  rewrite Hd. change (Zdigits2 1) with 1.
  replace (Zpos (Pos.size P) + 0 - (1 + 0)) with (53 + (Zpos (Pos.size P) - 54)) by lia.
  rewrite fexp_normal by lia.
  replace (Z.min (Zpos (Pos.size P) - 54) (0 - 0)) with (Zpos (Pos.size P) - 54) by lia.
  replace (0 - 0 - (Zpos (Pos.size P) - 54)) with (54 - Zpos (Pos.size P)) by lia.
  destruct (54 - Zpos (Pos.size P)) as [|p|p] eqn:E; [lia| |lia].
  rewrite Z.shiftl_mul_pow2 by lia. rewrite div_eucl_1. reflexivity.
Qed.

(** The correctly rounded quotient [P / 1] of an integer below [2^53] is
    the integer itself. *)
Lemma sf_of_ratio_int (P : positive) :
  Zpos P < 2 ^ 53 -> sf_of_ratio false P 1 = binary_normalize prec emax (Zpos P) 0 false.
Proof.
  intros HP. pose proof (size_lt_pow P HP) as Hs. pose proof (Pos2Z.pos_le_pos _ _ Hs) as Hs'.
  cbn [binary_normalize]. destruct (binary_round_small false P Hs) as (m & -> & Hv & Hm).
  unfold sf_of_ratio. rewrite SFdiv_core_int by exact Hs.
  replace (Zpos P * 2 ^ (54 - Zpos (Pos.size P))) with (Zpos (Nat.iter 1 xO m)).
  - replace (Zpos (Pos.size P) - 54) with ((Zpos (Pos.size P) - 53) - Z.of_nat 1) by lia.
    apply binary_round_aux_shift; [exact Hm | lia].
  - rewrite nat_iter_xO, Hv. rewrite <- Z.mul_assoc, <- Z.pow_add_r by lia. f_equal. f_equal. lia.
Qed.

Lemma sf_of_decimal_int (s k : Z) :
  0 < s -> 0 <= k -> s * 10 ^ k < 2 ^ 53 ->
  sf_of_decimal false s k = binary_normalize prec emax (s * 10 ^ k) 0 false.
Proof.
  intros Hs Hk Hb. destruct s as [|p|p]; [lia| |lia]. unfold sf_of_decimal.
  destruct (Z.leb_spec 0 k) as [_|]; [|lia].
  assert (H10 : 0 < 10 ^ k) by (apply Z.pow_pos_nonneg; lia).
  assert (E : Zpos (p * Z.to_pos (10 ^ k)) = Zpos p * 10 ^ k) by (rewrite Pos2Z.inj_mul, Z2Pos.id; lia).
  rewrite sf_of_ratio_int by lia. now rewrite E.
Qed.

Lemma binary_normalize_inj (a b : Z) :
  0 < a < 2 ^ 53 -> 0 < b < 2 ^ 53 ->
  binary_normalize prec emax a 0 false = binary_normalize prec emax b 0 false -> a = b.
Proof.
  intros Ha Hb E. pose proof (binary_normalize_int a ltac:(lia) ltac:(lia)) as Ea.
  rewrite E, binary_normalize_int in Ea by lia. congruence.
Qed.

Lemma sf_eqb_true (a b : spec_float) : sf_eqb a b = true <-> a = b.
Proof. unfold sf_eqb. destruct (spec_float_eq_dec a b); split; congruence. Qed.

Lemma strip_zeros_spec (f : nat) :
  forall s e, 0 < s ->
  let '(s', e') := strip_zeros f s e in 0 < s' /\ e <= e' /\ s = s' * 10 ^ (e' - e).
Proof.
  induction f as [|f IH]; intros s e Hs; cbn [strip_zeros].
  - split; [lia|]. split; [lia|]. rewrite Z.sub_diag. lia.
  - destruct ((s mod 10 =? 0) && (0 <? s)) eqn:E; [|split; [lia|]; split; [lia|]; rewrite Z.sub_diag; lia].
    apply andb_prop in E as [E _]. apply Z.eqb_eq in E.
    assert (Hs' : 0 < s / 10).
    { pose proof (Z.div_mod s 10 ltac:(lia)). pose proof (Z.div_pos s 10 ltac:(lia) ltac:(lia)). lia. }
    specialize (IH (s / 10) (e + 1) Hs'). destruct (strip_zeros f (s / 10) (e + 1)) as [s' e'].
    destruct IH as (H1 & H2 & H3). split; [lia|]. split; [lia|].
    replace (e' - e) with (Z.succ (e' - (e + 1))) by lia. rewrite Z.pow_succ_r by lia.
    pose proof (Z.div_mod s 10 ltac:(lia)). nia.
Qed.

Lemma layout_digits_int (ds : jstr) (n : Z) :
  Z.of_nat (length ds) <= n <= 21 -> layout_digits ds n = ds ++ zeros (n - Z.of_nat (length ds)).
Proof.
  intros H. unfold layout_digits.
  replace ((Z.of_nat (length ds) <=? n) && (n <=? 21)) with true by (symmetry; apply andb_true_intro; split; apply Z.leb_le; lia).
  reflexivity.
Qed.

Lemma ndigits_pos (z : Z) : 1 <= z -> 1 <= ndigits z.
Proof.
  intros Hz. pose proof (ndigits_bounds z Hz) as [_ H].
  destruct (Z.le_gt_cases 1 (ndigits z)) as [|Hl]; [assumption|].
  destruct (Z.eq_dec (ndigits z) 0) as [E|E]; [rewrite E in H; simpl in H; lia|].
  rewrite Z.pow_neg_r in H by lia. lia.
Qed.

Lemma pow10_lt (x y : Z) : 0 <= y -> 10 ^ x < 10 ^ y -> x < y.
Proof.
  intros Hy H. destruct (Z.lt_ge_cases x 0) as [Hx|Hx]; [lia|].
  apply (Z.pow_lt_mono_r_iff 10); lia.
Qed.

Lemma dec_exponent_int (p q : positive) (N : Z) :
  1 <= N -> Zpos p = N * Zpos q -> dec_exponent p q = ndigits N.
Proof.
  intros HN Hp. unfold dec_exponent.
  pose proof (ndigits_bounds (Zpos p) ltac:(lia)) as [Hp1 Hp2].
  pose proof (ndigits_bounds (Zpos q) ltac:(lia)) as [Hq1 Hq2].
  pose proof (ndigits_bounds N HN) as [HN1 HN2].
  pose proof (ndigits_pos (Zpos p) ltac:(lia)). pose proof (ndigits_pos (Zpos q) ltac:(lia)).
  pose proof (ndigits_pos N HN).
  set (a := ndigits (Zpos p)) in *. set (b := ndigits (Zpos q)) in *. set (c := ndigits N) in *.
  assert (Ha : a - 1 < c + b).
  { apply pow10_lt; [lia|]. rewrite Z.pow_add_r by lia. nia. }
  assert (Hb : c + b - 2 < a).
  { apply pow10_lt; [lia|]. replace (c + b - 2) with ((c - 1) + (b - 1)) by lia.
    rewrite Z.pow_add_r by lia. nia. }
  unfold ratio_lt_pow10. rewrite (Z.max_l 0 (- (a - b))) by lia. rewrite (Z.max_r 0 (a - b)) by lia.
  rewrite Z.pow_0_r, Z.mul_1_r, Hp.
  destruct (Z.eq_dec (a - b) c) as [E|E].
  - rewrite E. replace (N * Zpos q <? Zpos q * 10 ^ c) with true by (symmetry; apply Z.ltb_lt; nia). lia.
  - assert (E' : a - b = c - 1) by lia. rewrite E'.
    replace (N * Zpos q <? Zpos q * 10 ^ (c - 1)) with false by (symmetry; apply Z.ltb_ge; nia). lia.
Qed.

Lemma scaled_floor_int (p q : positive) (N n k : Z) :
  Zpos p = N * Zpos q -> k <= n ->
  exists c, scaled_floor p q (k - n) = (N / 10 ^ (n - k), Zpos q * (N mod 10 ^ (n - k)), c).
Proof.
  intros Hp Hk. unfold scaled_floor. eexists.
  rewrite (Z.max_l 0 (k - n)), (Z.max_r 0 (- (k - n))) by lia. rewrite Z.pow_0_r, Z.mul_1_r, Hp.
  replace (- (k - n)) with (n - k) by lia.
  assert (HT : 0 < 10 ^ (n - k)) by (apply Z.pow_pos_nonneg; lia).
  rewrite (Z.mul_comm N), Z.div_mul_cancel_l, Z.mul_mod_distr_l by lia. reflexivity.
Qed.

Lemma pow10_15_lt_pow2_53 : 10 ^ 15 < 2 ^ 53.
Proof. reflexivity. Qed.

(** A candidate [c * 10^t] other than [N] does not convert to [N]. *)
Lemma candidate_rejected (N c t : Z) :
  1 <= N < 2 ^ 53 -> 1 <= c -> 0 <= t -> c * 10 ^ t < 2 ^ 53 -> c * 10 ^ t <> N ->
  sf_eqb (sf_of_decimal false c t) (binary_normalize prec emax N 0 false) = false.
Proof.
  intros HN Hc Ht Hb Hne. destruct (sf_eqb _ _) eqn:E; [|reflexivity].
  apply sf_eqb_true in E. rewrite sf_of_decimal_int in E by lia.
  pose proof (Z.pow_pos_nonneg 10 t ltac:(lia) Ht).
  apply binary_normalize_inj in E; [congruence | nia | lia].
Qed.

Lemma shortest_digits_int (N : Z) (p q : positive) (f : nat) :
  1 <= N < 10 ^ 15 -> Zpos p = N * Zpos q ->
  forall k, 1 <= k <= ndigits N -> (Z.to_nat (ndigits N - k) < f)%nat ->
  exists k', k <= k' <= ndigits N /\ N mod 10 ^ (ndigits N - k') = 0 /\
    shortest_digits f (binary_normalize prec emax N 0 false) p q (ndigits N) k
    = Some (N / 10 ^ (ndigits N - k'), ndigits N - k').
Proof.
  intros HN Hp. pose proof pow10_15_lt_pow2_53.
  pose proof (ndigits_bounds N ltac:(lia)) as [Hn1 Hn2]. set (n := ndigits N) in *.
  induction f as [|f IH]; intros k Hk Hf; [lia|].
  cbn [shortest_digits].
  destruct (scaled_floor_int p q N n k Hp ltac:(lia)) as [c ->].
  set (T := 10 ^ (n - k)) in *.
  assert (HT : 0 < T) by (apply Z.pow_pos_nonneg; lia).
  destruct (Z.eqb_spec (Zpos q * (N mod T)) 0) as [E|E].
  - exists k. split; [lia|]. split; [|reflexivity]. fold T. apply Z.mul_eq_0 in E as [E|E]; lia.
  - assert (Hm : N mod T <> 0) by (intros E'; rewrite E' in E; lia).
    pose proof (Z.div_mod N T ltac:(lia)) as Hd. pose proof (Z.mod_pos_bound N T HT) as Hr.
    assert (Hkn : k < n) by (destruct (Z.eq_dec k n) as [->|]; [unfold T in Hm; rewrite Z.sub_diag, Z.mod_1_r in Hm; lia | lia]).
    assert (HTn : T * 10 ^ k = 10 ^ n) by (unfold T; rewrite <- Z.pow_add_r by lia; f_equal; lia).
    assert (Hfl : 1 <= N / T).
    { apply Z.div_le_lower_bound; [lia|]. replace (n - 1) with ((n - k) + (k - 1)) in Hn1 by lia.
      rewrite Z.pow_add_r in Hn1 by lia. fold T in Hn1. pose proof (Z.pow_pos_nonneg 10 (k - 1) ltac:(lia) ltac:(lia)). nia. }
    assert (Hfl1 : (N / T + 1) * T <= 10 ^ n).
    { rewrite <- HTn. assert (N / T < 10 ^ k) by (apply Z.div_lt_upper_bound; lia). nia. }
    rewrite (candidate_rejected N (N / T) (n - k)) by (fold T; nia).
    rewrite (candidate_rejected N (N / T + 1) (n - k)) by (fold T; nia).
    destruct (IH (k + 1) ltac:(lia) ltac:(lia)) as (k' & Hk' & Hmod & Hres).
    exists k'. split; [lia|]. split; [exact Hmod|]. exact Hres.
Qed.

Lemma size_lt_pow50 (P : positive) : Zpos P < 10 ^ 15 -> Zpos (Pos.size P) <= 50.
Proof.
  intros H. pose proof (Pos.size_le P) as Hl. apply Pos2Z.pos_le_pos in Hl.
  rewrite Pos2Z.inj_pow in Hl. change (Z.pos P~0) with (2 * Z.pos P) in Hl.
  destruct (Z.le_gt_cases (Zpos (Pos.size P)) 50) as [|Hg]; [assumption|].
  assert (2 ^ 51 <= 2 ^ Zpos (Pos.size P)) by (apply Z.pow_le_mono_r; lia).
  assert (10 ^ 15 < 2 ^ 50) by reflexivity. change (Z.pow_pos 2 (Pos.size P)) with (2 ^ Zpos (Pos.size P)) in Hl.
  assert (2 ^ 51 = 2 * 2 ^ 50) by reflexivity. lia.
Qed.

Lemma NumberToString_int_aux (N : Z) : 0 <= N < 10 ^ 15 -> NumberToString (float_of_Z N) = Z_to_dec N.
Proof.
  intros HN. pose proof pow10_15_lt_pow2_53 as H53.
  unfold NumberToString. rewrite Prim2SF_float_of_Z by lia.
  destruct N as [|P|P]; [reflexivity| |lia].
  cbn [binary_normalize].
  pose proof (size_lt_pow50 P ltac:(lia)) as Hs50.
  destruct (binary_round_small false P (size_lt_pow P ltac:(lia))) as (m & Eb & Hv & Hm).
  rewrite Eb. cbn [sf_to_string]. unfold positive_to_string, sf_ratio.
  destruct (Z.leb_spec 0 (Zpos (Pos.size P) - 53)) as [|_]; [lia|].
  set (q := Z.to_pos (2 ^ (- (Zpos (Pos.size P) - 53)))).
  assert (Hpq : Zpos m = Zpos P * Zpos q).
  { unfold q. rewrite Z2Pos.id by (apply Z.pow_pos_nonneg; lia). rewrite Hv. f_equal. f_equal. lia. }
  rewrite (dec_exponent_int m q (Zpos P) ltac:(lia) Hpq).
  rewrite <- Eb.
  pose proof (ndigits_bounds (Zpos P) ltac:(lia)) as [Hn1 Hn2].
  pose proof (ndigits_pos (Zpos P) ltac:(lia)) as Hn0.
  assert (Hn15 : ndigits (Zpos P) - 1 < 15) by (apply pow10_lt; lia).
  change (binary_round prec emax false P 0) with (binary_normalize prec emax (Zpos P) 0 false).
  destruct (shortest_digits_int (Zpos P) m q 17 ltac:(lia) Hpq 1 ltac:(lia) ltac:(lia)) as (k & Hk & Hmod & ->).
  set (t := ndigits (Zpos P) - k) in *.
  pose proof (strip_zeros_spec 17 (Zpos P / 10 ^ t) t) as Hsz.
  assert (HT : 0 < 10 ^ t) by (apply Z.pow_pos_nonneg; lia).
  pose proof (Z.div_mod (Zpos P) (10 ^ t) ltac:(lia)) as Hd. rewrite Hmod, Z.add_0_r in Hd.
  destruct (strip_zeros 17 (Zpos P / 10 ^ t) t) as [s e].
  destruct Hsz as (Hs & Hte & Hse); [nia|].
  assert (HP : Zpos P = s * 10 ^ Z.of_nat (Z.to_nat e)).
  { rewrite Z2Nat.id by lia. rewrite Hd, Hse, Z.mul_comm, <- Z.mul_assoc, <- Z.pow_add_r by lia.
    f_equal. f_equal. lia. }
  unfold Z_to_dec. cbn [Z.ltb Z.compare]. rewrite HP, digits_of_nonneg_pow10 by lia.
  assert (Hlen : ndigits (Zpos P) = Z.of_nat (length (digits_of_nonneg s)) + e).
  { unfold ndigits. rewrite HP, digits_of_nonneg_pow10, length_app, repeat_length by lia. lia. }
  rewrite layout_digits_int by lia. f_equal. unfold zeros. f_equal. lia.
Qed.

(** C32 (functional): Number::toString of every integer from 0 to
    [10^15 - 1] (every [Date.now()] before the year 33658) is its plain
    decimal form, with no exponent and no fraction: the shortest digits
    that convert back are the integer's own. *)
Theorem NumberToString_int (N : Z) : 0 <= N < 10 ^ 15 -> NumberToString (float_of_Z N) = Z_to_dec N.
Proof. apply NumberToString_int_aux. Qed.

Lemma NumberToString_int_witness :
  NumberToString (float_of_Z 1724000000000) = Z_to_dec 1724000000000.
Proof. apply NumberToString_int. split; [lia | reflexivity]. Defined.

(** ** StringToNumber of a decimal with a fraction *)

Lemma parse_non_decimal_none (z c : code_unit) (r : jstr) :
  45 <= c <= 57 -> parse_non_decimal (z :: c :: r) = None.
Proof.
  intros Hc. cbn [parse_non_decimal]. destruct (negb (z =? 48)); [reflexivity|].
  rewrite (proj2 (Z.eqb_neq c 120)), (proj2 (Z.eqb_neq c 88)), (proj2 (Z.eqb_neq c 111)),
    (proj2 (Z.eqb_neq c 79)), (proj2 (Z.eqb_neq c 98)), (proj2 (Z.eqb_neq c 66)) by lia.
  reflexivity.
Qed.

Lemma parse_unsigned_decimal_point (ip fp : jstr) :
  ip <> [] -> forallb is_digit ip = true -> forallb is_digit fp = true ->
  parse_unsigned_decimal (ip ++ 46 :: fp) = Some (dec_value (ip ++ fp), - Z.of_nat (length fp)).
Proof.
  intros Hne Hi Hf. unfold parse_unsigned_decimal.
  rewrite span_app by (auto; intros c r E; inversion E; reflexivity).
  rewrite <- (app_nil_r fp) at 1. rewrite span_app by (auto; intros c r E; discriminate).
  destruct ip; [congruence|]. reflexivity.
Qed.

Lemma digit_range (s : jstr) (c : code_unit) : forallb is_digit s = true -> In c s -> 48 <= c <= 57.
Proof. intros H Hin. pose proof (proj1 (forallb_forall _ _) H c Hin) as Hc. unfold is_digit in Hc. lia. Qed.

(** A decimal numeral with a fraction, [-]? digits [.] digits, converts
    to the Number nearest to its value. *)
Lemma StringToNumber_decimal (neg : bool) (ip fp : jstr) :
  ip <> [] -> forallb is_digit ip = true -> fp <> [] -> forallb is_digit fp = true ->
  StringToNumber ((if neg then [45] else []) ++ ip ++ 46 :: fp) =
  float_of_decimal neg (dec_value (ip ++ fp)) (- Z.of_nat (length fp)).
Proof.
  intros Hi Hid Hf Hfd.
  destruct ip as [|c0 ip]; [congruence|].
  pose proof (digit_range _ c0 Hid (or_introl eq_refl)) as Hc0.
  unfold StringToNumber. rewrite trim_whitespace_id.
  2: { intros x r E. apply not_ws_digit. destruct neg; cbn in E; injection E as Ex _; subst x; lia. }
  2: { intros m y E. apply not_ws_digit.
       destruct (exists_last Hf) as (fp' & y' & ->).
       match type of E with ?L = _ =>
         replace L with (((if neg then [45] else []) ++ c0 :: ip ++ 46 :: fp') ++ [y']) in E
           by (destruct neg; simpl; now rewrite <- !app_assoc) end.
       apply app_inj_tail in E as [_ <-].
       enough (48 <= y' <= 57) by lia. apply (digit_range (fp' ++ [y'])); [exact Hfd|].
       apply in_or_app. right. now left. }
  assert (Hpn : parse_non_decimal ((if neg then [45] else []) ++ (c0 :: ip) ++ 46 :: fp) = None).
  { destruct neg; cbn [app]; [apply parse_non_decimal_none; lia|].
    destruct ip as [|c1 ip]; apply parse_non_decimal_none; [lia|].
    enough (48 <= c1 <= 57) by lia. apply (digit_range (c0 :: c1 :: ip)); [exact Hid | right; now left]. }
  pose proof (parse_unsigned_decimal_point (c0 :: ip) fp ltac:(discriminate) Hid Hfd) as Hu.
  assert (Hinf : jstr_eqb (c0 :: ip ++ 46 :: fp) infinity_literal = false).
  { change infinity_literal with (73 :: tl infinity_literal). apply jstr_eqb_cons_neq. lia. }
  destruct neg; cbn [app]; cbn [app] in Hpn, Hu;
    (match goal with |- context [parse_non_decimal ?t] =>
       replace (parse_non_decimal t) with (@None number) by (symmetry; exact Hpn) end);
    unfold parse_str_decimal.
  - cbn [Z.eqb Pos.eqb]. cbv iota beta. rewrite Hinf, Hu. reflexivity.
  - rewrite (proj2 (Z.eqb_neq c0 43)), (proj2 (Z.eqb_neq c0 45)) by lia. cbv iota beta.
    rewrite Hinf, Hu. reflexivity.
Qed.

(** ** Non-finite Numbers *)

Lemma is_finite_sf (x : number) :
  PrimFloat.is_finite x = match Prim2SF x with S754_zero _ | S754_finite _ _ _ => true | _ => false end.
Proof.
  unfold PrimFloat.is_finite, PrimFloat.is_nan, PrimFloat.is_infinity.
  rewrite !FloatAxioms.eqb_spec, FloatAxioms.abs_spec.
  destruct (Prim2SF x) as [s|s| |s m e]; [destruct s; reflexivity..| reflexivity |].
  unfold SFeqb, SFcompare. destruct s; cbn; rewrite ?Z.compare_refl, ?Pos.compare_refl; reflexivity.
Qed.

(** [Math.round] returns NaN and the infinities unchanged. *)
Lemma math_round_nonfinite (x : number) : PrimFloat.is_finite x = false -> math_round x = x.
Proof.
  rewrite is_finite_sf. intros H. unfold math_round.
  destruct (Prim2SF x) eqn:E; try discriminate; cbn [sf_round]; rewrite <- E; apply FloatAxioms.SF2Prim_Prim2SF.
Qed.
