(* ===== verification/JsValue.v ===== *)
(** * JavaScript values and the operations the handler applies to them

    The handler's data are the values Vercel's body parser and
    [response.json()] produce, and the object literals it builds: undefined,
    null, booleans, Numbers, strings, arrays and plain objects.  An object is
    an ordered list of own properties (insertion order, which
    [JSON.stringify] follows); the values are trees, so no value is shared
    or cyclic.

    Operations, each a function of the value as ECMAScript defines it:
    - ToBoolean ([!token], [!cpf], [nome || "Cliente"], [data.qr_codes &&],
      [if (pix.links)], [if (linkEncontrado)]: lines 20, 28, 37, 72, 77, 79);
    - ToString and ToNumber ([valor * 100], [length > 0]: lines 45, 51, 72),
      through ToPrimitive, which for a plain object gives
      ["[object Object]"] and for an array the [join(",")] of its elements;
    - property reads [v.p] (lines 25, 72, 73, 77, 78, 79, 83, 84), which
      throw a TypeError on undefined and null with V8's message;
    - [v === "QRCODE.PNG"] (line 78) and [Array.prototype.find] (line 78);
    - JavaScript exceptions as values: a [completion] is a normal result or
      a thrown error. *)

From Stdlib Require Import String ZArith List Lia Bool Floats.
From S2P Require Import Prelude JsString JsNumber.
Import ListNotations.
Open Scope Z_scope.

Inductive value : Type :=
| VUndefined
| VNull
| VBool (b : bool)
| VNumber (n : number)
| VString (s : jstr)
| VArray (elems : list value)
| VObject (props : list (jstr * value)).

(** ** Errors and completions *)
Inductive error_kind := TypeError | SyntaxError | RangeError | PlainError.

(** An [Error] object: its constructor and its [message]. *)
Record js_error := mk_error { err_kind : error_kind; err_message : jstr }.

(** The result of evaluating an expression: a value or a thrown error. *)
Inductive completion (A : Type) : Type :=
| Normal (a : A)
| Throw (e : js_error).
Arguments Normal {A} a.
Arguments Throw {A} e.

Definition cbind {A B} (c : completion A) (f : A -> completion B) : completion B :=
  match c with Normal a => f a | Throw e => Throw e end.

Notation "x <-? c ;; k" := (cbind c (fun x => k))
  (at level 61, c at next level, right associativity) : js_scope.
Local Open Scope js_scope.

(** ** ToBoolean *)
Definition to_boolean (v : value) : bool :=
  match v with
  | VUndefined | VNull => false
  | VBool b => b
  | VNumber n => negb (PrimFloat.is_nan n || PrimFloat.is_zero n)
  | VString s => match s with [] => false | _ => true end
  | VArray _ | VObject _ => true
  end.

(** [a || b]: [a] when it is truthy, else [b]. *)
Definition js_or (a b : value) : value := if to_boolean a then a else b.

(** ** ToString and ToNumber *)
Definition object_tag : jstr := js "[object Object]"%string.

(** ToString.  An array's is [join(",")], where undefined and null
    elements print as the empty string. *)
Fixpoint to_string (v : value) : jstr :=
  match v with
  | VUndefined => js "undefined"%string
  | VNull => js "null"%string
  | VBool true => js "true"%string
  | VBool false => js "false"%string
  | VNumber n => NumberToString n
  | VString s => s
  | VArray vs =>
      (fix join (l : list value) : jstr :=
         match l with
         | [] => []
         | x :: r =>
             let sx := match x with VUndefined | VNull => [] | _ => to_string x end in
             match r with [] => sx | _ => sx ++ [44] ++ join r end
         end) vs
  | VObject _ => object_tag
  end.

(** ToNumber.  For an array or a plain object, ToPrimitive with hint
    number calls [valueOf], which returns the object itself, and then
    [toString]. *)
Definition to_number (v : value) : number :=
  match v with
  | VUndefined => nan
  | VNull => 0%float
  | VBool b => if b then 1%float else 0%float
  | VNumber n => n
  | VString s => StringToNumber s
  | VArray _ | VObject _ => StringToNumber (to_string v)
  end.

(** [v > 0] (line 72): IsLessThan(0, v); with a Number on one side both
    sides go through ToNumber, and NaN compares false. *)
Definition greater_than_zero (v : value) : bool := PrimFloat.ltb 0%float (to_number v).

(** ** Property reads *)

(** The key of an array element: the canonical decimal form of an integer
    in [0, 2^32 - 2]. *)
Definition array_index (key : jstr) : option nat :=
  match parse_dec key with
  | Some i =>
      if (0 <=? i) && (i <? 4294967295) && jstr_eqb (Z_to_dec i) key
      then Some (Z.to_nat i) else None
  | None => None
  end.

Fixpoint assoc (key : jstr) (props : list (jstr * value)) : option value :=
  match props with
  | [] => None
  | (k, v) :: r => if jstr_eqb k key then Some v else assoc key r
  end.

Definition quote_key (key : jstr) : jstr := [39] ++ key ++ [39].

(** V8's message for reading a property of undefined or null. *)
Definition cannot_read_msg (what key : jstr) : jstr :=
  js "Cannot read properties of "%string ++ what ++ js " (reading "%string
  ++ quote_key key ++ js ")"%string.

Definition length_key : jstr := js "length"%string.

(** [v[key]] ([v.key]).  Booleans and Numbers have no own properties, and
    none of the keys the handler reads is a prototype method. *)
Definition get_prop (v : value) (key : jstr) : completion value :=
  match v with
  | VUndefined => Throw (mk_error TypeError (cannot_read_msg (js "undefined"%string) key))
  | VNull => Throw (mk_error TypeError (cannot_read_msg (js "null"%string) key))
  | VBool _ | VNumber _ => Normal VUndefined
  | VString s =>
      if jstr_eqb key length_key then Normal (VNumber (float_of_Z (Z.of_nat (length s))))
      else match array_index key with
           | Some i => Normal (match nth_error s i with
                               | Some c => VString [c]
                               | None => VUndefined
                               end)
           | None => Normal VUndefined
           end
  | VArray vs =>
      if jstr_eqb key length_key then Normal (VNumber (float_of_Z (Z.of_nat (length vs))))
      else match array_index key with
           | Some i => Normal (match nth_error vs i with Some x => x | None => VUndefined end)
           | None => Normal VUndefined
           end
  | VObject ps => Normal (match assoc key ps with Some x => x | None => VUndefined end)
  end.

(** ** Strict equality with a string and [Array.prototype.find] *)

(** [v === s] for a string literal [s]. *)
Definition strict_eq_string (v : value) (s : jstr) : bool :=
  match v with VString t => jstr_eqb t s | _ => false end.

(** [arr.find(pred)] on the elements of an array: the first element for
    which the callback returns a truthy value, or undefined; an exception
    of the callback stops the search and propagates. *)
Fixpoint array_find (pred : value -> completion value) (vs : list value)
    : completion value :=
  match vs with
  | [] => Normal VUndefined
  | x :: r =>
      b <-? pred x ;;
      if to_boolean b then Normal x else array_find pred r
  end.

(** * Properties *)

(** The callback returned a falsy value for [y]. *)
Definition rejected_by (pred : value -> completion value) (y : value) : Prop :=
  exists b, pred y = Normal b /\ to_boolean b = false.

Lemma array_find_cases (pred : value -> completion value) (vs : list value) (x : value) :
  array_find pred vs = Normal x ->
  (exists pre post b, vs = pre ++ x :: post /\ Forall (rejected_by pred) pre /\
                      pred x = Normal b /\ to_boolean b = true)
  \/ (x = VUndefined /\ Forall (rejected_by pred) vs).
Proof.
  induction vs as [|y vs IH]; simpl; intros H.
  - inv H. right. split; constructor.
  - destruct (pred y) as [b|e] eqn:Hy; [|discriminate]. simpl in H.
    destruct (to_boolean b) eqn:Hb.
    + inv H. left. exists [], vs, b. repeat split; auto.
    + destruct (IH H) as [(pre & post & b' & -> & Hpre & Hx & Hb')|[Hx Hall]].
      * left. exists (y :: pre), post, b'. repeat split; auto.
        constructor; [exists b; auto | exact Hpre].
      * right. split; [exact Hx|]. constructor; [exists b; auto | exact Hall].
Qed.

(** Reading a property throws only on undefined and null. *)
Lemma get_prop_throw (v : value) (key : jstr) (e : js_error) :
  get_prop v key = Throw e -> v = VUndefined \/ v = VNull.
Proof.
  destruct v; simpl; intros H; auto; try discriminate.
  - destruct (jstr_eqb key length_key); [discriminate|].
    destruct (array_index key); discriminate.
  - destruct (jstr_eqb key length_key); [discriminate|].
    destruct (array_index key); discriminate.
Qed.

Lemma strict_eq_string_true (v : value) (s : jstr) :
  strict_eq_string v s = true -> v = VString s.
Proof. destruct v; simpl; try discriminate. intros H. now apply jstr_eqb_eq in H as ->. Qed.
