(* ===== verification/Json.v ===== *)
(** * [JSON.stringify]

    The handler serialises three things with [JSON.stringify]: the order
    it sends to PagBank (line 66), the provider's answer it logs (line 88),
    and, inside [res.json], every body it answers with.  This file models
    SerializeJSONProperty on the values of [JsValue]:
    - [undefined] has no serialisation: an object member holding it is
      left out, an array element holding it prints [null];
    - a Number prints with Number::toString when finite and as [null]
      otherwise (NaN, the amount of a request without [valor]);
    - a string is quoted by QuoteJSONString, including ES2019's escape of
      lone surrogates;
    - object members come in own-property order: array-index keys in
      ascending order first, then the other keys in insertion order. *)

From Stdlib Require Import String ZArith List Lia Bool Floats Sorting Permutation.
From S2P Require Import Prelude JsString JsNumber JsValue.
Import ListNotations.
Open Scope Z_scope.

(** ** QuoteJSONString *)
Definition hex_digit (d : Z) : code_unit := if d <? 10 then 48 + d else 87 + d.

(** [\u] followed by four lowercase hexadecimal digits. *)
Definition unicode_escape (c : code_unit) : jstr :=
  [92; 117; hex_digit (c / 4096 mod 16); hex_digit (c / 256 mod 16);
   hex_digit (c / 16 mod 16); hex_digit (c mod 16)].

Definition is_lead_surrogate (c : code_unit) : bool := (55296 <=? c) && (c <=? 56319).
Definition is_trail_surrogate (c : code_unit) : bool := (56320 <=? c) && (c <=? 57343).

(** The escape of one code unit that is not part of a surrogate pair. *)
Definition escape_unit (c : code_unit) : jstr :=
  if c =? 8 then [92; 98]
  else if c =? 9 then [92; 116]
  else if c =? 10 then [92; 110]
  else if c =? 12 then [92; 102]
  else if c =? 13 then [92; 114]
  else if c =? 34 then [92; 34]
  else if c =? 92 then [92; 92]
  else if (c <? 32) || is_lead_surrogate c || is_trail_surrogate c then unicode_escape c
  else [c].

(** The body of QuoteJSONString: a lead surrogate followed by a trail
    surrogate is one code point and is copied; a surrogate on its own is
    escaped. *)
Fixpoint quote_units (s : jstr) : jstr :=
  match s with
  | [] => []
  | c :: r =>
      match r with
      | d :: r' =>
          if is_lead_surrogate c && is_trail_surrogate d then c :: d :: quote_units r'
          else escape_unit c ++ quote_units r
      | [] => escape_unit c
      end
  end.

Definition quote_json_string (s : jstr) : jstr := [34] ++ quote_units s ++ [34].

(** ** Own-property order *)
Fixpoint insert_index {A} (k : jstr * A) (i : nat)
    (sorted : list (nat * (jstr * A))) : list (nat * (jstr * A)) :=
  match sorted with
  | [] => [(i, k)]
  | (j, p) :: r => if Nat.ltb i j then (i, k) :: sorted else (j, p) :: insert_index k i r
  end.

(** [[OwnPropertyKeys]] of an ordinary object: array-index keys ascending,
    then string keys in the order they were created. *)
Definition own_property_order {A} (ps : list (jstr * A)) : list (jstr * A) :=
  let idx := fold_left (fun acc '(k, v) =>
               match array_index k with
               | Some i => insert_index (k, v) i acc
               | None => acc
               end) ps [] in
  map snd idx ++ filter (fun '(k, _) => match array_index k with Some _ => false | None => true end) ps.

(** ** SerializeJSONProperty *)
Definition join_comma (parts : list jstr) : jstr :=
  match parts with
  | [] => []
  | p :: r => p ++ flat_map (fun q => [44] ++ q) r
  end.

Definition json_number (n : number) : jstr :=
  if PrimFloat.is_finite n then NumberToString n else js "null"%string.

(** [None] is the [undefined] result. *)
Fixpoint serialize (v : value) : option jstr :=
  match v with
  | VUndefined => None
  | VNull => Some (js "null"%string)
  | VBool true => Some (js "true"%string)
  | VBool false => Some (js "false"%string)
  | VNumber n => Some (json_number n)
  | VString s => Some (quote_json_string s)
  | VArray vs =>
      Some ([91] ++ join_comma
              ((fix elems (l : list value) : list jstr :=
                  match l with
                  | [] => []
                  | x :: r => match serialize x with
                              | Some t => t
                              | None => js "null"%string
                              end :: elems r
                  end) vs) ++ [93])
  | VObject ps =>
      (* each member is serialised, then the members are listed in
         own-property order (serialising has no effect, so the order of the
         two steps does not matter) *)
      let sers :=
        (fix members (l : list (jstr * value)) : list (jstr * option jstr) :=
           match l with
           | [] => []
           | (k, x) :: r => (k, serialize x) :: members r
           end) ps in
      Some ([123] ++ join_comma
              (flat_map (fun '(k, o) =>
                           match o with
                           | Some t => [quote_json_string k ++ [58] ++ t]
                           | None => []
                           end) (own_property_order sers)) ++ [125])
  end.

(** [JSON.stringify(v)] with no replacer and no indentation; [None] is
    [undefined]. *)
Definition json_stringify (v : value) : option jstr := serialize v.

(** ** Specification predicates *)

(** A well-formed UTF-16 string: every lead surrogate is followed by a
    trail surrogate, and every trail surrogate follows a lead one. *)
Fixpoint wf_utf16 (s : jstr) : bool :=
  match s with
  | [] => true
  | c :: r =>
      if is_lead_surrogate c then
        match r with
        | d :: r' => is_trail_surrogate d && wf_utf16 r'
        | [] => false
        end
      else negb (is_trail_surrogate c) && wf_utf16 r
  end.

(** No code unit below U+0020, which JSON forbids unescaped in strings. *)
Definition no_control (s : jstr) : bool := forallb (fun c => 32 <=? c) s.

Definition is_ascii_printable (c : code_unit) : bool := (32 <=? c) && (c <=? 127).

(** An own property whose key is an array index. *)
Definition is_index_key {A} (kv : jstr * A) : bool :=
  match array_index (fst kv) with Some _ => true | None => false end.

Definition index_of {A} (kv : jstr * A) : nat :=
  match array_index (fst kv) with Some i => i | None => O end.

Definition index_entry_ok {A} (e : nat * (jstr * A)) : Prop := array_index (fst (snd e)) = Some (fst e).

(** * Properties *)

Lemma wf_utf16_app_aux (n : nat) :
  forall a b, (length a <= n)%nat -> wf_utf16 a = true -> wf_utf16 b = true -> wf_utf16 (a ++ b) = true.
Proof.
  induction n as [|n IH]; intros a b Hl Ha Hb.
  - destruct a; [exact Hb | simpl in Hl; lia].
  - destruct a as [|c r]; [exact Hb|]. simpl in *.
    destruct (is_lead_surrogate c).
    + destruct r as [|d r']; [discriminate|]. simpl in *.
      apply andb_prop in Ha as [Hd Hr]. rewrite Hd. apply IH; auto; lia.
    + apply andb_prop in Ha as [Hc Hr]. rewrite Hc. apply IH; auto; lia.
Qed.

Lemma wf_utf16_app (a b : jstr) : wf_utf16 a = true -> wf_utf16 b = true -> wf_utf16 (a ++ b) = true.
Proof. apply (wf_utf16_app_aux (length a)); lia. Qed.

Lemma hex_digit_ascii (d : Z) : 0 <= d < 16 -> 48 <= hex_digit d <= 102.
Proof. intros H. unfold hex_digit. destruct (Z.ltb_spec d 10); lia. Qed.

Lemma ascii_wf (s : jstr) : forallb is_ascii_printable s = true -> wf_utf16 s = true.
Proof.
  induction s as [|c s IH]; simpl; [reflexivity|]. intros H. apply andb_prop in H as [Hc Hs].
  apply andb_prop in Hc as [H1 H2]. apply Z.leb_le in H1. apply Z.leb_le in H2.
  unfold is_lead_surrogate, is_trail_surrogate.
  replace (55296 <=? c) with false by lia. replace (56320 <=? c) with false by lia. simpl. auto.
Qed.

Lemma unicode_escape_ascii (c : code_unit) :
  forallb is_ascii_printable (unicode_escape c) = true.
Proof.
  unfold unicode_escape. simpl.
  repeat match goal with |- context [hex_digit ?d] =>
    let H := fresh in assert (H := hex_digit_ascii d ltac:(apply Z.mod_pos_bound; lia));
    generalize dependent (hex_digit d) end.
  intros. repeat (apply andb_true_intro; split); first [reflexivity | apply Z.leb_le; lia].
Qed.

Lemma ascii_no_control (s : jstr) : forallb is_ascii_printable s = true -> no_control s = true.
Proof.
  unfold no_control. rewrite !forallb_forall. intros H c Hc.
  specialize (H c Hc). apply andb_prop in H as [H _]. exact H.
Qed.

Lemma no_control_app (a b : jstr) : no_control a = true -> no_control b = true -> no_control (a ++ b) = true.
Proof. unfold no_control. intros Ha Hb. rewrite forallb_app. now apply andb_true_intro. Qed.

Lemma escape_unit_ok (c : code_unit) : wf_utf16 (escape_unit c) = true /\ no_control (escape_unit c) = true.
Proof.
  unfold escape_unit.
  destruct (c =? 8); [split; reflexivity|]. destruct (c =? 9); [split; reflexivity|].
  destruct (c =? 10); [split; reflexivity|]. destruct (c =? 12); [split; reflexivity|].
  destruct (c =? 13); [split; reflexivity|]. destruct (c =? 34); [split; reflexivity|].
  destruct (c =? 92); [split; reflexivity|].
  destruct ((c <? 32) || is_lead_surrogate c || is_trail_surrogate c) eqn:E.
  - pose proof (unicode_escape_ascii c) as H. split; [now apply ascii_wf | now apply ascii_no_control].
  - apply orb_false_elim in E as [E Ht]. apply orb_false_elim in E as [Hc Hl].
    apply Z.ltb_ge in Hc. simpl. rewrite Hl, Ht. simpl. unfold no_control. simpl.
    replace (32 <=? c) with true by lia. split; reflexivity.
Qed.

Lemma quote_units_ok_aux (n : nat) :
  forall s, (length s <= n)%nat -> wf_utf16 (quote_units s) = true /\ no_control (quote_units s) = true.
Proof.
  induction n as [|n IH]; intros s Hl.
  - destruct s; [split; reflexivity | simpl in Hl; lia].
  - destruct s as [|c r]; [split; reflexivity|]. simpl in Hl. cbn [quote_units].
    destruct r as [|d r'].
    + apply escape_unit_ok.
    + destruct (is_lead_surrogate c && is_trail_surrogate d) eqn:E.
      * apply andb_prop in E as [Hc Hd]. destruct (IH r') as [Hw Hn]; [simpl in Hl; lia|].
        split; simpl; [now rewrite Hc, Hd | ].
        unfold no_control in *. simpl. rewrite Hn.
        unfold is_lead_surrogate, is_trail_surrogate in *.
        apply andb_prop in Hc as [Hc _]. apply andb_prop in Hd as [Hd _].
        apply Z.leb_le in Hc. apply Z.leb_le in Hd.
        replace (32 <=? c) with true by lia. replace (32 <=? d) with true by lia. reflexivity.
      * destruct (escape_unit_ok c) as [Hw1 Hn1]. destruct (IH (d :: r')) as [Hw2 Hn2]; [simpl in *; lia|].
        split; [now apply wf_utf16_app | now apply no_control_app].
Qed.


(** C34 (invariant): QuoteJSONString always produces well-formed UTF-16
    (ES2019's well-formed [JSON.stringify]: a lone surrogate is escaped as
    [\uXXXX]) with no unescaped control character, whatever the code
    units of the string, so the tax id, name and expiry of the order are
    valid JSON strings. *)
Theorem quote_json_string_ok (s : jstr) :
  wf_utf16 (quote_json_string s) = true /\ no_control (quote_json_string s) = true.
Proof.
  destruct (quote_units_ok_aux (length s) s (le_n _)) as [Hw Hn].
  unfold quote_json_string. split.
  - apply (wf_utf16_app [34]); [reflexivity|]. apply wf_utf16_app; [exact Hw | reflexivity].
  - apply (no_control_app [34]); [reflexivity|]. apply no_control_app; [exact Hn | reflexivity].
Qed.

Lemma insert_index_perm {A} (k : jstr * A) (i : nat) (l : list (nat * (jstr * A))) :
  Permutation (map snd (insert_index k i l)) (k :: map snd l).
Proof.
  induction l as [|[j p] l IH]; simpl; [reflexivity|].
  destruct (Nat.ltb i j); simpl; [reflexivity|].
  rewrite IH. apply perm_swap.
Qed.

Lemma fold_index_perm {A} (ps : list (jstr * A)) (acc : list (nat * (jstr * A))) :
  Permutation
    (map snd (fold_left (fun acc '(k, v) =>
               match array_index k with
               | Some i => insert_index (k, v) i acc
               | None => acc
               end) ps acc))
    (map snd acc ++ filter is_index_key ps).
Proof.
  revert acc. induction ps as [|[k v] ps IH]; intros acc; simpl.
  - now rewrite app_nil_r.
  - rewrite IH. unfold is_index_key at 2. simpl. destruct (array_index k) as [i|].
    + rewrite insert_index_perm. simpl. apply Permutation_middle.
    + reflexivity.
Qed.

Lemma filter_partition_perm {A} (p : A -> bool) (l : list A) :
  Permutation (filter p l ++ filter (fun x => negb (p x)) l) l.
Proof.
  induction l as [|x l IH]; simpl; [reflexivity|].
  destruct (p x); simpl; [now rewrite IH|].
  rewrite <- Permutation_middle. now rewrite IH.
Qed.

Lemma own_property_order_perm {A} (ps : list (jstr * A)) :
  Permutation (own_property_order ps) ps.
Proof.
  unfold own_property_order. rewrite fold_index_perm. simpl.
  rewrite <- (filter_partition_perm is_index_key ps) at 3.
  apply Permutation_app_head. apply Permutation_refl' .
  apply filter_ext. intros [k v]. unfold is_index_key. simpl. now destruct (array_index k).
Qed.

Lemma insert_index_forall {A} (P : nat * (jstr * A) -> Prop) k i l :
  P (i, k) -> Forall P l -> Forall P (insert_index k i l).
Proof.
  intros Hk Hl. induction Hl as [|[j p] l Hp Hl IH]; simpl; [repeat constructor; auto|].
  destruct (Nat.ltb i j); constructor; auto.
Qed.

Lemma insert_index_sorted {A} (k : jstr * A) (i : nat) (l : list (nat * (jstr * A))) :
  StronglySorted (fun a b => (fst a <= fst b)%nat) l ->
  StronglySorted (fun a b => (fst a <= fst b)%nat) (insert_index k i l).
Proof.
  induction l as [|[j p] l IH]; simpl; intros H.
  - repeat constructor.
  - inv H. destruct (Nat.ltb_spec i j).
    + constructor; [constructor; auto|]. constructor; [simpl; lia|].
      eapply Forall_impl; [|eassumption]. simpl. intros [j' p'] Hj. simpl in *. lia.
    + constructor; [now apply IH|]. apply insert_index_forall; [simpl; lia | assumption].
Qed.

Lemma fold_index_sorted {A} (ps : list (jstr * A)) (acc : list (nat * (jstr * A))) :
  StronglySorted (fun a b => (fst a <= fst b)%nat) acc -> Forall index_entry_ok acc ->
  let r := fold_left (fun acc '(k, v) =>
               match array_index k with
               | Some i => insert_index (k, v) i acc
               | None => acc
               end) ps acc in
  StronglySorted (fun a b => (fst a <= fst b)%nat) r /\ Forall index_entry_ok r.
Proof.
  revert acc. induction ps as [|[k v] ps IH]; intros acc Hs Hf; simpl; [auto|].
  destruct (array_index k) as [i|] eqn:Ei; apply IH; auto.
  - now apply insert_index_sorted.
  - apply insert_index_forall; [exact Ei | exact Hf].
Qed.

Lemma sorted_map_snd {A} (l : list (nat * (jstr * A))) :
  StronglySorted (fun a b => (fst a <= fst b)%nat) l -> Forall index_entry_ok l ->
  StronglySorted (fun a b => (index_of a <= index_of b)%nat) (map snd l) /\
  Forall (fun kv => is_index_key kv = true) (map snd l).
Proof.
  induction l as [|[i kv] l IH]; simpl; intros Hs Hf; [split; constructor|].
  inv Hs. inv Hf. destruct (IH H1 H4) as [Hs' Hf']. unfold index_entry_ok in H3. simpl in H3.
  split; constructor; auto.
  - apply Forall_map. rewrite Forall_forall in *. intros [j kv'] Hin.
    specialize (H2 _ Hin). specialize (H4 _ Hin).
    unfold index_entry_ok, index_of in *. simpl in *. rewrite H3, H4. exact H2.
  - unfold is_index_key. now rewrite H3.
Qed.

Lemma own_property_order_shape {A} (ps : list (jstr * A)) :
  exists idx, own_property_order ps = idx ++ filter (fun kv => negb (is_index_key kv)) ps /\
    Forall (fun kv => is_index_key kv = true) idx /\
    StronglySorted (fun a b => (index_of a <= index_of b)%nat) idx.
Proof.
  destruct (fold_index_sorted ps [] (SSorted_nil _) (Forall_nil _)) as [Hs Hf].
  destruct (sorted_map_snd _ Hs Hf) as [Hs' Hf'].
  eexists. split; [|split; eassumption].
  unfold own_property_order. f_equal.
  apply filter_ext. intros [k v]. unfold is_index_key. simpl. now destruct (array_index k).
Qed.

(** C33 (functional): [JSON.stringify] lists the members of an object in
    own-property order: every member exactly once (a permutation of the
    members), the array-index keys first in ascending order, then the
    other keys in insertion order. *)
Theorem own_property_order_spec {A} (ps : list (jstr * A)) :
  Permutation (own_property_order ps) ps /\
  exists idx, own_property_order ps = idx ++ filter (fun kv => negb (is_index_key kv)) ps /\
    Forall (fun kv => is_index_key kv = true) idx /\
    StronglySorted (fun a b => (index_of a <= index_of b)%nat) idx.
Proof. split; [apply own_property_order_perm | apply own_property_order_shape]. Qed.
