(* ===== verification/JsonParse.v ===== *)
(** * [JSON.parse], the body of [response.json()] (line 69)

    [await response.json()] reads the provider's body as text and parses
    it with [JSON.parse].  This file models ECMAScript's JSON grammar on
    code units:
    - white space is TAB, LF, CR and SPACE only;
    - literals [null], [true], [false];
    - strings with the escapes of the quote, the backslash, the slash,
      [b], [f], [n], [r], [t] and [uXXXX], any code
      unit from U+0020 copied as is, a raw control character refused;
    - numbers [-? (0 | [1-9][0-9]* ) (.[0-9]+)? ([eE][+-]?[0-9]+)?], whose
      value is the Number nearest to the decimal (as StringToNumber);
    - arrays, and objects whose members are added by CreateDataProperty:
      a repeated key keeps its first position and takes the last value.
    A syntax error is a [SyntaxError] whose message is V8's (Node 18):
    "Unexpected end of JSON input" at the end of the text, and otherwise
    "Unexpected token X in JSON at position N", "Unexpected number ..." or
    "Unexpected string ..." after the kind of the offending token.

    The parser is recursive descent with fuel; the position of an error is
    the remaining input, so a message gives its offset as the length
    consumed.  The theorems: the fuel of [json_parse] (twice the length of
    the text plus one) always suffices; every parsed value is JSON-shaped;
    and the errors of an empty or non-JSON body.  [JsonRoundTrip] proves
    that it inverts [JSON.stringify]. *)

From Stdlib Require Import String ZArith List Lia Bool Floats.
From S2P Require Import Prelude JsString JsNumber JsValue Json.
Import ListNotations.
Open Scope Z_scope.
Local Open Scope js_scope.

(** ** Results of the parser *)

(** A value and the rest of the input, an error at a suffix of the input,
    or the fuel exhausted. *)
Inductive presult (A : Type) : Type :=
| POk (a : A) (rest : jstr)
| PErr (at_ : jstr)
| PFuel.
Arguments POk {A} a rest.
Arguments PErr {A} at_.
Arguments PFuel {A}.

(** ** White space and literals *)
Definition is_json_ws (c : code_unit) : bool := (c =? 9) || (c =? 10) || (c =? 13) || (c =? 32).

Definition skip_ws (s : jstr) : jstr := drop_while is_json_ws s.

(** The rest after the word [w], or the error at the first code unit that
    differs. *)
Fixpoint expect_word (w s : jstr) : presult unit :=
  match w, s with
  | [], _ => POk tt s
  | c :: w', d :: s' => if c =? d then expect_word w' s' else PErr s
  | _ :: _, [] => PErr []
  end.

(** ** Strings *)
Definition escape_char (c : code_unit) : option code_unit :=
  if c =? 34 then Some 34 else if c =? 92 then Some 92 else if c =? 47 then Some 47
  else if c =? 98 then Some 8 else if c =? 102 then Some 12 else if c =? 110 then Some 10
  else if c =? 114 then Some 13 else if c =? 116 then Some 9 else None.

Definition hex4 (a b c d : code_unit) : option code_unit :=
  match hex_val a, hex_val b, hex_val c, hex_val d with
  | Some x, Some y, Some z, Some w => Some (((x * 16 + y) * 16 + z) * 16 + w)
  | _, _, _, _ => None
  end.

Definition is_hex (c : code_unit) : bool := match hex_val c with Some _ => true | None => false end.

(** Where a [\u] escape fails: at its first non-hexadecimal code unit,
    or at the end of the text. *)
Definition hex_error (s : jstr) : jstr := drop_while is_hex s.

(** The body of a string literal after its opening quote, the code units
    read so far in [acc] (reversed). *)
Fixpoint string_body (acc : jstr) (s : jstr) : presult jstr :=
  match s with
  | [] => PErr []
  | c :: r =>
      if c =? 34 then POk (rev acc) r
      else if c =? 92 then
        match r with
        | [] => PErr []
        | e :: r1 =>
            if e =? 117 then
              match r1 with
              | a :: b :: c' :: d :: r2 =>
                  match hex4 a b c' d with
                  | Some u => string_body (u :: acc) r2
                  | None => PErr (hex_error r1)
                  end
              | _ => PErr (hex_error r1)
              end
            else
              match escape_char e with
              | Some u => string_body (u :: acc) r1
              | None => PErr r
              end
        end
      else if c <? 32 then PErr s
      else string_body (c :: acc) r
  end.

(** ** Numbers *)

(** The digits of an integer part: [0] alone, or a non-zero digit and
    more digits. *)
Definition int_part (s : jstr) : presult jstr :=
  match s with
  | [] => PErr []
  | c :: r =>
      if c =? 48 then POk [48] r
      else if is_digit c then POk (fst (span is_digit s)) (snd (span is_digit s))
      else PErr s
  end.

(** At least one digit. *)
Definition digits1 (s : jstr) : presult jstr :=
  match fst (span is_digit s) with
  | [] => PErr s
  | ds => POk ds (snd (span is_digit s))
  end.

Definition frac_part (s : jstr) : presult jstr :=
  match s with
  | c :: r => if c =? 46 then digits1 r else POk [] s
  | [] => POk [] []
  end.

Definition signed_digits (s : jstr) : presult Z :=
  let '(sign, r) :=
    match s with
    | c :: r' => if c =? 43 then (1, r') else if c =? 45 then (-1, r') else (1, s)
    | [] => (1, [])
    end in
  match digits1 r with
  | POk ds r' => POk (sign * dec_value ds) r'
  | PErr e => PErr e
  | PFuel => PFuel
  end.

Definition exp_part (s : jstr) : presult Z :=
  match s with
  | c :: r => if (c =? 101) || (c =? 69) then signed_digits r else POk 0 s
  | [] => POk 0 []
  end.

(** A number literal: its value is the Number nearest to
    [int.frac * 10^exp], negated after a [-]. *)
Definition number_literal (s : jstr) : presult number :=
  let '(neg, s1) := match s with c :: r => if c =? 45 then (true, r) else (false, s) | [] => (false, s) end in
  match int_part s1 with
  | POk ip s2 =>
      match frac_part s2 with
      | POk fp s3 =>
          match exp_part s3 with
          | POk e s4 =>
              POk (float_of_decimal neg (dec_value (ip ++ fp)) (e - Z.of_nat (length fp))) s4
          | PErr x => PErr x
          | PFuel => PFuel
          end
      | PErr x => PErr x
      | PFuel => PFuel
      end
  | PErr x => PErr x
  | PFuel => PFuel
  end.

(** ** Values, arrays and objects *)

(** CreateDataProperty on a fresh object's members: a new key is added
    at the end, an existing one takes the new value in place. *)
Fixpoint obj_set (k : jstr) (v : value) (ps : list (jstr * value)) : list (jstr * value) :=
  match ps with
  | [] => [(k, v)]
  | (k', v') :: r => if jstr_eqb k' k then (k', v) :: r else (k', v') :: obj_set k v r
  end.

(** The result of a token scanner as a value. *)
Definition pmap {A B} (f : A -> B) (r : presult A) : presult B :=
  match r with POk a rest => POk (f a) rest | PErr e => PErr e | PFuel => PFuel end.

Fixpoint parse_value (fuel : nat) (s : jstr) : presult value :=
  match fuel with
  | O => PFuel
  | S f =>
      match s with
      | [] => PErr []
      | c :: r =>
          if c =? 123 then parse_members f [] (skip_ws r) true
          else if c =? 91 then parse_elements f [] (skip_ws r) true
          else if c =? 34 then pmap VString (string_body [] r)
          else if c =? 116 then pmap (fun _ => VBool true) (expect_word (js "true"%string) s)
          else if c =? 102 then pmap (fun _ => VBool false) (expect_word (js "false"%string) s)
          else if c =? 110 then pmap (fun _ => VNull) (expect_word (js "null"%string) s)
          else if (c =? 45) || is_digit c then pmap VNumber (number_literal s)
          else PErr s
      end
  end
(** The elements of an array after [[] or a comma ([first]: right after
    the bracket, where a closing bracket ends the empty array), in
    reverse order in [acc]. *)
with parse_elements (fuel : nat) (acc : list value) (s : jstr) (first : bool) : presult value :=
  match fuel with
  | O => PFuel
  | S f =>
      match s with
      | c :: r =>
          if (c =? 93) && first then POk (VArray []) r
          else
            match parse_value f s with
            | POk v r1 =>
                match skip_ws r1 with
                | d :: r2 =>
                    if d =? 44 then parse_elements f (v :: acc) (skip_ws r2) false
                    else if d =? 93 then POk (VArray (rev (v :: acc))) r2
                    else PErr (d :: r2)
                | [] => PErr []
                end
            | PErr e => PErr e
            | PFuel => PFuel
            end
      | [] => PErr []
      end
  end
(** The members of an object after [{] or a comma. *)
with parse_members (fuel : nat) (acc : list (jstr * value)) (s : jstr) (first : bool)
    : presult value :=
  match fuel with
  | O => PFuel
  | S f =>
      match s with
      | [] => PErr []
      | c :: r =>
          if (c =? 125) && first then POk (VObject []) r
          else if c =? 34 then
            match string_body [] r with
            | POk k r1 =>
                match skip_ws r1 with
                | d :: r2 =>
                    if d =? 58 then
                      match parse_value f (skip_ws r2) with
                      | POk v r3 =>
                          match skip_ws r3 with
                          | e :: r4 =>
                              if e =? 44 then parse_members f (obj_set k v acc) (skip_ws r4) false
                              else if e =? 125 then POk (VObject (obj_set k v acc)) r4
                              else PErr (e :: r4)
                          | [] => PErr []
                          end
                      | PErr x => PErr x
                      | PFuel => PFuel
                      end
                    else PErr (d :: r2)
                | [] => PErr []
                end
            | PErr x => PErr x
            | PFuel => PFuel
            end
          else PErr s
      end
  end.

(** ** [JSON.parse] *)

Definition msg_position (text at_ : jstr) : jstr :=
  js " in JSON at position "%string ++ Z_to_dec (Z.of_nat (length text - length at_)).

(** V8's SyntaxError for an error at the suffix [at_] of [text]. *)
Definition syntax_error (text at_ : jstr) : js_error :=
  mk_error SyntaxError
    match at_ with
    | [] => js "Unexpected end of JSON input"%string
    | c :: _ =>
        if c =? 34 then js "Unexpected string"%string ++ msg_position text at_
        else if (c =? 45) || is_digit c then js "Unexpected number"%string ++ msg_position text at_
        else js "Unexpected token "%string ++ [c] ++ msg_position text at_
    end.

(** [JSON.parse(text)]: a value surrounded by white space only.  The fuel
    is twice the length of the text plus one: a call on an array's
    elements passes its input on unconsumed, every other call consumes a
    code unit first.  [json_parse_fuel] proves it enough, so the last
    branch is never taken. *)
Definition json_parse (text : jstr) : completion value :=
  match parse_value (S (2 * length text)) (skip_ws text) with
  | POk v r => match skip_ws r with [] => Normal v | r' => Throw (syntax_error text r') end
  | PErr at_ => Throw (syntax_error text at_)
  | PFuel => Throw (syntax_error text [])
  end.

(** ** Specification predicates *)

(** The result is not out of fuel, and a success consumed input. *)
Definition progress {A} (s : jstr) (p : presult A) : Prop :=
  p <> PFuel /\ forall a r, p = POk a r -> (length r < length s)%nat.

(** The same, for a scanner that may consume nothing. *)
Definition progress_le {A} (s : jstr) (p : presult A) : Prop :=
  p <> PFuel /\ forall a r, p = POk a r -> (length r <= length s)%nat.

(** No key appears twice. *)
Fixpoint nodup_keys (ps : list (jstr * value)) : bool :=
  match ps with
  | [] => true
  | (k, _) :: r => negb (existsb (fun kv => jstr_eqb (fst kv) k) r) && nodup_keys r
  end.

(** A value [JSON.parse] can return: no [undefined] anywhere, and no
    object with a repeated key. *)
Fixpoint json_shaped (v : value) : bool :=
  match v with
  | VUndefined => false
  | VArray vs => (fix go (l : list value) : bool :=
                    match l with [] => true | x :: r => json_shaped x && go r end) vs
  | VObject ps => nodup_keys ps &&
      (fix go (l : list (jstr * value)) : bool :=
         match l with [] => true | (_, x) :: r => json_shaped x && go r end) ps
  | _ => true
  end.

(** A code unit that can start a JSON value: the dispatch of
    [parse_value]. *)
Definition value_start (c : code_unit) : bool :=
  (c =? 123) || (c =? 91) || (c =? 34) || (c =? 116) || (c =? 102) || (c =? 110)
  || (c =? 45) || is_digit c.

(** A JSON text written with single quotes in place of double quotes. *)
Definition json_text (s : string) : jstr := map (fun c => if c =? 39 then 34 else c) (js s).

(** * Properties *)

Lemma drop_while_le (p : code_unit -> bool) (s : jstr) : (length (drop_while p s) <= length s)%nat.
Proof. induction s as [|c s IH]; simpl; [lia|]. destruct (p c); simpl; lia. Qed.

Lemma skip_ws_le (s : jstr) : (length (skip_ws s) <= length s)%nat.
Proof. apply drop_while_le. Qed.

Lemma span_len (p : code_unit -> bool) (s : jstr) :
  (length (fst (span p s)) + length (snd (span p s)) = length s)%nat.
Proof.
  induction s as [|c s IH]; simpl; [reflexivity|].
  destruct (p c); simpl; [destruct (span p s) as [a b]; simpl in *; lia | reflexivity].
Qed.

Lemma pmap_progress {A B} (f : A -> B) (s : jstr) (p : presult A) :
  progress s p -> progress s (pmap f p).
Proof.
  intros [H1 H2]. destruct p as [a r| e |]; simpl; split; try discriminate; try congruence.
  intros b r' E. inversion E; subst. eapply H2. reflexivity.
Qed.

Lemma expect_word_progress (c : code_unit) (w s : jstr) : progress s (expect_word (c :: w) s).
Proof.
  revert c s. induction w as [|c' w IH]; intros c s; destruct s as [|d s]; cbn [expect_word];
    try (split; [discriminate | intros ? ? E; discriminate]).
  - destruct (c =? d); (split; [discriminate|]); intros a r E; inversion E; subst; simpl; lia.
  - destruct (c =? d); [|split; [discriminate | intros ? ? E; discriminate]].
    destruct (IH c' s) as [H1 H2]. split; [exact H1|]. intros a r E. apply H2 in E. simpl. lia.
Qed.

Lemma string_body_progress (s : jstr) : forall acc, progress s (string_body acc s).
Proof.
  induction s as [s IH] using (induction_ltof1 _ (@length Z)); unfold ltof in IH.
  intros acc. destruct s as [|c s]; [split; [discriminate | intros ? ? E; discriminate]|].
  cbn [string_body].
  assert (Hstep : forall acc' s', (length s' < S (length s))%nat ->
            progress (c :: s) (string_body acc' s')).
  { intros acc' s' Hl. assert (Hl' : (length s' < length (c :: s))%nat) by (simpl; jlia).
    destruct (IH s' Hl' acc') as [H1 H2].
    split; [exact H1|]. intros a r E. apply H2 in E. simpl. jlia. }
  destruct (c =? 34); [split; [discriminate | intros a r E; inversion E; subst; simpl; lia]|].
  destruct (c =? 92).
  - destruct s as [|e s1]; [split; [discriminate | intros ? ? E; discriminate]|].
    destruct (e =? 117).
    + destruct s1 as [|a [|b [|c' [|d s2]]]]; try (split; [discriminate | intros ? ? E; discriminate]).
      destruct (hex4 a b c' d); [apply Hstep; simpl; jlia | split; [discriminate | intros ? ? E; discriminate]].
    + destruct (escape_char e); [apply Hstep; simpl; jlia | split; [discriminate | intros ? ? E; discriminate]].
  - match goal with |- context [c <? ?k] => destruct (c <? k) end; [split; [discriminate | intros ? ? E; discriminate]|]. apply Hstep. jlia.
Qed.

Ltac no_fuel := first [discriminate | intros ? ? E; discriminate].
Ltac prog_ok := intros ? ? E; inversion E; subst; simpl in *; jlia.

Lemma digits1_progress (s : jstr) : digits1 s <> PFuel /\
  forall ds r, digits1 s = POk ds r -> ds <> [] /\ (length r < length s)%nat.
Proof.
  unfold digits1. pose proof (span_len is_digit s) as Hl.
  destruct (fst (span is_digit s)) as [|d ds] eqn:E; [split; no_fuel|].
  split; [discriminate|]. intros ds' r H. inversion H; subst. simpl in Hl.
  split; [discriminate | jlia].
Qed.

Lemma int_part_progress (s : jstr) : progress s (int_part s).
Proof.
  unfold int_part. destruct s as [|c r]; [split; no_fuel|].
  destruct (c =? 48); [split; [discriminate | prog_ok]|].
  destruct (is_digit c) eqn:Hd; [|split; no_fuel].
  split; [discriminate|]. intros a r' E. inversion E; subst.
  pose proof (span_len is_digit (c :: r)) as Hl. cbn [span] in *. rewrite Hd in *.
  destruct (span is_digit r) as [x y]. simpl in *. jlia.
Qed.

Lemma frac_part_progress (s : jstr) : progress_le s (frac_part s).
Proof.
  unfold frac_part. destruct s as [|c r]; [split; [discriminate | prog_ok]|].
  destruct (c =? 46); [|split; [discriminate | prog_ok]].
  destruct (digits1_progress r) as [H1 H2]. split; [exact H1|].
  intros a r' E. apply H2 in E as [_ E]. simpl. jlia.
Qed.

Lemma signed_digits_progress (s : jstr) : progress_le s (signed_digits s).
Proof.
  unfold signed_digits.
  assert (Hs : forall r, (length r <= length s)%nat -> progress_le s
     (match digits1 r with POk ds r' => POk (1 * dec_value ds) r' | PErr e => PErr e | PFuel => PFuel end)
     /\ progress_le s
     (match digits1 r with POk ds r' => POk (-1 * dec_value ds) r' | PErr e => PErr e | PFuel => PFuel end)).
  { intros r Hr. destruct (digits1_progress r) as [H1 H2].
    destruct (digits1 r) as [ds r'|e|]; [|split; split; no_fuel | congruence].
    destruct (H2 ds r' eq_refl) as [_ Hl]. split; split; try discriminate; prog_ok. }
  destruct s as [|c r]; [apply Hs; simpl; lia|].
  destruct (c =? 43); [apply Hs; simpl; jlia|]. destruct (c =? 45); apply Hs; simpl; jlia.
Qed.

Lemma exp_part_progress (s : jstr) : progress_le s (exp_part s).
Proof.
  unfold exp_part. destruct s as [|c r]; [split; [discriminate | prog_ok]|].
  destruct ((c =? 101) || (c =? 69)); [|split; [discriminate | prog_ok]].
  destruct (signed_digits_progress r) as [H1 H2]. split; [exact H1|].
  intros a r' E. apply H2 in E. simpl. jlia.
Qed.

Lemma number_literal_progress (s : jstr) : progress s (number_literal s).
Proof.
  unfold number_literal.
  assert (Hs : forall neg s1, (length s1 <= length s)%nat -> progress s
    (match int_part s1 with
     | POk ip s2 => match frac_part s2 with
         | POk fp s3 => match exp_part s3 with
             | POk e s4 => POk (float_of_decimal neg (dec_value (ip ++ fp)) (e - Z.of_nat (length fp))) s4
             | PErr x => PErr x | PFuel => PFuel end
         | PErr x => PErr x | PFuel => PFuel end
     | PErr x => PErr x | PFuel => PFuel end)).
  { intros neg s1 Hl. destruct (int_part_progress s1) as [I1 I2].
    destruct (int_part s1) as [ip s2|e|]; [|split; no_fuel | congruence].
    specialize (I2 _ _ eq_refl). destruct (frac_part_progress s2) as [F1 F2].
    destruct (frac_part s2) as [fp s3|e|]; [|split; no_fuel | congruence].
    specialize (F2 _ _ eq_refl). destruct (exp_part_progress s3) as [X1 X2].
    destruct (exp_part s3) as [e s4|e|]; [|split; no_fuel | congruence].
    specialize (X2 _ _ eq_refl). split; [discriminate | prog_ok]. }
  destruct s as [|c r]; [apply Hs; lia|]. destruct (c =? 45); apply Hs; simpl; jlia.
Qed.

Lemma progress_mono {A} (s s' : jstr) (p : presult A) :
  (length s' <= length s)%nat -> progress s' p -> progress s p.
Proof. intros Hl [H1 H2]. split; [exact H1|]. intros a r E. apply H2 in E. lia. Qed.

Lemma err_progress {A} (s e : jstr) : progress s (@PErr A e).
Proof. split; no_fuel. Qed.

Lemma ok_progress {A} (s r : jstr) (a : A) : (length r < length s)%nat -> progress s (POk a r).
Proof. intros H. split; [discriminate|]. intros a' r' E. inversion E; subst. exact H. Qed.

#[local] Hint Resolve err_progress : core.

Lemma skip_ws_cons (s : jstr) (c : code_unit) (r : jstr) : skip_ws s = c :: r -> (length r < length s)%nat.
Proof. intros E. pose proof (skip_ws_le s) as H. rewrite E in H. simpl in H. jlia. Qed.

Lemma parse_progress (f : nat) :
  (forall s, (2 * length s < f)%nat -> progress s (parse_value f s)) /\
  (forall acc s b, (2 * length s + 1 < f)%nat -> progress s (parse_elements f acc s b)) /\
  (forall acc s b, (2 * length s + 1 < f)%nat -> progress s (parse_members f acc s b)).
Proof.
  induction f as [|f [IHv [IHe IHm]]]; [split; [|split]; intros; lia|].
  split; [|split].
  - intros s Hf. destruct s as [|c r]; [apply err_progress|]. cbn [parse_value].
    pose proof (skip_ws_le r) as Hsk. simpl in Hf.
    destruct (c =? 123); [apply (progress_mono _ (skip_ws r)); [simpl; lia | apply IHm; lia]|].
    destruct (c =? 91); [apply (progress_mono _ (skip_ws r)); [simpl; lia | apply IHe; lia]|].
    destruct (c =? 34); [apply pmap_progress, (progress_mono _ r); [simpl; lia | apply string_body_progress]|].
    destruct (c =? 116); [apply pmap_progress; exact (expect_word_progress _ _ _)|].
    destruct (c =? 102); [apply pmap_progress; exact (expect_word_progress _ _ _)|].
    destruct (c =? 110); [apply pmap_progress; exact (expect_word_progress _ _ _)|].
    destruct ((c =? 45) || is_digit c); [apply pmap_progress, number_literal_progress | apply err_progress].
  - intros acc s b Hf. destruct s as [|c r]; [apply err_progress|]. cbn [parse_elements].
    destruct ((c =? 93) && b); [apply ok_progress; simpl; lia|].
    destruct (IHv (c :: r) ltac:(simpl in *; lia)) as [V1 V2].
    destruct (parse_value f (c :: r)) as [v r1|e|]; [|apply err_progress|congruence].
    specialize (V2 _ _ eq_refl).
    destruct (skip_ws r1) as [|d r2] eqn:Es; [apply err_progress|].
    apply skip_ws_cons in Es. pose proof (skip_ws_le r2).
    destruct (d =? 44); [apply (progress_mono _ (skip_ws r2)); [lia | apply IHe; simpl in *; lia]|].
    destruct (d =? 93); [apply ok_progress; lia | apply err_progress].
  - intros acc s b Hf. destruct s as [|c r]; [apply err_progress|]. cbn [parse_members].
    destruct ((c =? 125) && b); [apply ok_progress; simpl; lia|].
    destruct (c =? 34); [|apply err_progress].
    destruct (string_body_progress r []) as [S1 S2].
    destruct (string_body [] r) as [k r1|e|]; [|apply err_progress|congruence].
    specialize (S2 _ _ eq_refl).
    destruct (skip_ws r1) as [|d r2] eqn:Es; [apply err_progress|]. apply skip_ws_cons in Es.
    destruct (d =? 58); [|apply err_progress].
    pose proof (skip_ws_le r2).
    destruct (IHv (skip_ws r2) ltac:(simpl in *; lia)) as [V1 V2].
    destruct (parse_value f (skip_ws r2)) as [v r3|e|]; [|apply err_progress|congruence].
    specialize (V2 _ _ eq_refl).
    destruct (skip_ws r3) as [|e r4] eqn:Es3; [apply err_progress|]. apply skip_ws_cons in Es3.
    pose proof (skip_ws_le r4).
    destruct (e =? 44); [apply (progress_mono _ (skip_ws r4)); [simpl in *; lia | apply IHm; simpl in *; lia]|].
    destruct (e =? 125); [apply ok_progress; simpl in *; lia | apply err_progress].
Qed.

(** The parse never runs out of fuel: with the fuel
    [json_parse] gives it, twice the length of the text plus one, every
    text is parsed to a value or refused with a SyntaxError, so
    [JSON.parse] terminates on every body PagBank can send. *)
Theorem json_parse_fuel (text : jstr) : parse_value (S (2 * length text)) (skip_ws text) <> PFuel.
Proof.
  destruct (parse_progress (S (2 * length text))) as [H _].
  apply H. pose proof (skip_ws_le text). lia.
Qed.

Lemma json_shaped_array (vs : list value) : json_shaped (VArray vs) = forallb json_shaped vs.
Proof. induction vs as [|x vs IH]; simpl; [reflexivity|]. simpl in IH. now rewrite IH. Qed.

Lemma json_shaped_object (ps : list (jstr * value)) :
  json_shaped (VObject ps) = nodup_keys ps && forallb (fun kv => json_shaped (snd kv)) ps.
Proof.
  cbn [json_shaped]. f_equal. induction ps as [|[k x] ps IH]; simpl; [reflexivity|]. now rewrite IH.
Qed.

Lemma existsb_obj_set (k k' : jstr) (v : value) (ps : list (jstr * value)) :
  existsb (fun kv => jstr_eqb (fst kv) k') (obj_set k v ps)
  = jstr_eqb k k' || existsb (fun kv => jstr_eqb (fst kv) k') ps.
Proof.
  induction ps as [|[k0 v0] ps IH]; simpl; [now rewrite orb_false_r|].
  destruct (jstr_eqb k0 k) eqn:E; simpl.
  - apply jstr_eqb_eq in E; subst k0. destruct (jstr_eqb k k'); reflexivity.
  - rewrite IH. destruct (jstr_eqb k0 k'), (jstr_eqb k k'); reflexivity.
Qed.

Lemma obj_set_shaped (k : jstr) (v : value) (ps : list (jstr * value)) :
  json_shaped v = true -> json_shaped (VObject ps) = true -> json_shaped (VObject (obj_set k v ps)) = true.
Proof.
  rewrite !json_shaped_object. intros Hv. induction ps as [|[k0 v0] ps IH]; simpl; intros H.
  - now rewrite Hv.
  - apply andb_prop in H as [H1 H2]. apply andb_prop in H1 as [Hn Hnd]. apply andb_prop in H2 as [H0 Hps].
    destruct (jstr_eqb k0 k) eqn:E; simpl.
    + repeat (apply andb_true_intro; split); assumption.
    + rewrite existsb_obj_set.
      assert (Hk : jstr_eqb k k0 = false).
      { destruct (jstr_eqb k k0) eqn:E'; [|reflexivity].
        apply jstr_eqb_eq in E'; subst. now rewrite jstr_eqb_refl in E. }
      rewrite Hk. cbn [orb]. rewrite Hn. simpl.
      specialize (IH (andb_true_intro (conj Hnd Hps))). apply andb_prop in IH as [I1 I2].
      now rewrite I1, H0, I2.
Qed.

Lemma parse_shaped (f : nat) :
  (forall s v r, parse_value f s = POk v r -> json_shaped v = true) /\
  (forall acc s b v r, forallb json_shaped acc = true -> parse_elements f acc s b = POk v r ->
     json_shaped v = true) /\
  (forall acc s b v r, json_shaped (VObject acc) = true -> parse_members f acc s b = POk v r ->
     json_shaped v = true).
Proof.
  induction f as [|f [IHv [IHe IHm]]]; [split; [|split]; intros; discriminate|].
  split; [|split].
  - intros s v r H. destruct s as [|c s]; [discriminate|]. cbn [parse_value] in H.
    destruct (c =? 123); [eapply IHm; [|exact H]; reflexivity|].
    destruct (c =? 91); [eapply IHe; [|exact H]; reflexivity|].
    destruct (c =? 34); [destruct (string_body [] s); inversion H; reflexivity|].
    destruct (c =? 116); [destruct (expect_word _ _); inversion H; reflexivity|].
    destruct (c =? 102); [destruct (expect_word _ _); inversion H; reflexivity|].
    destruct (c =? 110); [destruct (expect_word _ _); inversion H; reflexivity|].
    destruct ((c =? 45) || is_digit c); [destruct (number_literal _); inversion H; reflexivity | discriminate].
  - intros acc s b v r Hacc H. destruct s as [|c s]; [discriminate|]. cbn [parse_elements] in H.
    destruct ((c =? 93) && b); [inversion H; reflexivity|].
    destruct (parse_value f (c :: s)) as [x r1|e|] eqn:Ex; try discriminate.
    pose proof (IHv _ _ _ Ex) as Hx.
    destruct (skip_ws r1) as [|d r2]; [discriminate|].
    destruct (d =? 44); [eapply IHe; [|exact H]; simpl; now rewrite Hx, Hacc|].
    destruct (d =? 93); [|discriminate]. inversion H; subst.
    rewrite json_shaped_array, forallb_app, forallb_rev, Hacc. simpl. now rewrite Hx.
  - intros acc s b v r Hacc H. destruct s as [|c s]; [discriminate|]. cbn [parse_members] in H.
    destruct ((c =? 125) && b); [inversion H; reflexivity|].
    destruct (c =? 34); [|discriminate].
    destruct (string_body [] s) as [k r1|e|]; try discriminate.
    destruct (skip_ws r1) as [|d r2]; [discriminate|]. destruct (d =? 58); [|discriminate].
    destruct (parse_value f (skip_ws r2)) as [x r3|e|] eqn:Ex; try discriminate.
    pose proof (IHv _ _ _ Ex) as Hx. pose proof (obj_set_shaped k x acc Hx Hacc) as Hset.
    destruct (skip_ws r3) as [|e r4]; [discriminate|].
    destruct (e =? 44); [eapply IHm; [exact Hset | exact H]|].
    destruct (e =? 125); [inversion H; subst; exact Hset | discriminate].
Qed.

(** C19 (type): every value [JSON.parse] returns is JSON-shaped: no
    [undefined] anywhere, and no object with a repeated key. *)
Theorem json_parse_shaped (text : jstr) (v : value) :
  json_parse text = Normal v -> json_shaped v = true.
Proof.
  unfold json_parse. destruct (parse_value _ _) as [x r|e|] eqn:E; try discriminate.
  destruct (skip_ws r); [|discriminate]. intros H. inversion H; subst.
  eapply (proj1 (parse_shaped _)). exact E.
Qed.

Lemma json_parse_shaped_witness :
  json_parse (json_text "{'a':[1,true],'a':null}") = Normal (VObject [(js "a"%string, VNull)]) /\
  json_shaped (VObject [(js "a"%string, VNull)]) = true.
Proof.
  split; [vm_compute; reflexivity|].
  apply (json_parse_shaped (json_text "{'a':[1,true],'a':null}")). vm_compute. reflexivity.
Defined.

(** The SyntaxError of a text whose first code unit after white space
    cannot start a value. *)
Lemma json_parse_unexpected (text : jstr) (c : code_unit) (r : jstr) :
  skip_ws text = c :: r -> value_start c = false ->
  json_parse text = Throw (mk_error SyntaxError
                             (js "Unexpected token "%string ++ [c] ++ msg_position text (c :: r))).
Proof.
  intros E H. unfold json_parse. rewrite E.
  unfold value_start in H.
  apply orb_false_elim in H as [H Hd]. apply orb_false_elim in H as [H H45].
  apply orb_false_elim in H as [H H110]. apply orb_false_elim in H as [H H102].
  apply orb_false_elim in H as [H H116]. apply orb_false_elim in H as [H H34].
  apply orb_false_elim in H as [H123 H91].
  cbn [parse_value]. rewrite H123, H91, H34, H116, H102, H110, H45, Hd. cbn [orb].
  unfold syntax_error. rewrite H34, H45, Hd. reflexivity.
Qed.

(** C20 (error): a body that is empty or white space only is refused
    with "Unexpected end of JSON input"; a body whose first code unit
    after white space cannot start a value (the [<] of an HTML error
    page) is refused with "Unexpected token c in JSON at position n",
    [n] the number of leading white-space code units. *)
Theorem json_parse_not_json (text : jstr) :
  match skip_ws text with
  | [] => json_parse text = Throw (mk_error SyntaxError (js "Unexpected end of JSON input"%string))
  | c :: r =>
      value_start c = false ->
      json_parse text = Throw (mk_error SyntaxError
                                 (js "Unexpected token "%string ++ [c] ++ msg_position text (c :: r)))
  end.
Proof.
  destruct (skip_ws text) as [|c r] eqn:E; [unfold json_parse; now rewrite E|].
  now apply json_parse_unexpected.
Qed.

Lemma json_parse_not_json_witness :
  json_parse (js " <html>"%string)
  = Throw (mk_error SyntaxError (js "Unexpected token < in JSON at position 1"%string)).
Proof.
  exact (json_parse_not_json (js " <html>"%string) eq_refl).
Defined.
