(* ===== verification/JsonRoundTrip.v ===== *)
(** * [JSON.parse] inverts [JSON.stringify]

    The handler's answers are sent with [res.json(obj)], that is as
    [JSON.stringify(obj)], and read back by its client with [JSON.parse].
    This file proves the round trip: for a value with no [undefined],
    whose numbers are integers from 0 below 10^15, whose strings and keys
    are well-formed code units and whose objects have distinct keys none
    of which is an array index ([json_clean]), [JSON.parse] of the text
    [JSON.stringify] gives is the value itself.

    The proof goes through three facts of the parser: its fuel is
    monotone ([parse_mono]: a result that is not out of fuel stays the
    same with more), QuoteJSONString's escapes are read back code unit by
    code unit ([string_body_quote]), and an integer's decimal form reads
    back as that integer's Number ([number_literal_int]). *)

From Stdlib Require Import String ZArith List Lia Bool Floats.
From S2P Require Import Prelude JsString JsNumber JsValue Json JsonParse.
Import ListNotations.
Open Scope Z_scope.
Local Open Scope js_scope.

(** ** Values that survive the round trip *)

(** The integer a finite non-negative Number would be, were it one. *)
Definition int_candidate (n : number) : Z :=
  match Prim2SF n with
  | S754_finite false m e => if 0 <=? e then Zpos m * 2 ^ e else Z.shiftr (Zpos m) (- e)
  | _ => 0
  end.

(** A Number that is an integer from 0 below [10^15] (so not [-0]):
    Number::toString prints it as its decimal digits. *)
Definition clean_number (n : number) : bool :=
  (int_candidate n <? 10 ^ 15) && PrimFloat.Leibniz.eqb (float_of_Z (int_candidate n)) n.

(** No [undefined], integral numbers below [10^15], well-formed strings
    and keys, objects with distinct keys none of which is an array index
    (those [JSON.stringify] would list first). *)
Fixpoint json_clean (v : value) : bool :=
  match v with
  | VUndefined => false
  | VNull | VBool _ => true
  | VNumber n => clean_number n
  | VString s => wf_jstr s
  | VArray vs => (fix go (l : list value) : bool :=
                    match l with [] => true | x :: r => json_clean x && go r end) vs
  | VObject ps => nodup_keys ps &&
      (fix go (l : list (jstr * value)) : bool :=
         match l with
         | [] => true
         | (k, x) :: r => wf_jstr k && negb (is_index_key (k, x)) && json_clean x && go r
         end) ps
  end.

(** A [\uXXXX] escape of QuoteJSONString names its code unit: checked on
    the 65536 code units. *)
Definition unicode_escape_reads (c : code_unit) : bool :=
  match unicode_escape c with
  | [92; 117; a; b; x; d] => match hex4 a b x d with Some u => u =? c | None => false end
  | _ => false
  end.

(** The end of a value inside a JSON text: nothing, a comma, or a
    closing bracket or brace. *)
Definition ends_token (rest : jstr) : bool :=
  match rest with [] => true | c :: _ => (c =? 44) || (c =? 93) || (c =? 125) end.

(** A member of a clean object. *)
Definition member_clean (kv : jstr * value) : bool :=
  wf_jstr (fst kv) && negb (is_index_key kv) && json_clean (snd kv).

(** The member texts [SerializeJSONObject] lists, from each key and the
    serialisation of its value. *)
Definition member_opt_text (ko : jstr * option jstr) : list jstr :=
  match snd ko with Some t => [quote_json_string (fst ko) ++ [58] ++ t] | None => [] end.

(** [t] is a JSON text that starts a value and is read back as [v],
    whatever follows it in an array, an object or at the end. *)
Definition reads (t : jstr) (v : value) : Prop :=
  (exists c r, t = c :: r /\ is_json_ws c = false /\ c <> 93) /\
  forall rest, ends_token rest = true -> exists f, parse_value f (t ++ rest) = POk v rest.

(** The text of an element, as [SerializeJSONArray] writes it. *)
Definition elem_text (x : value) : jstr :=
  match serialize x with Some t => t | None => js "null"%string end.

(** The text of a member, as [SerializeJSONObject] writes it. *)
Definition member_text (kv : jstr * value) : jstr :=
  quote_json_string (fst kv) ++ [58] ++ elem_text (snd kv).

(** Induction on values with the hypothesis on every element and member. *)
Definition value_ind_nested (P : value -> Prop)
    (hu : P VUndefined) (hn : P VNull) (hb : forall b, P (VBool b))
    (hm : forall n, P (VNumber n)) (hs : forall s, P (VString s))
    (ha : forall vs, Forall P vs -> P (VArray vs))
    (ho : forall ps, Forall (fun kv => P (snd kv)) ps -> P (VObject ps)) : forall v, P v :=
  fix go (v : value) : P v :=
    match v with
    | VUndefined => hu
    | VNull => hn
    | VBool b => hb b
    | VNumber n => hm n
    | VString s => hs s
    | VArray vs => ha vs ((fix elems (l : list value) : Forall P l :=
                             match l with
                             | [] => Forall_nil _
                             | x :: r => Forall_cons _ (go x) (elems r)
                             end) vs)
    | VObject ps => ho ps ((fix members (l : list (jstr * value)) : Forall (fun kv => P (snd kv)) l :=
                              match l with
                              | [] => Forall_nil _
                              | kv :: r => Forall_cons _ (go (snd kv)) (members r)
                              end) ps)
    end.

(** An answer of the handler's shape, with a control character, a
    surrogate pair, a lone surrogate and a nested array. *)
Definition demo_value : value :=
  VObject [(js "id"%string, VString (js "ORDE_1"%string));
           (js "qr_code"%string, VString ([10; 34; 92] ++ [55357; 56832] ++ [56320]));
           (js "valor"%string, VNumber (float_of_Z 1050));
           (js "links"%string, VArray [VNull; VBool true; VArray []; VObject []])].

(** * Properties *)

(** ** Monotonicity of the fuel *)
Lemma parse_mono (f : nat) :
  (forall s g, parse_value f s <> PFuel -> parse_value (f + g) s = parse_value f s) /\
  (forall acc s b g, parse_elements f acc s b <> PFuel ->
     parse_elements (f + g) acc s b = parse_elements f acc s b) /\
  (forall acc s b g, parse_members f acc s b <> PFuel ->
     parse_members (f + g) acc s b = parse_members f acc s b).
Proof.
  induction f as [|f [IHv [IHe IHm]]]; [split; [|split]; intros; simpl in *; congruence|].
  split; [|split]; intros * H; cbn [Nat.add parse_value parse_elements parse_members] in *.
  - destruct s as [|c r]; [reflexivity|].
    destruct (c =? 123); [now apply IHm|]. destruct (c =? 91); [now apply IHe|]. reflexivity.
  - destruct s as [|c r]; [reflexivity|]. destruct (_ && b); [reflexivity|].
    destruct (parse_value f (c :: r)) as [v r1|e|] eqn:E; [| |congruence];
      rewrite (IHv _ g) by congruence; rewrite E; [|reflexivity].
    destruct (skip_ws r1) as [|d r2]; [reflexivity|].
    destruct (d =? 44); [now apply IHe | reflexivity].
  - destruct s as [|c r]; [reflexivity|]. destruct (_ && b); [reflexivity|].
    destruct (c =? 34); [|reflexivity].
    destruct (string_body [] r) as [k r1|e|]; try reflexivity.
    destruct (skip_ws r1) as [|d r2]; [reflexivity|].
    destruct (d =? 58); [|reflexivity].
    destruct (parse_value f (skip_ws r2)) as [v r3|e|] eqn:E; [| |congruence];
      rewrite (IHv _ g) by congruence; rewrite E; [|reflexivity].
    destruct (skip_ws r3) as [|e r4]; [reflexivity|].
    destruct (e =? 44); [now apply IHm | reflexivity].
Qed.

Lemma parse_value_mono (f g : nat) (s : jstr) :
  parse_value f s <> PFuel -> (f <= g)%nat -> parse_value g s = parse_value f s.
Proof.
  intros H Hle. replace g with (f + (g - f))%nat by lia. now apply parse_mono.
Qed.

Lemma parse_elements_mono (f g : nat) acc s b :
  parse_elements f acc s b <> PFuel -> (f <= g)%nat ->
  parse_elements g acc s b = parse_elements f acc s b.
Proof.
  intros H Hle. replace g with (f + (g - f))%nat by lia. now apply parse_mono.
Qed.

Lemma parse_members_mono (f g : nat) acc s b :
  parse_members f acc s b <> PFuel -> (f <= g)%nat ->
  parse_members g acc s b = parse_members f acc s b.
Proof.
  intros H Hle. replace g with (f + (g - f))%nat by lia. now apply parse_mono.
Qed.

(** ** Strings *)

Lemma unicode_escape_reads_all : forall_range unicode_escape_reads (Z.to_nat 65536) 0 = true.
Proof. vm_compute. reflexivity. Qed.

Lemma unicode_escape_read (c : code_unit) :
  0 <= c < 65536 ->
  exists a b x d, unicode_escape c = [92; 117; a; b; x; d] /\ hex4 a b x d = Some c.
Proof.
  intros Hc. pose proof (forall_range_sound _ _ 0 c unicode_escape_reads_all ltac:(rewrite Z2Nat.id; lia)) as H.
  unfold unicode_escape_reads in H. unfold unicode_escape in *.
  destruct (hex4 _ _ _ _) as [u|] eqn:E; [|discriminate].
  apply Z.eqb_eq in H; subst u. eauto 6.
Qed.

(** A code unit from U+0020 that is neither the quote nor the backslash is
    copied. *)
Lemma string_body_plain (acc r : jstr) (c : code_unit) :
  32 <= c -> c <> 34 -> c <> 92 -> string_body acc (c :: r) = string_body (c :: acc) r.
Proof.
  intros H1 H2 H3. cbn [string_body].
  destruct (Z.eqb_spec c 34), (Z.eqb_spec c 92); try congruence.
  match goal with |- context [c <? ?k] => destruct (Z.ltb_spec c k) end; [lia | reflexivity].
Qed.

Lemma escape_unit_read (acc r : jstr) (c : code_unit) :
  0 <= c < 65536 -> string_body acc (escape_unit c ++ r) = string_body (c :: acc) r.
Proof.
  intros Hc. unfold escape_unit.
  destruct (Z.eqb_spec c 8); [subst; reflexivity|].
  destruct (Z.eqb_spec c 9); [subst; reflexivity|].
  destruct (Z.eqb_spec c 10); [subst; reflexivity|].
  destruct (Z.eqb_spec c 12); [subst; reflexivity|].
  destruct (Z.eqb_spec c 13); [subst; reflexivity|].
  destruct (Z.eqb_spec c 34); [subst; reflexivity|].
  destruct (Z.eqb_spec c 92); [subst; reflexivity|].
  destruct (_ || _) eqn:Hesc.
  - destruct (unicode_escape_read c Hc) as (a & b & x & d & -> & Hh).
    cbn -[hex4]. rewrite Hh. reflexivity.
  - apply orb_false_elim in Hesc as [Hesc _]. apply orb_false_elim in Hesc as [Hlt _].
    apply Z.ltb_ge in Hlt. now apply string_body_plain.
Qed.

Lemma surrogate_plain (c : code_unit) :
  is_lead_surrogate c || is_trail_surrogate c = true -> 32 <= c /\ c <> 34 /\ c <> 92.
Proof. unfold is_lead_surrogate, is_trail_surrogate. intros H. lia. Qed.

Lemma string_body_quote (n : nat) :
  forall (s acc r : jstr), (length s <= n)%nat -> wf_jstr s = true ->
  string_body acc (quote_units s ++ 34 :: r) = POk (rev acc ++ s) r.
Proof.
  unfold wf_jstr, is_code_unit.
  induction n as [|n IH]; intros [|c [|d s]] acc r Hn Hw; simpl in Hn; try lia;
    try (simpl; now rewrite app_nil_r).
  - cbn [quote_units]. rewrite escape_unit_read by (simpl in Hw; lia). reflexivity.
  - cbn [quote_units forallb] in *. apply andb_prop in Hw as [Hc Hw].
    destruct (is_lead_surrogate c && is_trail_surrogate d) eqn:Hs.
    + apply andb_prop in Hs as [Hl Ht].
      destruct (surrogate_plain c) as (? & ? & ?); [now rewrite Hl|].
      destruct (surrogate_plain d) as (? & ? & ?); [now rewrite Ht, orb_true_r|].
      cbn [app]. rewrite !string_body_plain by assumption.
      apply andb_prop in Hw as [_ Hw]. rewrite IH by (simpl in *; lia || assumption).
      simpl. now rewrite <- !app_assoc.
    + rewrite <- app_assoc, escape_unit_read by lia.
      rewrite (IH (d :: s)) by (simpl in *; lia || assumption).
      simpl. now rewrite <- app_assoc.
Qed.

Lemma quote_json_string_read (s rest : jstr) :
  wf_jstr s = true -> string_body [] (quote_units s ++ 34 :: rest) = POk s rest.
Proof. intros Hw. now apply (string_body_quote (length s)). Qed.

(** ** Numbers *)

Lemma ends_token_cons (c : code_unit) (r : jstr) :
  ends_token (c :: r) = true -> c = 44 \/ c = 93 \/ c = 125.
Proof. simpl. destruct (Z.eqb_spec c 44), (Z.eqb_spec c 93), (Z.eqb_spec c 125); simpl; auto; discriminate. Qed.

Lemma span_digits (ds rest : jstr) :
  forallb is_digit ds = true -> ends_token rest = true -> span is_digit (ds ++ rest) = (ds, rest).
Proof.
  intros Hd He. apply span_app; [exact Hd|]. intros c r ->.
  destruct (ends_token_cons c r He) as [-> | [-> | ->]]; reflexivity.
Qed.

Lemma ends_token_tail (rest : jstr) :
  ends_token rest = true -> frac_part rest = POk [] rest /\ exp_part rest = POk 0 rest.
Proof.
  destruct rest as [|c r]; [split; reflexivity|]. intros He.
  destruct (ends_token_cons c r He) as [-> | [-> | ->]]; split; reflexivity.
Qed.

Lemma float_of_decimal_int (N : Z) :
  0 <= N < 2 ^ 53 -> float_of_decimal false N 0 = float_of_Z N.
Proof.
  intros HN. destruct (Z.eq_dec N 0) as [->|Hz]; [reflexivity|].
  unfold float_of_decimal, float_of_Z. rewrite sf_of_decimal_int by lia. now rewrite Z.mul_1_r.
Qed.

Lemma is_finite_float_of_Z (N : Z) : 0 <= N < 2 ^ 53 -> PrimFloat.is_finite (float_of_Z N) = true.
Proof.
  intros HN. unfold PrimFloat.is_finite, PrimFloat.is_nan, PrimFloat.is_infinity.
  rewrite !FloatAxioms.eqb_spec, FloatAxioms.abs_spec, Prim2SF_float_of_Z by lia.
  destruct N as [|P|P]; [reflexivity| |lia]. cbn [binary_normalize].
  destruct (binary_round_small false P (size_lt_pow P ltac:(lia))) as (m & -> & _).
  unfold SFeqb, SFcompare. cbn. rewrite Z.compare_refl, Pos.compare_cont_refl. reflexivity.
Qed.

(** The decimal form of an integer below [10^15] reads back as its Number. *)
Lemma number_literal_int (N : Z) (rest : jstr) :
  0 <= N < 10 ^ 15 -> ends_token rest = true ->
  number_literal (Z_to_dec N ++ rest) = POk (float_of_Z N) rest.
Proof.
  intros HN He. pose proof pow10_15_lt_pow2_53 as H53.
  destruct (ends_token_tail rest He) as [Hf Hx].
  unfold Z_to_dec. destruct (Z.ltb_spec N 0); [lia|].
  destruct (digits_of_nonneg_shape N ltac:(lia)) as [_ Hd].
  destruct (Z.eq_dec N 0) as [->|Hz].
  - cbn. rewrite Hf, Hx. reflexivity.
  - destruct (digits_of_nonneg_head N ltac:(lia)) as (c & r & Ec & Hc). rewrite Ec in *. cbn [app]. unfold number_literal.
    simpl in Hd. apply andb_prop in Hd as [Hcd Hr].
    rewrite (proj2 (Z.eqb_neq c 45)) by (unfold is_digit in Hcd; lia).
    cbn [int_part]. rewrite (proj2 (Z.eqb_neq c 48)) by exact Hc. rewrite Hcd.
    change (c :: r ++ rest) with ((c :: r) ++ rest).
    rewrite (span_digits (c :: r) rest) by (first [exact He | cbn [forallb]; now rewrite Hcd, Hr]).
    cbn [fst snd].
    rewrite Hf, Hx, app_nil_r. cbn [length Z.of_nat]. rewrite Z.sub_0_r.
    rewrite <- Ec, dec_value_digits, float_of_decimal_int by lia.
    reflexivity.
Qed.

(** ** The clean values and their texts *)

Lemma clean_number_spec (n : number) :
  clean_number n = true -> 0 <= int_candidate n < 10 ^ 15 /\ n = float_of_Z (int_candidate n).
Proof.
  unfold clean_number. intros H. apply andb_prop in H as [Hlt Heq].
  apply Z.ltb_lt in Hlt. apply FloatAxioms.Leibniz.eqb_spec in Heq.
  split; [|now symmetry]. split; [|exact Hlt].
  unfold int_candidate. destruct (Prim2SF n) as [| | |[|] m e]; try lia.
  destruct (Z.leb_spec 0 e); [pose proof (Z.pow_nonneg 2 e); lia | apply Z.shiftr_nonneg; lia].
Qed.

Lemma json_clean_array (vs : list value) : json_clean (VArray vs) = forallb json_clean vs.
Proof. cbn [json_clean]. induction vs as [|x vs IH]; simpl; [reflexivity|]. now rewrite IH. Qed.

Lemma json_clean_object (ps : list (jstr * value)) :
  json_clean (VObject ps) = nodup_keys ps && forallb member_clean ps.
Proof.
  cbn [json_clean]. f_equal. induction ps as [|[k x] ps IH]; simpl; [reflexivity|]. now rewrite IH.
Qed.

Lemma serialize_array (vs : list value) :
  serialize (VArray vs) = Some ([91] ++ join_comma (map elem_text vs) ++ [93]).
Proof.
  reflexivity.
Qed.

Lemma serialize_object (ps : list (jstr * value)) :
  serialize (VObject ps) =
  Some ([123] ++ join_comma (flat_map member_opt_text
          (own_property_order (map (fun kv => (fst kv, serialize (snd kv))) ps))) ++ [125]).
Proof.
  cbn [serialize]. do 3 f_equal.
  rewrite <- (flat_map_ext member_opt_text) by (intros [k [t|]]; reflexivity).
  do 3 f_equal. induction ps as [|[k x] ps IH]; simpl; [reflexivity|]. now rewrite IH.
Qed.

Lemma own_property_order_no_index {A} (ps : list (jstr * A)) :
  forallb (fun kv => negb (is_index_key kv)) ps = true -> own_property_order ps = ps.
Proof.
  unfold own_property_order, is_index_key. intros H.
  assert (Hf : forall acc, fold_left (fun acc '(k, v) =>
                 match array_index k with
                 | Some i => insert_index (k, v) i acc
                 | None => acc
                 end) ps acc = acc).
  { induction ps as [|[k v] ps IH]; intros acc; [reflexivity|]. simpl in *.
    destruct (array_index k); [discriminate|]. now apply IH. }
  rewrite Hf. simpl. apply filter_all. revert H. apply forallb_impl. intros [k v] _. cbn.
  destruct (array_index k); auto.
Qed.

Lemma members_text (ps : list (jstr * value)) :
  forallb member_clean ps = true ->
  (forall kv, In kv ps -> serialize (snd kv) = Some (elem_text (snd kv))) ->
  flat_map member_opt_text (own_property_order (map (fun kv => (fst kv, serialize (snd kv))) ps))
  = map member_text ps.
Proof.
  intros Hc Hs. rewrite own_property_order_no_index.
  - induction ps as [|[k x] ps IH]; [reflexivity|]. simpl in *.
    unfold member_opt_text at 1. cbn [fst snd]. pose proof (Hs (k, x) (or_introl eq_refl)) as E.
    cbn [snd] in E. rewrite E.
    unfold member_text at 1. cbn [fst snd app]. f_equal.
    apply andb_prop in Hc as [_ Hc]. apply IH; auto.
  - clear Hs. induction ps as [|[k x] ps IH]; [reflexivity|]. cbn in Hc |- *.
    apply andb_prop in Hc as [H1 H2]. rewrite IH by exact H2.
    unfold member_clean in H1. apply andb_prop in H1 as [H1 _]. apply andb_prop in H1 as [_ H1].
    rewrite andb_true_r. exact H1.
Qed.

Lemma reads_skip_ws (t r : jstr) (v : value) : reads t v -> skip_ws (t ++ r) = t ++ r.
Proof. intros [(c & r' & -> & Hc & _) _]. simpl. unfold skip_ws. cbn. now rewrite Hc. Qed.

Lemma parse_value_agree (f g : nat) (s : jstr) :
  parse_value f s <> PFuel -> parse_value g s <> PFuel -> parse_value f s = parse_value g s.
Proof.
  intros Hf Hg. rewrite <- (parse_value_mono f (f + g) s), <- (parse_value_mono g (f + g) s) by (auto; lia).
  reflexivity.
Qed.

(** ** Arrays and objects *)

(** One element read by [parse_elements]: the element's text does not
    start with the closing bracket. *)
Lemma parse_elements_step (f : nat) (acc : list value) (t R r1 : jstr) (first : bool) (v : value) :
  reads t v -> parse_value f (t ++ R) = POk v r1 ->
  parse_elements (S f) acc (t ++ R) first =
  match skip_ws r1 with
  | d :: r2 =>
      if d =? 44 then parse_elements f (v :: acc) (skip_ws r2) false
      else if d =? 93 then POk (VArray (rev (v :: acc))) r2
      else PErr (d :: r2)
  | [] => PErr []
  end.
Proof.
  intros [(c & r & -> & _ & H93) _] H. cbn [app parse_elements].
  rewrite (proj2 (Z.eqb_neq c 93) H93). cbn [andb].
  change (c :: r ++ R) with ((c :: r) ++ R). now rewrite H.
Qed.

Lemma skip_ws_punct (c : code_unit) (r : jstr) :
  c = 44 \/ c = 58 \/ c = 93 \/ c = 125 -> skip_ws (c :: r) = c :: r.
Proof. intros [-> | [-> | [-> | ->]]]; reflexivity. Qed.

Lemma elements_read (vs : list value) :
  Forall (fun y => reads (elem_text y) y) vs ->
  forall x acc first rest, reads (elem_text x) x ->
  exists f, parse_elements f acc
              (elem_text x ++ flat_map (fun q => 44 :: q) (map elem_text vs) ++ 93 :: rest) first
            = POk (VArray (rev acc ++ x :: vs)) rest.
Proof.
  induction 1 as [|y vs Hy Hvs IH]; intros x acc first rest Hx.
  - destruct (proj2 Hx (93 :: rest) eq_refl) as [f Hf]. exists (S f). cbn [map flat_map app].
    rewrite (parse_elements_step f acc _ _ _ first x Hx Hf), skip_ws_punct by auto.
    cbn. now rewrite <- ?app_assoc.
  - destruct (IH y (x :: acc) false rest Hy) as [g Hg].
    set (R := flat_map (fun q => 44 :: q) (map elem_text vs) ++ 93 :: rest) in *.
    destruct (proj2 Hx (44 :: elem_text y ++ R)) as [f Hf]; [reflexivity|].
    exists (S (f + g)).
    replace (elem_text x ++ flat_map (fun q => 44 :: q) (map elem_text (y :: vs)) ++ 93 :: rest)
      with (elem_text x ++ 44 :: elem_text y ++ R) by (unfold R; simpl; now rewrite <- app_assoc).
    rewrite (parse_elements_step (f + g) acc _ _ (44 :: elem_text y ++ R) first x Hx)
      by (rewrite parse_value_mono with (f := f) by (congruence || lia); exact Hf).
    rewrite skip_ws_punct by auto. cbn [Z.eqb Pos.eqb]. rewrite (reads_skip_ws _ _ _ Hy).
    rewrite parse_elements_mono with (f := g) by (congruence || lia). rewrite Hg.
    cbn. now rewrite <- ?app_assoc.
Qed.

(** One member read by [parse_members]: its key, the colon and its value. *)
Lemma parse_members_step (f : nat) (acc : list (jstr * value)) (k t R r3 : jstr) (first : bool)
    (v : value) :
  wf_jstr k = true -> reads t v -> parse_value f (t ++ R) = POk v r3 ->
  parse_members (S f) acc ((quote_json_string k ++ [58] ++ t) ++ R) first =
  match skip_ws r3 with
  | e :: r4 =>
      if e =? 44 then parse_members f (obj_set k v acc) (skip_ws r4) false
      else if e =? 125 then POk (VObject (obj_set k v acc)) r4
      else PErr (e :: r4)
  | [] => PErr []
  end.
Proof.
  intros Hk Ht H. unfold quote_json_string. rewrite <- !app_assoc. cbn [app].
  cbn [parse_members]. change ((34 =? 125) && first) with false. change (34 =? 34) with true.
  cbv iota beta. rewrite quote_json_string_read by exact Hk. cbv iota beta.
  rewrite skip_ws_punct by auto. change (58 =? 58) with true. cbv iota beta.
  pose proof (reads_skip_ws t R v Ht) as E. unfold jstr, code_unit in E, H.
  rewrite E, H. reflexivity.
Qed.

Lemma obj_set_fresh (k : jstr) (v : value) (acc : list (jstr * value)) :
  existsb (fun kv => jstr_eqb (fst kv) k) acc = false -> obj_set k v acc = acc ++ [(k, v)].
Proof.
  induction acc as [|[k' v'] acc IH]; [reflexivity|]. cbn. intros H.
  apply orb_false_elim in H as [H1 H2]. rewrite H1, IH by exact H2. reflexivity.
Qed.

Lemma nodup_keys_app_fresh (acc ps : list (jstr * value)) (k : jstr) (x : value) :
  nodup_keys (acc ++ (k, x) :: ps) = true -> existsb (fun kv => jstr_eqb (fst kv) k) acc = false.
Proof.
  induction acc as [|[k' v'] acc IH]; [reflexivity|]. cbn. intros H.
  apply andb_prop in H as [H1 H2]. rewrite IH by exact H2.
  destruct (jstr_eqb k' k) eqn:E; [|reflexivity]. apply jstr_eqb_eq in E. subst k'.
  rewrite existsb_app in H1. cbn in H1. rewrite jstr_eqb_refl, orb_true_r in H1. discriminate.
Qed.

Lemma members_read (ps : list (jstr * value)) :
  Forall (fun kv => wf_jstr (fst kv) = true /\ reads (elem_text (snd kv)) (snd kv)) ps ->
  forall k x acc first rest, wf_jstr k = true -> reads (elem_text x) x ->
  nodup_keys (acc ++ (k, x) :: ps) = true ->
  exists f, parse_members f acc
              (member_text (k, x) ++ flat_map (fun q => 44 :: q) (map member_text ps) ++ 125 :: rest)
              first
            = POk (VObject (acc ++ (k, x) :: ps)) rest.
Proof.
  induction 1 as [|[k' y] ps [Hk' Hy] Hps IH]; intros k x acc first rest Hk Hx Hnd;
    pose proof (nodup_keys_app_fresh _ _ _ _ Hnd) as Hfresh.
  - destruct (proj2 Hx (125 :: rest) eq_refl) as [f Hf]. exists (S f).
    cbn [map flat_map]. rewrite app_nil_l.
    change (member_text (k, x)) with (quote_json_string k ++ [58] ++ elem_text x).
    rewrite (parse_members_step f acc k _ _ _ first x Hk Hx Hf), skip_ws_punct by auto.
    cbn. now rewrite obj_set_fresh.
  - cbn [fst snd] in Hk', Hy.
    destruct (IH k' y (acc ++ [(k, x)]) false rest Hk' Hy) as [g Hg]; [now rewrite <- app_assoc|].
    set (R := flat_map (fun q => 44 :: q) (map member_text ps) ++ 125 :: rest) in *.
    destruct (proj2 Hx (44 :: member_text (k', y) ++ R)) as [f Hf]; [reflexivity|].
    exists (S (f + g)).
    replace (member_text (k, x) ++ flat_map (fun q => 44 :: q) (map member_text ((k', y) :: ps))
               ++ 125 :: rest)
      with ((quote_json_string k ++ [58] ++ elem_text x) ++ 44 :: member_text (k', y) ++ R)
      by (unfold R, member_text; cbn [map flat_map fst snd]; rewrite <- !app_assoc; cbn [app]; now rewrite <- !app_assoc).
    rewrite (parse_members_step (f + g) acc k _ _ (44 :: member_text (k', y) ++ R) first x Hk Hx)
      by (rewrite parse_value_mono with (f := f) by (congruence || lia); exact Hf).
    rewrite skip_ws_punct by auto. cbn [Z.eqb Pos.eqb].
    assert (Hm : skip_ws (member_text (k', y) ++ R) = member_text (k', y) ++ R) by reflexivity.
    rewrite Hm, obj_set_fresh by exact Hfresh.
    rewrite parse_members_mono with (f := g) by (congruence || lia). rewrite Hg.
    now rewrite <- app_assoc.
Qed.

(** ** Every clean value reads back *)

Lemma parse_value_digit (f : nat) (c : code_unit) (s : jstr) :
  is_digit c = true -> parse_value (S f) (c :: s) = pmap VNumber (number_literal (c :: s)).
Proof.
  intros H. assert (48 <= c <= 57) by (unfold is_digit in H; lia). cbn [parse_value].
  destruct (Z.eqb_spec c 123), (Z.eqb_spec c 91), (Z.eqb_spec c 34), (Z.eqb_spec c 116),
    (Z.eqb_spec c 102), (Z.eqb_spec c 110); try lia. now rewrite H, orb_true_r.
Qed.

Lemma parse_value_bracket (f : nat) (s : jstr) :
  parse_value (S f) (91 :: s) = parse_elements f [] (skip_ws s) true.
Proof. reflexivity. Qed.

Lemma parse_value_brace (f : nat) (s : jstr) :
  parse_value (S f) (123 :: s) = parse_members f [] (skip_ws s) true.
Proof. reflexivity. Qed.

Lemma literal_reads (t : jstr) (v : value) :
  (exists c r, t = c :: r /\ is_json_ws c = false /\ c <> 93) ->
  (forall rest, parse_value 1 (t ++ rest) = POk v rest) -> reads t v.
Proof. intros Hh Hp. split; [exact Hh|]. intros rest _. exists 1%nat. apply Hp. Qed.

(** The first code unit of a closed text starts a value. *)
Ltac head_tac := do 2 eexists; split; [reflexivity | split; [reflexivity | cbv; discriminate]].

Lemma clean_reads (v : value) :
  json_clean v = true -> serialize v = Some (elem_text v) /\ reads (elem_text v) v.
Proof.
  induction v as [| | b | n | s | vs IH | ps IH] using value_ind_nested; intros Hc;
    try discriminate.
  - split; [reflexivity|]. apply literal_reads; [head_tac | reflexivity].
  - destruct b; (split; [reflexivity | apply literal_reads; [head_tac | reflexivity]]).
  - destruct (clean_number_spec n Hc) as [HN Hn]. set (N := int_candidate n) in *.
    clearbody N. subst n. pose proof pow10_15_lt_pow2_53.
    unfold elem_text. cbn [serialize]. split; [reflexivity|].
    unfold json_number. rewrite is_finite_float_of_Z, NumberToString_int_aux by lia.
    pose proof (number_literal_int N) as Hnum.
    destruct (digits_of_nonneg_shape N) as [Hne Hd]; [lia|].
    assert (Ez : Z_to_dec N = digits_of_nonneg N)
      by (unfold Z_to_dec; destruct (Z.ltb_spec N 0); [lia | reflexivity]).
    rewrite Ez in *. destruct (digits_of_nonneg N) as [|c r]; [congruence|]. cbn [forallb] in Hd.
    apply andb_prop in Hd as [Hc' _].
    split; [exists c, r; split; [reflexivity|] | intros rest He; exists 1%nat].
    + unfold is_digit in Hc'. unfold is_json_ws. split; [|lia].
      destruct (Z.eqb_spec c 9), (Z.eqb_spec c 10), (Z.eqb_spec c 13), (Z.eqb_spec c 32); first [reflexivity | exfalso; lia].
    + cbn [app]. rewrite parse_value_digit by exact Hc'.
      change (c :: r ++ rest) with ((c :: r) ++ rest). now rewrite Hnum by (assumption || lia).
  - split; [reflexivity|]. unfold elem_text. cbn [serialize]. split.
    + head_tac.
    + intros rest _. exists 1%nat. unfold quote_json_string. rewrite <- !app_assoc. cbn [app].
      change (parse_value 1 (34 :: quote_units s ++ 34 :: rest))
        with (pmap VString (string_body [] (quote_units s ++ 34 :: rest))).
      now rewrite quote_json_string_read.
  - rewrite json_clean_array in Hc.
    assert (HF : Forall (fun y => reads (elem_text y) y) vs).
    { apply (Forall_impl_in _ _ _ IH). intros y Hy H. apply H.
      exact (proj1 (forallb_forall _ _) Hc y Hy). }
    unfold elem_text at 1 2. rewrite serialize_array. split; [reflexivity|].
    destruct vs as [|x vs]; (split; [head_tac|]); intros rest _; [exists 2%nat; reflexivity|].
    apply Forall_cons_iff in HF as [Hx HF].
    destruct (elements_read vs HF x [] true rest Hx) as [f Hf]. exists (S f).
    match goal with |- parse_value _ ?t = _ =>
      replace t with (91 :: elem_text x ++ flat_map (fun q => 44 :: q) (map elem_text vs) ++ 93 :: rest)
        by (simpl; now rewrite <- !app_assoc) end.
    rewrite parse_value_bracket, (reads_skip_ws _ _ _ Hx). exact Hf.
  - rewrite json_clean_object in Hc. apply andb_prop in Hc as [Hnd Hm].
    assert (HF : Forall (fun kv => wf_jstr (fst kv) = true /\ reads (elem_text (snd kv)) (snd kv)) ps).
    { apply (Forall_impl_in _ _ _ IH). intros [k x] Hin H.
      pose proof (proj1 (forallb_forall _ _) Hm _ Hin) as Hc. unfold member_clean in Hc.
      apply andb_prop in Hc as [Hc Hx]. apply andb_prop in Hc as [Hk _]. split; [exact Hk | apply H, Hx]. }
    assert (Es : serialize (VObject ps) = Some ([123] ++ join_comma (map member_text ps) ++ [125])).
    { rewrite serialize_object, members_text; [reflexivity | exact Hm|].
      intros kv Hin. apply (proj1 (Forall_forall _ _) IH kv Hin).
      pose proof (proj1 (forallb_forall _ _) Hm _ Hin) as Hc. unfold member_clean in Hc.
      now apply andb_prop in Hc as [_ Hc]. }
    unfold elem_text at 1 2. rewrite Es. split; [reflexivity|].
    destruct ps as [|[k x] ps]; (split; [head_tac|]); intros rest _; [exists 2%nat; reflexivity|].
    apply Forall_cons_iff in HF as [[Hk Hx] HF].
    destruct (members_read ps HF k x [] true rest Hk Hx Hnd) as [f Hf]. exists (S f).
    match goal with |- parse_value _ ?t = _ =>
      replace t with (123 :: member_text (k, x) ++ flat_map (fun q => 44 :: q) (map member_text ps)
                        ++ 125 :: rest)
        by (simpl; now rewrite <- !app_assoc) end.
    rewrite parse_value_brace. exact Hf.
Qed.

Lemma parse_whole (t : jstr) (v : value) :
  reads t v -> json_parse t = Normal v.
Proof.
  intros Ht. unfold json_parse.
  pose proof (reads_skip_ws t [] v Ht) as Es. rewrite app_nil_r in Es. rewrite Es.
  destruct (proj2 Ht [] eq_refl) as [f Hf]. rewrite app_nil_r in Hf.
  rewrite (parse_value_agree _ f t); [now rewrite Hf | | congruence].
  apply (proj1 (parse_progress _)). lia.
Qed.

(** C17 (round trip): [JSON.parse] inverts [JSON.stringify] on clean
    values: for a value with no [undefined], integral numbers from 0
    below 10^15, well-formed strings, and objects with distinct keys none
    of which is an array index, [JSON.stringify] gives a text, and
    [JSON.parse] of that text is the value itself. *)
Theorem json_roundtrip (v : value) :
  json_clean v = true -> exists t, json_stringify v = Some t /\ json_parse t = Normal v.
Proof.
  intros Hc. destruct (clean_reads v Hc) as [Hs Ht].
  exists (elem_text v). split; [exact Hs | now apply parse_whole].
Qed.

Lemma json_roundtrip_witness :
  json_clean demo_value = true /\
  exists t, json_stringify demo_value = Some t /\ json_parse t = Normal demo_value.
Proof.
  split; [vm_compute; reflexivity|]. apply json_roundtrip. vm_compute. reflexivity.
Defined.
