(* ===== verification/JsonGrammar.v ===== *)
(** * The JSON grammar, and [JSON.parse] against it

    ECMA-404's grammar of a JSON text, written as inductive relations
    between a text and the value it denotes, independently of the parser
    of [JsonParse]:
    - [ws]: TAB, LF, CR, SPACE;
    - [gchars]/[gstring]: the characters of a string, a code unit from
      U+0020 other than the quote and the backslash, one of the eight
      two-character escapes ([gescape]), or [\u] and four hexadecimal
      digits ([hex_digit]);
    - [gnumber]: [-? int frac? exp?], denoting the Number nearest to its
      mathematical value (ECMA-262's RoundMVResult);
    - [gvalue], [gelements], [gmembers]: values, [element (, element)*]
      and [member (, member)*] with the white space ECMA-404 allows
      around each; an object denotes what CreateDataProperty builds from
      its members in order ([create_object]): a repeated key keeps its
      first place and takes its last value;
    - [gtext]: a JSON text is an element, a value between white space.

    The theorem is that [json_parse] (the model of [response.json()] on
    line 69) returns a value exactly on the texts of the grammar, and
    then the value the grammar gives them. *)

From Stdlib Require Import String ZArith List Lia Bool Floats.
From S2P Require Import Prelude JsString JsNumber JsValue Json JsonParse JsonRoundTrip.
Import ListNotations.
Open Scope Z_scope.

(** ** Lexical grammar *)

Definition ws (w : jstr) : Prop := Forall (fun c => c = 9 \/ c = 10 \/ c = 13 \/ c = 32) w.

Definition digit (c : code_unit) : Prop := 48 <= c <= 57.

Definition digits (ds : jstr) : Prop := Forall digit ds.

Definition hex_digit (c : code_unit) (x : Z) : Prop :=
  (48 <= c <= 57 /\ x = c - 48) \/ (65 <= c <= 70 /\ x = c - 55) \/ (97 <= c <= 102 /\ x = c - 87).

(** The two-character escapes and the code unit each stands for. *)
Inductive gescape : code_unit -> code_unit -> Prop :=
| esc_quote : gescape 34 34
| esc_backslash : gescape 92 92
| esc_slash : gescape 47 47
| esc_b : gescape 98 8
| esc_f : gescape 102 12
| esc_n : gescape 110 10
| esc_r : gescape 114 13
| esc_t : gescape 116 9.

(** The characters between the quotes of a string, and the code units
    they denote. *)
Inductive gchars : jstr -> jstr -> Prop :=
| gc_nil : gchars [] []
| gc_plain (c : code_unit) (t s : jstr) :
    32 <= c -> c <> 34 -> c <> 92 -> gchars t s -> gchars (c :: t) (c :: s)
| gc_escape (e u : code_unit) (t s : jstr) :
    gescape e u -> gchars t s -> gchars (92 :: e :: t) (u :: s)
| gc_unicode (a b c d : code_unit) (x y z w : Z) (t s : jstr) :
    hex_digit a x -> hex_digit b y -> hex_digit c z -> hex_digit d w -> gchars t s ->
    gchars (92 :: 117 :: a :: b :: c :: d :: t) ((((x * 16 + y) * 16 + z) * 16 + w) :: s).

Inductive gstring : jstr -> jstr -> Prop :=
| gs_quoted (t s : jstr) : gchars t s -> gstring (34 :: t ++ [34]) s.

(** [int]: [0], or a non-zero digit and digits. *)
Inductive gint : jstr -> Prop :=
| gi_zero : gint [48]
| gi_digits (d : code_unit) (ds : jstr) : 49 <= d <= 57 -> digits ds -> gint (d :: ds).

(** [frac]: nothing, or a point and at least one digit (the digits). *)
Inductive gfrac : jstr -> jstr -> Prop :=
| gf_none : gfrac [] []
| gf_point (ds : jstr) : ds <> [] -> digits ds -> gfrac (46 :: ds) ds.

Definition exp_letter (c : code_unit) : Prop := c = 101 \/ c = 69.

(** [exp]: nothing, or [e] or [E], a sign and at least one digit (the
    exponent). *)
Inductive gexp : jstr -> Z -> Prop :=
| gx_none : gexp [] 0
| gx_plain (c : code_unit) (ds : jstr) :
    exp_letter c -> ds <> [] -> digits ds -> gexp (c :: ds) (dec_value ds)
| gx_plus (c : code_unit) (ds : jstr) :
    exp_letter c -> ds <> [] -> digits ds -> gexp (c :: 43 :: ds) (dec_value ds)
| gx_minus (c : code_unit) (ds : jstr) :
    exp_letter c -> ds <> [] -> digits ds -> gexp (c :: 45 :: ds) (- dec_value ds).

(** A number and the Number nearest to [int.frac * 10^exp]. *)
Inductive gnumber : jstr -> number -> Prop :=
| gn_number (neg : bool) (ip tf fp te : jstr) (e : Z) :
    gint ip -> gfrac tf fp -> gexp te e ->
    gnumber ((if neg then [45] else []) ++ ip ++ tf ++ te)
            (float_of_decimal neg (dec_value (ip ++ fp)) (e - Z.of_nat (length fp))).

(** ** Values *)

(** CreateDataProperty of the members in order on the properties [acc],
    and the object built from the members on a fresh one. *)
Definition add_members (acc kvs : list (jstr * value)) : list (jstr * value) :=
  fold_left (fun acc kv => obj_set (fst kv) (snd kv) acc) kvs acc.

Definition create_object (kvs : list (jstr * value)) : list (jstr * value) := add_members [] kvs.

Inductive gvalue : jstr -> value -> Prop :=
| gv_null : gvalue (js "null"%string) VNull
| gv_true : gvalue (js "true"%string) (VBool true)
| gv_false : gvalue (js "false"%string) (VBool false)
| gv_string (t s : jstr) : gstring t s -> gvalue t (VString s)
| gv_number (t : jstr) (n : number) : gnumber t n -> gvalue t (VNumber n)
| gv_array_empty (w : jstr) : ws w -> gvalue (91 :: w ++ [93]) (VArray [])
| gv_array (t : jstr) (vs : list value) : gelements t vs -> gvalue (91 :: t ++ [93]) (VArray vs)
| gv_object_empty (w : jstr) : ws w -> gvalue (123 :: w ++ [125]) (VObject [])
| gv_object (t : jstr) (kvs : list (jstr * value)) :
    gmembers t kvs -> gvalue (123 :: t ++ [125]) (VObject (create_object kvs))
with gelements : jstr -> list value -> Prop :=
| ge_one (w1 t w2 : jstr) (v : value) :
    ws w1 -> gvalue t v -> ws w2 -> gelements (w1 ++ t ++ w2) [v]
| ge_cons (w1 t w2 r : jstr) (v : value) (vs : list value) :
    ws w1 -> gvalue t v -> ws w2 -> gelements r vs -> gelements (w1 ++ t ++ w2 ++ 44 :: r) (v :: vs)
with gmembers : jstr -> list (jstr * value) -> Prop :=
| gm_one (w1 kt w2 w3 t w4 : jstr) (k : jstr) (v : value) :
    ws w1 -> gstring kt k -> ws w2 -> ws w3 -> gvalue t v -> ws w4 ->
    gmembers (w1 ++ kt ++ w2 ++ 58 :: w3 ++ t ++ w4) [(k, v)]
| gm_cons (w1 kt w2 w3 t w4 r : jstr) (k : jstr) (v : value) (kvs : list (jstr * value)) :
    ws w1 -> gstring kt k -> ws w2 -> ws w3 -> gvalue t v -> ws w4 -> gmembers r kvs ->
    gmembers (w1 ++ kt ++ w2 ++ 58 :: w3 ++ t ++ w4 ++ 44 :: r) ((k, v) :: kvs).

Scheme gvalue_mut := Induction for gvalue Sort Prop
with gelements_mut := Induction for gelements Sort Prop
with gmembers_mut := Induction for gmembers Sort Prop.
Combined Scheme gjson_mutind from gvalue_mut, gelements_mut, gmembers_mut.

(** What may follow a value in a JSON text: nothing, white space, a
    comma, a closing bracket or brace. *)
Definition follows (r : jstr) : Prop :=
  forall c r', r = c :: r' -> c = 9 \/ c = 10 \/ c = 13 \/ c = 32 \/ c = 44 \/ c = 93 \/ c = 125.

(** A text that does not start with a digit. *)
Definition no_digit (r : jstr) : Prop := forall c r', r = c :: r' -> is_digit c = false.

(** A JSON text: a value between white space. *)
Definition gtext (text : jstr) (v : value) : Prop :=
  exists w1 t w2, text = w1 ++ t ++ w2 /\ ws w1 /\ gvalue t v /\ ws w2.

(** * Properties *)

(** ** The scanners *)

Lemma ws_json_ws (c : code_unit) : is_json_ws c = true <-> c = 9 \/ c = 10 \/ c = 13 \/ c = 32.
Proof. unfold is_json_ws. rewrite !orb_true_iff, !Z.eqb_eq. tauto. Qed.

Lemma skip_ws_split (s : jstr) : exists w, ws w /\ s = w ++ skip_ws s.
Proof.
  induction s as [|c s [w [Hw E]]]; [exists []; split; [constructor | reflexivity]|].
  unfold skip_ws in *. cbn [drop_while]. destruct (is_json_ws c) eqn:Hc.
  - exists (c :: w). split; [constructor; [now apply ws_json_ws | exact Hw] | simpl; now f_equal].
  - exists []. split; [constructor | reflexivity].
Qed.

Lemma ws_app (w1 w2 : jstr) : ws w1 -> ws w2 -> ws (w1 ++ w2).
Proof. intros H1 H2. apply Forall_app. now split. Qed.

Lemma expect_word_ok (w s r : jstr) : expect_word w s = POk tt r -> s = w ++ r.
Proof.
  revert s. induction w as [|c w IH]; intros s H; [now inversion H|].
  destruct s as [|d s]; [discriminate|]. cbn [expect_word] in H.
  destruct (Z.eqb_spec c d); [subst d; simpl; f_equal; now apply IH | discriminate].
Qed.

Lemma span_split (p : code_unit -> bool) (s : jstr) :
  s = fst (span p s) ++ snd (span p s) /\ forallb p (fst (span p s)) = true.
Proof.
  induction s as [|c s [E H]]; [split; reflexivity|]. cbn [span].
  destruct (p c) eqn:Hc; [|split; reflexivity].
  destruct (span p s) as [a b]. simpl in *. split; [now f_equal | now rewrite Hc].
Qed.

Lemma digits_forallb (ds : jstr) : forallb is_digit ds = true -> digits ds.
Proof.
  intros H. apply Forall_forall. intros c Hin. unfold digit.
  pose proof (proj1 (forallb_forall _ _) H c Hin) as Hc. unfold is_digit in Hc. lia.
Qed.

Lemma span_digits_split (s : jstr) :
  s = fst (span is_digit s) ++ snd (span is_digit s) /\ digits (fst (span is_digit s)).
Proof. destruct (span_split is_digit s) as [E H]. split; [exact E | now apply digits_forallb]. Qed.

Lemma digits1_ok (s ds r : jstr) : digits1 s = POk ds r -> s = ds ++ r /\ ds <> [] /\ digits ds.
Proof.
  unfold digits1. destruct (span_digits_split s) as [E H].
  destruct (fst (span is_digit s)) as [|d ds'] eqn:Ef; [discriminate|].
  intros X. inversion X; subst. split; [exact E | split; [discriminate | exact H]].
Qed.

Lemma int_part_ok (s ip r : jstr) : int_part s = POk ip r -> s = ip ++ r /\ gint ip.
Proof.
  unfold int_part. destruct s as [|c s]; [discriminate|].
  destruct (Z.eqb_spec c 48) as [->|Hz]; [intros X; inversion X; subst; split; [reflexivity | constructor]|].
  destruct (is_digit c) eqn:Hd; [|discriminate]. intros X. inversion X; subst ip r.
  destruct (span_digits_split (c :: s)) as [E H]. split; [exact E|].
  cbn [span] in *. rewrite Hd in *. destruct (span is_digit s) as [a b]. cbn [fst] in *.
  inversion H; subst. constructor; [unfold is_digit in Hd; lia | assumption].
Qed.

Lemma frac_part_ok (s fp r : jstr) : frac_part s = POk fp r -> exists t, s = t ++ r /\ gfrac t fp.
Proof.
  unfold frac_part. destruct s as [|c s]; [intros X; inversion X; exists []; split; [reflexivity | constructor]|].
  destruct (Z.eqb_spec c 46) as [->|Hc]; [|intros X; inversion X; exists []; split; [reflexivity | constructor]].
  intros X. apply digits1_ok in X as (-> & Hne & Hd). exists (46 :: fp). split; [reflexivity | now constructor].
Qed.

Lemma exp_part_ok (s r : jstr) (e : Z) : exp_part s = POk e r -> exists t, s = t ++ r /\ gexp t e.
Proof.
  unfold exp_part. destruct s as [|c s]; [intros X; inversion X; exists []; split; [reflexivity | constructor]|].
  destruct ((c =? 101) || (c =? 69)) eqn:Hc;
    [|intros X; inversion X; exists []; split; [reflexivity | constructor]].
  assert (He : exp_letter c) by (unfold exp_letter; apply orb_true_iff in Hc; rewrite !Z.eqb_eq in Hc; tauto).
  unfold signed_digits. intros X.
  destruct s as [|d s]; [simpl in X; discriminate|].
  destruct (Z.eqb_spec d 43) as [->|H43]; [|destruct (Z.eqb_spec d 45) as [->|H45]];
    destruct (digits1 _) as [ds r'|x|] eqn:D; try discriminate; injection X as <- <-;
    apply digits1_ok in D as (E & Hne & Hd).
  - exists (c :: 43 :: ds). rewrite E. split; [reflexivity|].
    match goal with |- gexp _ ?m => replace m with (dec_value ds) by (destruct (dec_value ds); reflexivity) end.
    now constructor.
  - exists (c :: 45 :: ds). rewrite E. split; [reflexivity|].
    match goal with |- gexp _ ?m => replace m with (- dec_value ds) by (destruct (dec_value ds); reflexivity) end.
    now constructor.
  - exists (c :: ds). rewrite E. split; [reflexivity|].
    match goal with |- gexp _ ?m => replace m with (dec_value ds) by (destruct (dec_value ds); reflexivity) end.
    now constructor.
Qed.

Lemma number_literal_ok (s r : jstr) (n : number) :
  number_literal s = POk n r -> exists t, s = t ++ r /\ gnumber t n.
Proof.
  unfold number_literal.
  assert (Hs : forall (neg : bool) (s1 : jstr), s = (if neg then [45] else []) ++ s1 ->
    match int_part s1 with
    | POk ip s2 => match frac_part s2 with
        | POk fp s3 => match exp_part s3 with
            | POk e s4 => POk (float_of_decimal neg (dec_value (ip ++ fp)) (e - Z.of_nat (length fp))) s4
            | PErr x => PErr x | PFuel => PFuel end
        | PErr x => PErr x | PFuel => PFuel end
    | PErr x => PErr x | PFuel => PFuel end = POk n r -> exists t, s = t ++ r /\ gnumber t n).
  { intros neg s1 -> X.
    destruct (int_part s1) as [ip s2| |] eqn:I; try discriminate. apply int_part_ok in I as [-> Hi].
    destruct (frac_part s2) as [fp s3| |] eqn:F; try discriminate. apply frac_part_ok in F as (tf & -> & Hf).
    destruct (exp_part s3) as [e s4| |] eqn:Ex; try discriminate. apply exp_part_ok in Ex as (te & -> & Hx).
    inversion X; subst. exists ((if neg then [45] else []) ++ ip ++ tf ++ te).
    split; [now rewrite <- !app_assoc | now constructor]. }
  destruct s as [|c s']; [apply (Hs false); reflexivity|].
  destruct (Z.eqb_spec c 45) as [->|]; [apply (Hs true) | apply (Hs false)]; reflexivity.
Qed.

Lemma escape_char_ok (e u : code_unit) : escape_char e = Some u -> gescape e u.
Proof.
  unfold escape_char.
  repeat match goal with
         | |- (if ?x =? ?k then _ else _) = _ -> _ =>
             destruct (Z.eqb_spec x k) as [->|]; [intros X; inversion X; constructor|]
         end.
  discriminate.
Qed.

Lemma hex_val_ok (c : code_unit) (x : Z) : hex_val c = Some x -> hex_digit c x.
Proof.
  unfold hex_val, hex_digit.
  destruct ((48 <=? c) && (c <=? 57)) eqn:H1; [intros X; inversion X; subst; lia|].
  destruct ((97 <=? c) && (c <=? 102)) eqn:H2; [intros X; inversion X; subst; lia|].
  destruct ((65 <=? c) && (c <=? 70)) eqn:H3; [intros X; inversion X; subst; lia | discriminate].
Qed.

Lemma hex4_ok (a b c d u : code_unit) :
  hex4 a b c d = Some u ->
  exists x y z w, hex_digit a x /\ hex_digit b y /\ hex_digit c z /\ hex_digit d w /\
                  u = ((x * 16 + y) * 16 + z) * 16 + w.
Proof.
  unfold hex4.
  destruct (hex_val a) eqn:A, (hex_val b) eqn:B, (hex_val c) eqn:C, (hex_val d) eqn:D; try discriminate.
  intros X. inversion X. do 4 eexists. repeat split; try (apply hex_val_ok; eassumption).
Qed.

Lemma string_body_ok (s : jstr) : forall acc k r,
  string_body acc s = POk k r -> exists t u, s = t ++ 34 :: r /\ gchars t u /\ k = rev acc ++ u.
Proof.
  induction s as [s IH] using (induction_ltof1 _ (@length Z)); unfold ltof in IH.
  intros acc k r X. destruct s as [|c s]; [discriminate|]. cbn [string_body] in X.
  destruct (Z.eqb_spec c 34) as [->|H34].
  { inversion X; subst. exists [], []. split; [reflexivity | split; [constructor | now rewrite app_nil_r]]. }
  destruct (Z.eqb_spec c 92) as [->|H92].
  - destruct s as [|e s1]; [discriminate|].
    destruct (Z.eqb_spec e 117) as [->|H117].
    + destruct s1 as [|a [|b [|c' [|d s2]]]]; try discriminate.
      destruct (hex4 a b c' d) as [u|] eqn:Hh; [|discriminate].
      apply hex4_ok in Hh as (x & y & z & w & Ha & Hb & Hc & Hd & ->).
      destruct (IH s2 ltac:(simpl; lia) _ _ _ X) as (t & u' & -> & Ht & ->).
      exists (92 :: 117 :: a :: b :: c' :: d :: t), ((((x * 16 + y) * 16 + z) * 16 + w) :: u'). split; [reflexivity|].
      split; [constructor; eassumption | simpl; now rewrite <- app_assoc].
    + destruct (escape_char e) as [u|] eqn:He; [|discriminate]. apply escape_char_ok in He.
      destruct (IH s1 ltac:(simpl; lia) _ _ _ X) as (t & u' & -> & Ht & ->).
      exists (92 :: e :: t), (u :: u'). split; [reflexivity|].
      split; [constructor; eassumption | simpl; now rewrite <- app_assoc].
  - destruct (Z.ltb_spec c 32); [discriminate|].
    destruct (IH s ltac:(simpl; lia) _ _ _ X) as (t & u' & -> & Ht & ->).
    exists (c :: t), (c :: u'). split; [reflexivity|].
    split; [constructor; auto; lia | simpl; now rewrite <- app_assoc].
Qed.

Lemma string_token_ok (s k r : jstr) :
  string_body [] s = POk k r -> exists t, 34 :: s = t ++ r /\ gstring t k.
Proof.
  intros X. apply string_body_ok in X as (t & u & -> & Ht & ->).
  exists (34 :: t ++ [34]). split; [simpl; now rewrite <- app_assoc | now constructor].
Qed.

(** ** Values *)

Lemma gelements_ws (w t : jstr) (vs : list value) : ws w -> gelements t vs -> gelements (w ++ t) vs.
Proof.
  intros Hw H. destruct H as [w1 t w2 v H1 Ht H2 | w1 t w2 r v vs H1 Ht H2 Hr]; rewrite app_assoc.
  - apply ge_one; auto using ws_app.
  - apply ge_cons; auto using ws_app.
Qed.

Lemma gmembers_ws (w t : jstr) (kvs : list (jstr * value)) : ws w -> gmembers t kvs -> gmembers (w ++ t) kvs.
Proof.
  intros Hw H. destruct H; rewrite app_assoc; [apply gm_one | apply gm_cons]; auto using ws_app.
Qed.

(** The white space [skip_ws] drops, and what follows it. *)
Ltac split_ws r Heq :=
  let w := fresh "w" in let Hw := fresh "Hw" in let Er := fresh "Er" in
  destruct (skip_ws_split r) as (w & Hw & Er); rewrite Heq in Er.

Ltac app_eq := subst; simpl; repeat (rewrite <- ?app_assoc; simpl); reflexivity.

(** Rewrite the input of a parse, the argument of the goal's left-hand
    side, into the shape [y]. *)
Ltac input_is y := match goal with |- parse_value ?f ?x = _ => replace x with y by app_eq end.

Lemma parse_sound (f : nat) :
  (forall s v r, parse_value f s = POk v r -> exists t, s = t ++ r /\ gvalue t v) /\
  (forall acc s b v r, parse_elements f acc s b = POk v r ->
     (b = true /\ s = 93 :: r /\ v = VArray []) \/
     exists t vs, s = t ++ 93 :: r /\ gelements t vs /\ v = VArray (rev acc ++ vs)) /\
  (forall acc s b v r, parse_members f acc s b = POk v r ->
     (b = true /\ s = 125 :: r /\ v = VObject []) \/
     exists t kvs, s = t ++ 125 :: r /\ gmembers t kvs /\ v = VObject (add_members acc kvs)).
Proof.
  induction f as [|f [IHv [IHe IHm]]]; [split; [|split]; intros; discriminate|].
  split; [|split].
  - intros s v r X. destruct s as [|c s]; [discriminate|]. cbn [parse_value] in X.
    destruct (Z.eqb_spec c 123) as [->|].
    { destruct (IHm _ _ _ _ _ X) as [(_ & E & ->) | (t & kvs & E & Ht & ->)]; split_ws s E.
      - exists (123 :: w ++ [125]). split; [app_eq | now constructor].
      - exists (123 :: (w ++ t) ++ [125]). split; [app_eq | now apply gv_object, gmembers_ws]. }
    destruct (Z.eqb_spec c 91) as [->|].
    { destruct (IHe _ _ _ _ _ X) as [(_ & E & ->) | (t & vs & E & Ht & ->)]; split_ws s E.
      - exists (91 :: w ++ [93]). split; [app_eq | now constructor].
      - exists (91 :: (w ++ t) ++ [93]). split; [app_eq | now apply gv_array, gelements_ws]. }
    destruct (Z.eqb_spec c 34) as [->|].
    { destruct (string_body [] s) as [k r1| |] eqn:Hs; inversion X; subst.
      apply string_token_ok in Hs as (t & E & Ht). exists t. split; [exact E | now constructor]. }
    destruct (Z.eqb_spec c 116) as [->|].
    { destruct (expect_word _ _) as [[] r1| |] eqn:Hw; inversion X; subst.
      apply expect_word_ok in Hw. exists (js "true"%string). split; [exact Hw | constructor]. }
    destruct (Z.eqb_spec c 102) as [->|].
    { destruct (expect_word _ _) as [[] r1| |] eqn:Hw; inversion X; subst.
      apply expect_word_ok in Hw. exists (js "false"%string). split; [exact Hw | constructor]. }
    destruct (Z.eqb_spec c 110) as [->|].
    { destruct (expect_word _ _) as [[] r1| |] eqn:Hw; inversion X; subst.
      apply expect_word_ok in Hw. exists (js "null"%string). split; [exact Hw | constructor]. }
    destruct ((c =? 45) || is_digit c); [|discriminate].
    destruct (number_literal (c :: s)) as [m r1| |] eqn:Hn; inversion X; subst.
    apply number_literal_ok in Hn as (t & E & Ht). exists t. split; [exact E | now constructor].
  - intros acc s b v r X. destruct s as [|c s]; [discriminate|]. cbn [parse_elements] in X.
    destruct ((c =? 93) && b) eqn:Hb.
    { apply andb_prop in Hb as [H93 ->]. apply Z.eqb_eq in H93 as ->. inversion X; subst. now left. }
    right. destruct (parse_value f (c :: s)) as [x r1| |] eqn:Hx; try discriminate.
    destruct (IHv _ _ _ Hx) as (t1 & E1 & Ht1).
    destruct (skip_ws r1) as [|d r2] eqn:Hs1; [discriminate|]. split_ws r1 Hs1.
    destruct (Z.eqb_spec d 44) as [->|].
    + destruct (IHe _ _ _ _ _ X) as [(? & _) | (t & vs & E & Ht & ->)]; [discriminate|].
      split_ws r2 E. exists (t1 ++ w ++ 44 :: w0 ++ t), (x :: vs).
      split; [rewrite E1; app_eq|]. split; [|simpl; now rewrite <- app_assoc].
      rewrite <- (app_nil_l t1). rewrite <- !app_assoc. apply ge_cons; auto using gelements_ws; constructor.
    + destruct (Z.eqb_spec d 93) as [->|]; [|discriminate]. inversion X; subst.
      exists (t1 ++ w), [x]. split; [rewrite E1; app_eq|]. split; [|reflexivity].
      rewrite <- (app_nil_l t1). rewrite <- app_assoc. apply ge_one; auto; constructor.
  - intros acc s b v r X. destruct s as [|c s]; [discriminate|]. cbn [parse_members] in X.
    destruct ((c =? 125) && b) eqn:Hb.
    { apply andb_prop in Hb as [H125 ->]. apply Z.eqb_eq in H125 as ->. inversion X; subst. now left. }
    right. destruct (Z.eqb_spec c 34) as [->|]; [|discriminate].
    destruct (string_body [] s) as [k r1| |] eqn:Hk; try discriminate.
    apply string_token_ok in Hk as (kt & Ek & Hkt).
    destruct (skip_ws r1) as [|d r2] eqn:Hs1; [discriminate|]. split_ws r1 Hs1.
    destruct (Z.eqb_spec d 58) as [->|]; [|discriminate].
    destruct (parse_value f (skip_ws r2)) as [x r3| |] eqn:Hx; try discriminate.
    destruct (IHv _ _ _ Hx) as (t1 & E1 & Ht1). split_ws r2 E1.
    destruct (skip_ws r3) as [|e r4] eqn:Hs3; [discriminate|]. split_ws r3 Hs3.
    destruct (Z.eqb_spec e 44) as [->|].
    + destruct (IHm _ _ _ _ _ X) as [(? & _) | (t & kvs & E & Ht & ->)]; [discriminate|].
      split_ws r4 E. exists (kt ++ w ++ 58 :: w0 ++ t1 ++ w1 ++ 44 :: w2 ++ t), ((k, x) :: kvs).
      split; [etransitivity; [exact Ek | app_eq]|]. split; [|reflexivity].
      apply (gm_cons []); auto using gmembers_ws; constructor.
    + destruct (Z.eqb_spec e 125) as [->|]; [|discriminate]. inversion X; subst.
      exists (kt ++ w ++ 58 :: w0 ++ t1 ++ w1), [(k, x)]. split; [etransitivity; [exact Ek | app_eq]|]. split; [|reflexivity].
      apply (gm_one []); auto; constructor.
Qed.

(** ** Completeness of the scanners *)

Lemma follows_cons (r : jstr) (c : code_unit) (r' : jstr) :
  follows r -> r = c :: r' -> is_digit c = false /\ c <> 46 /\ ~ exp_letter c.
Proof.
  intros H E. specialize (H c r' E). unfold is_digit, exp_letter.
  split; [apply Bool.not_true_iff_false; rewrite andb_true_iff, !Z.leb_le; lia | lia].
Qed.

Lemma follows_no_digit (r : jstr) : follows r -> no_digit r.
Proof. intros H c r' E. exact (proj1 (follows_cons r c r' H E)). Qed.

Lemma digits_forallb_iff (ds : jstr) : digits ds -> forallb is_digit ds = true.
Proof.
  intros H. apply forallb_forall. intros c Hin. apply (proj1 (Forall_forall _ _) H) in Hin.
  unfold digit in Hin. unfold is_digit. lia.
Qed.

Lemma digits1_complete (ds rest : jstr) :
  ds <> [] -> digits ds -> no_digit rest -> digits1 (ds ++ rest) = POk ds rest.
Proof.
  intros Hne Hd Hr. unfold digits1. rewrite span_app by (auto using digits_forallb_iff).
  destruct ds; [congruence | reflexivity].
Qed.

Lemma int_part_complete (ip rest : jstr) : gint ip -> no_digit rest -> int_part (ip ++ rest) = POk ip rest.
Proof.
  intros Hi Hr. destruct Hi as [|d ds Hd Hds]; [reflexivity|]. cbn [app int_part].
  rewrite (proj2 (Z.eqb_neq d 48)) by lia.
  assert (Hdd : is_digit d = true) by (unfold is_digit; lia). rewrite Hdd.
  change (d :: ds ++ rest) with ((d :: ds) ++ rest).
  rewrite span_app; [reflexivity | cbn [forallb]; now rewrite Hdd, digits_forallb_iff | exact Hr].
Qed.

Lemma exp_part_complete (te r : jstr) (e : Z) : gexp te e -> follows r -> exp_part (te ++ r) = POk e r.
Proof.
  intros Hx Hr. pose proof (follows_no_digit r Hr) as Hn.
  destruct Hx as [|c ds Hc Hne Hd|c ds Hc Hne Hd|c ds Hc Hne Hd].
  - destruct r as [|c r']; [reflexivity|]. destruct (follows_cons _ c r' Hr eq_refl) as (_ & _ & He).
    unfold exp_part. cbn [app]. destruct ((c =? 101) || (c =? 69)) eqn:E; [|reflexivity].
    exfalso. apply He. unfold exp_letter. apply orb_true_iff in E. rewrite !Z.eqb_eq in E. tauto.
  - assert (Hl : (c =? 101) || (c =? 69) = true) by (unfold exp_letter in Hc; apply orb_true_iff; lia).
    destruct ds as [|d ds']; [congruence|]. inversion Hd; subst. unfold digit in *.
    cbn [app exp_part]. rewrite Hl. unfold signed_digits.
    rewrite (proj2 (Z.eqb_neq d 43)), (proj2 (Z.eqb_neq d 45)) by lia.
    change (d :: ds' ++ r) with ((d :: ds') ++ r). rewrite digits1_complete by auto. now rewrite Z.mul_1_l.
  - assert (Hl : (c =? 101) || (c =? 69) = true) by (unfold exp_letter in Hc; apply orb_true_iff; lia).
    cbn [app exp_part]. rewrite Hl. unfold signed_digits. cbn [Z.eqb Pos.eqb].
    rewrite digits1_complete by auto. now rewrite Z.mul_1_l.
  - assert (Hl : (c =? 101) || (c =? 69) = true) by (unfold exp_letter in Hc; apply orb_true_iff; lia).
    cbn [app exp_part]. rewrite Hl. unfold signed_digits. cbn [Z.eqb Pos.eqb].
    now rewrite digits1_complete by auto.
Qed.

(** What follows the digits of an integer part, or of a fraction: not a
    digit. *)
Lemma exp_follow_no_digit (te r : jstr) (e : Z) : gexp te e -> follows r -> no_digit (te ++ r).
Proof.
  intros Hx Hr. destruct Hx; [now apply follows_no_digit|..];
    intros c' r' E; inversion E; subst; unfold exp_letter in *; unfold is_digit;
    apply Bool.not_true_iff_false; rewrite andb_true_iff, !Z.leb_le; lia.
Qed.

Lemma frac_part_complete (tf fp te r : jstr) (e : Z) :
  gfrac tf fp -> gexp te e -> follows r -> frac_part (tf ++ te ++ r) = POk fp (te ++ r).
Proof.
  intros Hf Hx Hr. destruct Hf as [|ds Hne Hd].
  - destruct Hx as [|c ds Hc Hne Hd|c ds Hc Hne Hd|c ds Hc Hne Hd]; cbn [app];
      [destruct r as [|c r']; [reflexivity|]; destruct (follows_cons _ c r' Hr eq_refl) as (_ & H46 & _)
      | | |]; unfold frac_part; rewrite ?(proj2 (Z.eqb_neq _ 46)) by (unfold exp_letter in *; lia);
      reflexivity.
  - cbn [app frac_part Z.eqb Pos.eqb]. apply digits1_complete; auto. exact (exp_follow_no_digit te r e Hx Hr).
Qed.

Lemma frac_follow_no_digit (tf fp te r : jstr) (e : Z) :
  gfrac tf fp -> gexp te e -> follows r -> no_digit (tf ++ te ++ r).
Proof.
  intros Hf Hx Hr. destruct Hf; [exact (exp_follow_no_digit te r e Hx Hr)|].
  intros c' r' E. inversion E; subst. reflexivity.
Qed.

Lemma gint_head (ip : jstr) : gint ip -> exists d ds, ip = d :: ds /\ d <> 45.
Proof. intros H. destruct H as [|d ds Hd _]; do 2 eexists; (split; [reflexivity | lia]). Qed.

(** The scanners of [number_literal] after the sign, on a number of the
    grammar. *)
Ltac number_tail ip tf fp te r e :=
  cbv iota beta;
  match goal with |- context [int_part ?x] =>
    replace (int_part x) with (POk ip (tf ++ te ++ r)) by (symmetry; now apply (int_part_complete ip (tf ++ te ++ r))) end;
  cbv iota beta;
  match goal with |- context [frac_part ?x] =>
    replace (frac_part x) with (POk fp (te ++ r)) by (symmetry; now apply (frac_part_complete tf fp te r e)) end;
  cbv iota beta;
  match goal with |- context [exp_part ?x] =>
    replace (exp_part x) with (POk e r) by (symmetry; now apply (exp_part_complete te r e)) end;
  reflexivity.

Lemma number_literal_complete (t r : jstr) (n : number) :
  gnumber t n -> follows r -> number_literal (t ++ r) = POk n r.
Proof.
  intros Hn Hr. destruct Hn as [neg ip tf fp te e Hi Hf Hx].
  pose proof (frac_follow_no_digit tf fp te r e Hf Hx Hr) as Hnd.
  rewrite <- !app_assoc. unfold number_literal. destruct neg; cbn [app].
  - cbn [Z.eqb Pos.eqb]. number_tail ip tf fp te r e.
  - destruct (gint_head ip Hi) as (d & ds & -> & Hd). cbn [app].
    rewrite (proj2 (Z.eqb_neq d 45)) by exact Hd. number_tail (d :: ds) tf fp te r e.
Qed.

Lemma escape_char_complete (e u : code_unit) : gescape e u -> escape_char e = Some u /\ e <> 117.
Proof. intros H. destruct H; split; (reflexivity || discriminate). Qed.

Lemma hex_val_complete (c : code_unit) (x : Z) : hex_digit c x -> hex_val c = Some x.
Proof.
  unfold hex_digit, hex_val. intros [(H & ->) | [(H & ->) | (H & ->)]].
  - now rewrite (proj2 (andb_true_iff _ _)) by (rewrite !Z.leb_le; lia).
  - rewrite (proj2 (andb_false_iff _ _)) by (right; apply Z.leb_gt; lia).
    rewrite (proj2 (andb_false_iff _ _)) by (left; apply Z.leb_gt; lia).
    now rewrite (proj2 (andb_true_iff _ _)) by (rewrite !Z.leb_le; lia).
  - rewrite (proj2 (andb_false_iff _ _)) by (right; apply Z.leb_gt; lia).
    now rewrite (proj2 (andb_true_iff _ _)) by (rewrite !Z.leb_le; lia).
Qed.

Lemma string_body_complete (t u : jstr) :
  gchars t u -> forall acc r, string_body acc (t ++ 34 :: r) = POk (rev acc ++ u) r.
Proof.
  induction 1 as [|c t s Hc H34 H92 _ IH|e u t s He _ IH|a b c d x y z w t s Ha Hb Hc Hd _ IH];
    intros acc r; cbn [app string_body].
  - now rewrite app_nil_r.
  - rewrite (proj2 (Z.eqb_neq c 34)), (proj2 (Z.eqb_neq c 92)), (proj2 (Z.ltb_ge c 32)) by lia.
    rewrite IH. simpl. now rewrite <- app_assoc.
  - destruct (escape_char_complete e u He) as [Hu H117].
    rewrite (proj2 (Z.eqb_neq e 117)), Hu by exact H117. rewrite IH. simpl. now rewrite <- app_assoc.
  - cbn [Z.eqb Pos.eqb]. unfold hex4. rewrite (hex_val_complete a x Ha), (hex_val_complete b y Hb), (hex_val_complete c z Hc), (hex_val_complete d w Hd).
    rewrite IH. simpl. now rewrite <- app_assoc.
Qed.

(** ** Completeness *)

Lemma skip_ws_ws_app (w s : jstr) : ws w -> skip_ws (w ++ s) = skip_ws s.
Proof.
  induction 1 as [|c w Hc _ IH]; [reflexivity|]. cbn [app]. unfold skip_ws in *. cbn [drop_while].
  now rewrite (proj2 (ws_json_ws c) Hc).
Qed.

Lemma follows_ws (w : jstr) : ws w -> follows w.
Proof.
  intros Hw c r' E. subst w. inversion Hw; subst. lia.
Qed.

Lemma follows_ws_punct (w r : jstr) (c : code_unit) :
  ws w -> c = 44 \/ c = 93 \/ c = 125 -> follows (w ++ c :: r).
Proof.
  intros Hw Hc d r' E. destruct w as [|x w].
  - inversion E; subst. lia.
  - inversion E; subst. inversion Hw; subst. lia.
Qed.

Lemma gnumber_first (t : jstr) (n : number) :
  gnumber t n -> exists c t', t = c :: t' /\ (c = 45 \/ digit c).
Proof.
  intros [neg ip tf fp te e Hi _ _]. destruct neg; [do 2 eexists; split; [reflexivity | now left]|].
  destruct Hi as [|d ds Hd _]; do 2 eexists; (split; [reflexivity | right; unfold digit; lia]).
Qed.

Lemma gvalue_first (t : jstr) (v : value) :
  gvalue t v -> exists c t', t = c :: t' /\ value_start c = true.
Proof.
  intros H. destruct H as [| | |t s Hs|t n Hn| | | |];
    try (do 2 eexists; split; reflexivity).
  - destruct Hs as [t s]. do 2 eexists. split; reflexivity.
  - destruct (gnumber_first t n Hn) as (c & t' & -> & Hc). do 2 eexists. split; [reflexivity|].
    unfold value_start, is_digit, digit in *. destruct Hc as [->|Hc]; [reflexivity|].
    rewrite (proj2 (andb_true_iff _ _)) by (rewrite !Z.leb_le; lia). now rewrite !orb_true_r.
Qed.

Lemma value_start_cons (c : code_unit) (s : jstr) :
  value_start c = true -> skip_ws (c :: s) = c :: s /\ c <> 93 /\ c <> 125.
Proof.
  intros H. unfold value_start, is_digit in H. unfold skip_ws. cbn [drop_while].
  assert (Hc : is_json_ws c = false).
  { apply Bool.not_true_iff_false. rewrite ws_json_ws. intros Hw.
    rewrite !orb_true_iff, !Z.eqb_eq, andb_true_iff, !Z.leb_le in H. lia. }
  rewrite Hc. split; [reflexivity|].
  rewrite !orb_true_iff, !Z.eqb_eq, andb_true_iff, !Z.leb_le in H. lia.
Qed.

(** A text that starts a value is left alone by [skip_ws] after white space. *)
Lemma skip_ws_value (w t s : jstr) (v : value) :
  ws w -> gvalue t v -> skip_ws (w ++ t ++ s) = t ++ s.
Proof.
  intros Hw Ht. rewrite skip_ws_ws_app by exact Hw.
  destruct (gvalue_first t v Ht) as (c & t' & -> & Hc). apply (value_start_cons c (t' ++ s) Hc).
Qed.

Lemma skip_ws_punct_after (w r : jstr) (c : code_unit) :
  ws w -> c = 44 \/ c = 58 \/ c = 93 \/ c = 125 -> skip_ws (w ++ c :: r) = c :: r.
Proof. intros Hw Hc. rewrite skip_ws_ws_app by exact Hw. now apply skip_ws_punct. Qed.

(** Two parses that succeed with their own fuel, with a common fuel. *)
Lemma fuel_join (f g : nat) (s1 s2 : jstr) (v1 v2 : value) (r1 r2 : jstr) (acc : list value) (b : bool) :
  parse_value f s1 = POk v1 r1 -> parse_elements g acc s2 b = POk v2 r2 ->
  parse_value (f + g) s1 = POk v1 r1 /\ parse_elements (f + g) acc s2 b = POk v2 r2.
Proof.
  intros H1 H2. split.
  - rewrite (parse_value_mono f) by (congruence || lia). exact H1.
  - rewrite (parse_elements_mono g) by (congruence || lia). exact H2.
Qed.

Lemma fuel_join_members (f g : nat) (s1 s2 : jstr) (v1 v2 : value) (r1 r2 : jstr)
    (acc : list (jstr * value)) (b : bool) :
  parse_value f s1 = POk v1 r1 -> parse_members g acc s2 b = POk v2 r2 ->
  parse_value (f + g) s1 = POk v1 r1 /\ parse_members (f + g) acc s2 b = POk v2 r2.
Proof.
  intros H1 H2. split.
  - rewrite (parse_value_mono f) by (congruence || lia). exact H1.
  - rewrite (parse_members_mono g) by (congruence || lia). exact H2.
Qed.

Lemma parse_value_number (f : nat) (c : code_unit) (s : jstr) :
  c = 45 \/ digit c -> parse_value (S f) (c :: s) = pmap VNumber (number_literal (c :: s)).
Proof.
  intros [->|H]; [reflexivity|]. apply parse_value_digit. unfold is_digit, digit in *. lia.
Qed.

(** One member read by [parse_members]. *)
Lemma parse_members_member (f : nat) (acc : list (jstr * value)) (b : bool) (kt k w2 w3 t w4 R : jstr)
    (v : value) :
  gchars kt k -> ws w2 -> ws w3 -> gvalue t v -> parse_value f (t ++ w4 ++ R) = POk v (w4 ++ R) ->
  parse_members (S f) acc (34 :: kt ++ 34 :: w2 ++ 58 :: w3 ++ t ++ w4 ++ R) b =
  match skip_ws (w4 ++ R) with
  | e :: r4 =>
      if e =? 44 then parse_members f (obj_set k v acc) (skip_ws r4) false
      else if e =? 125 then POk (VObject (obj_set k v acc)) r4
      else PErr (e :: r4)
  | [] => PErr []
  end.
Proof.
  intros Hk Hw2 Hw3 Ht Hf. cbn [parse_members Z.eqb Pos.eqb andb]. cbv iota.
  match goal with |- context [string_body [] ?x] =>
    replace (string_body [] x) with (POk k (w2 ++ 58 :: w3 ++ t ++ w4 ++ R))
      by (symmetry; exact (string_body_complete kt k Hk [] _)) end.
  cbv iota. rewrite skip_ws_punct_after by (assumption || lia). cbn [Z.eqb Pos.eqb]. cbv iota.
  rewrite (skip_ws_value w3 t _ v Hw3 Ht), Hf. reflexivity.
Qed.

Lemma parse_complete :
  (forall t v, gvalue t v -> forall r, follows r -> exists f, parse_value f (t ++ r) = POk v r) /\
  (forall t vs, gelements t vs -> forall acc r b, exists f,
      parse_elements f acc (skip_ws (t ++ 93 :: r)) b = POk (VArray (rev acc ++ vs)) r) /\
  (forall t kvs, gmembers t kvs -> forall acc r b, exists f,
      parse_members f acc (skip_ws (t ++ 125 :: r)) b = POk (VObject (add_members acc kvs)) r).
Proof.
  apply gjson_mutind.
  - intros r _. exists 1%nat. reflexivity.
  - intros r _. exists 1%nat. reflexivity.
  - intros r _. exists 1%nat. reflexivity.
  - intros t s [t' s' Hc] r _. exists 1%nat.
    input_is (34 :: t' ++ 34 :: r).
    cbn [parse_value Z.eqb Pos.eqb]. cbv iota.
    exact (f_equal (pmap VString) (string_body_complete t' s' Hc [] r)).
  - intros t n Hn r Hr. exists 1%nat.
    destruct (gnumber_first t n Hn) as (c & t' & -> & Hc).
    change ((c :: t') ++ r) with (c :: t' ++ r). rewrite parse_value_number by exact Hc.
    change (c :: t' ++ r) with ((c :: t') ++ r). now rewrite (number_literal_complete (c :: t') r n Hn Hr).
  - intros w Hw r _. exists 2%nat.
    input_is (91 :: w ++ 93 :: r).
    rewrite parse_value_bracket. now rewrite skip_ws_punct_after by (assumption || lia).
  - intros t vs _ IH r _. destruct (IH [] r true) as [f Hf]. exists (S f).
    input_is (91 :: t ++ 93 :: r).
    rewrite parse_value_bracket. exact Hf.
  - intros w Hw r _. exists 2%nat.
    input_is (123 :: w ++ 125 :: r).
    rewrite parse_value_brace. now rewrite skip_ws_punct_after by (assumption || lia).
  - intros t kvs _ IH r _. destruct (IH [] r true) as [f Hf]. exists (S f).
    input_is (123 :: t ++ 125 :: r).
    rewrite parse_value_brace. exact Hf.
  - intros w1 t w2 v Hw1 Ht IH Hw2 acc r b.
    destruct (IH (w2 ++ 93 :: r) (follows_ws_punct w2 r 93 Hw2 ltac:(lia))) as [f Hf].
    exists (S f). rewrite <- !app_assoc, (skip_ws_value w1 t _ v Hw1 Ht).
    destruct (gvalue_first t v Ht) as (c & t' & -> & Hc).
    destruct (value_start_cons c [] Hc) as (_ & H93 & _).
    cbn [app parse_elements]. rewrite (proj2 (Z.eqb_neq c 93) H93). cbn [andb].
    change (c :: t' ++ w2 ++ 93 :: r) with ((c :: t') ++ w2 ++ 93 :: r). rewrite Hf.
    now rewrite skip_ws_punct_after by (assumption || lia).
  - intros w1 t w2 r0 v vs Hw1 Ht IH Hw2 _ IHr acc r b.
    destruct (IH (w2 ++ 44 :: r0 ++ 93 :: r) (follows_ws_punct w2 (r0 ++ 93 :: r) 44 Hw2 ltac:(lia))) as [f Hf].
    destruct (IHr (v :: acc) r false) as [g Hg].
    destruct (fuel_join f g _ _ _ _ _ _ _ _ Hf Hg) as [Hf' Hg'].
    exists (S (f + g)). rewrite <- !app_assoc, (skip_ws_value w1 t _ v Hw1 Ht).
    destruct (gvalue_first t v Ht) as (c & t' & -> & Hc).
    destruct (value_start_cons c [] Hc) as (_ & H93 & _).
    cbn [app parse_elements]. rewrite (proj2 (Z.eqb_neq c 93) H93). cbn [andb].
    change (c :: t' ++ w2 ++ 44 :: r0 ++ 93 :: r) with ((c :: t') ++ w2 ++ 44 :: r0 ++ 93 :: r).
    rewrite Hf'. rewrite skip_ws_punct_after by (assumption || lia). cbn [Z.eqb Pos.eqb]. cbv iota.
    rewrite Hg'. simpl. now rewrite <- app_assoc.
  - intros w1 kt w2 w3 t w4 k v Hw1 [kt' k' Hk] Hw2 Hw3 Ht IH Hw4 acc r b.
    destruct (IH (w4 ++ 125 :: r) (follows_ws_punct w4 r 125 Hw4 ltac:(lia))) as [f Hf].
    exists (S f).
    match goal with |- parse_members _ _ ?x _ = _ =>
      replace x with (34 :: kt' ++ 34 :: w2 ++ 58 :: w3 ++ t ++ w4 ++ 125 :: r)
        by (rewrite <- !app_assoc, skip_ws_ws_app by exact Hw1; app_eq) end.
    rewrite (parse_members_member f acc b kt' k' w2 w3 t w4 (125 :: r) v Hk Hw2 Hw3 Ht Hf).
    now rewrite skip_ws_punct_after by (assumption || lia).
  - intros w1 kt w2 w3 t w4 r0 k v kvs Hw1 [kt' k' Hk] Hw2 Hw3 Ht IH Hw4 _ IHr acc r b.
    destruct (IH (w4 ++ 44 :: r0 ++ 125 :: r) (follows_ws_punct w4 (r0 ++ 125 :: r) 44 Hw4 ltac:(lia)))
      as [f Hf].
    destruct (IHr (obj_set k' v acc) r false) as [g Hg].
    destruct (fuel_join_members f g _ _ _ _ _ _ _ _ Hf Hg) as [Hf' Hg'].
    exists (S (f + g)).
    match goal with |- parse_members _ _ ?x _ = _ =>
      replace x with (34 :: kt' ++ 34 :: w2 ++ 58 :: w3 ++ t ++ w4 ++ 44 :: r0 ++ 125 :: r)
        by (rewrite <- !app_assoc, skip_ws_ws_app by exact Hw1; app_eq) end.
    rewrite (parse_members_member (f + g) acc b kt' k' w2 w3 t w4 (44 :: r0 ++ 125 :: r) v Hk Hw2 Hw3 Ht Hf').
    rewrite skip_ws_punct_after by (assumption || lia). cbn [Z.eqb Pos.eqb]. cbv iota. exact Hg'.
Qed.

Lemma json_parse_sound (text : jstr) (v : value) : json_parse text = Normal v -> gtext text v.
Proof.
  unfold json_parse. destruct (parse_value _ (skip_ws text)) as [x r| |] eqn:E; try discriminate.
  destruct (skip_ws r) as [|c r'] eqn:Er; [|discriminate]. intros X. inversion X; subst x.
  destruct (proj1 (parse_sound _) _ _ _ E) as (t & Et & Ht).
  destruct (skip_ws_split text) as (w1 & Hw1 & E1). destruct (skip_ws_split r) as (w2 & Hw2 & E2).
  rewrite Er, app_nil_r in E2. exists w1, t, w2.
  split; [rewrite E1, Et, E2; reflexivity | tauto].
Qed.

Lemma json_parse_complete (text : jstr) (v : value) : gtext text v -> json_parse text = Normal v.
Proof.
  intros (w1 & t & w2 & -> & Hw1 & Ht & Hw2).
  destruct (proj1 parse_complete t v Ht w2 (follows_ws w2 Hw2)) as [f Hf].
  unfold json_parse. rewrite (skip_ws_value w1 t w2 v Hw1 Ht).
  rewrite (parse_value_agree _ f); [rewrite Hf | | congruence].
  - rewrite <- (app_nil_r w2), skip_ws_ws_app by exact Hw2. reflexivity.
  - apply (proj1 (parse_progress _)). rewrite !length_app. lia.
Qed.

(** C18 (refinement): [JSON.parse], the parse of PagBank's answer by
    [response.json()] (line 69), returns a value on exactly the JSON
    texts of ECMA-404's grammar, and then the value the grammar gives
    them: a text is accepted if and only if it is a value between white
    space, strings denote their characters with the escapes decoded,
    numbers the Number nearest to their decimal value, and objects the
    result of CreateDataProperty of their members in order. *)
Theorem json_parse_grammar (text : jstr) (v : value) : json_parse text = Normal v <-> gtext text v.
Proof. split; [apply json_parse_sound | apply json_parse_complete]. Qed.

Lemma json_parse_grammar_witness :
  gtext (json_text "{'qr_codes' : [ {'text':'00020126'} ],'n':-1.5e+2}")
    (VObject [(js "qr_codes"%string, VArray [VObject [(js "text"%string, VString (js "00020126"%string))]]);
              (js "n"%string, VNumber (-150)%float)]).
Proof. apply (json_parse_grammar _ _). vm_compute. reflexivity. Defined.
