(* ===== verification/IsoDate.v ===== *)
(** * [new Date(t).toISOString()]

    Line 53 computes the QR code's expiry as
    [new Date(Date.now() + 3600 * 1000).toISOString()].  This file models
    the two library steps with ECMAScript's definitions:
    - [new Date(x)] for a Number [x] stores [TimeClip(x)]: NaN when [x] is
      not finite or [|x| > 8.64e15], else [x] truncated towards zero;
    - [toISOString] throws a RangeError ("Invalid time value", V8's
      message) on NaN, and otherwise prints [YYYY-MM-DDTHH:mm:ss.sssZ],
      with a signed six-digit year outside [0, 9999].
    The calendar fields are ECMAScript's Day, DayFromYear, YearFromTime
    ("the largest [y] with [TimeFromYear(y) <= t]", computed from an
    estimate corrected by at most two years), MonthFromTime and
    DateFromTime, on integers.  The theorems show that YearFromTime finds
    the year containing every day, that DayFromYear agrees with
    DaysInYear, and, against a table of month lengths, that MonthFromTime
    and DateFromTime name every day of both kinds of year. *)

From Stdlib Require Import String ZArith List Lia Bool Floats.
From S2P Require Import Prelude JsString JsNumber JsValue.
Import ListNotations.
Open Scope Z_scope.

Definition ms_per_day : Z := 86400000.
Definition max_time : Z := 8640000000000000.

(** ** TimeClip *)

(** [TimeClip(x)] as an optional integer: [None] is NaN. *)
Definition sf_time_clip (x : spec_float) : option Z :=
  match x with
  | S754_zero _ => Some 0
  | S754_finite s m e =>
      let too_large :=
        if 0 <=? e then max_time <? Zpos m * 2 ^ e
        else max_time * 2 ^ (- e) <? Zpos m in
      if too_large then None
      else
        let a := if 0 <=? e then Zpos m * 2 ^ e else Zpos m / 2 ^ (- e) in
        Some (if s then - a else a)
  | _ => None
  end.

Definition time_clip (x : number) : option Z := sf_time_clip (Prim2SF x).

(** ** The calendar *)
Definition day (t : Z) : Z := t / ms_per_day.
Definition time_within_day (t : Z) : Z := t mod ms_per_day.

Definition days_in_year (y : Z) : Z :=
  if negb (y mod 4 =? 0) then 365
  else if negb (y mod 100 =? 0) then 366
  else if negb (y mod 400 =? 0) then 365
  else 366.

Definition day_from_year (y : Z) : Z :=
  365 * (y - 1970) + (y - 1969) / 4 - (y - 1901) / 100 + (y - 1601) / 400.

(** YearFromTime, on the day number: the largest [y] with
    [DayFromYear(y) <= d]. *)
Definition year_from_day (d : Z) : Z :=
  let y0 := 1970 + (d * 400) / 146097 in
  if d <? day_from_year y0 then
    if d <? day_from_year (y0 - 1) then y0 - 2 else y0 - 1
  else if day_from_year (y0 + 1) <=? d then
    if day_from_year (y0 + 2) <=? d then y0 + 2 else y0 + 1
  else y0.

Definition in_leap_year (y : Z) : Z := if days_in_year y =? 366 then 1 else 0.

(** The first day of each month after January within a year, without the
    leap day. *)
Definition month_starts : list Z := [31; 59; 90; 120; 151; 181; 212; 243; 273; 304; 334].

(** MonthFromTime (0 to 11) from DayWithinYear [dwy]: January and
    February as in the spec's first two cases, and from March on the
    number of month starts, shifted by the leap day, up to [dwy]. *)
Definition month_from_dwy (leap dwy : Z) : Z :=
  if dwy <? 31 then 0
  else if dwy <? 59 + leap then 1
  else 2 + Z.of_nat (length (filter (fun s => s + leap <=? dwy) (skipn 2 month_starts))).

(** DateFromTime (1 to 31). *)
Definition date_from_dwy (leap dwy : Z) : Z :=
  let m := month_from_dwy leap dwy in
  if m =? 0 then dwy + 1
  else if m =? 1 then dwy - 30
  else dwy - nth (Z.to_nat (m - 1)) month_starts 0 - leap + 1.

(** ** The ISO format *)
Definition pad (n : nat) (z : Z) : jstr := pad_left n 48 (digits_of_nonneg z).

Definition year_string (y : Z) : jstr :=
  if (0 <=? y) && (y <=? 9999) then pad 4 y
  else (if y <? 0 then 45 else 43) :: pad 6 (Z.abs y).

(** The Date Time String Format of a time value [t]. *)
Definition iso_string (t : Z) : jstr :=
  let d := day t in
  let y := year_from_day d in
  let leap := in_leap_year y in
  let dwy := d - day_from_year y in
  let ms := time_within_day t in
  year_string y ++ [45] ++ pad 2 (month_from_dwy leap dwy + 1) ++ [45]
  ++ pad 2 (date_from_dwy leap dwy) ++ [84]
  ++ pad 2 (ms / 3600000) ++ [58] ++ pad 2 (ms / 60000 mod 60) ++ [58]
  ++ pad 2 (ms / 1000 mod 60) ++ [46] ++ pad 3 (ms mod 1000) ++ [90].

Definition invalid_time_value : js_error :=
  mk_error RangeError (js "Invalid time value"%string).

(** [new Date(x).toISOString()] for a Number [x]. *)
Definition date_to_iso_string (x : number) : completion jstr :=
  match time_clip x with
  | None => Throw invalid_time_value
  | Some t => Normal (iso_string t)
  end.

(** ** The calendar as a table (specification) *)

(** The length of month [m] (0 to 11) of a year with [leap] leap days. *)
Definition month_length (leap m : Z) : Z :=
  nth (Z.to_nat m) [31; 28 + leap; 31; 30; 31; 30; 31; 31; 30; 31; 30; 31] 0.

(** The day within the year on which month [m] starts. *)
Definition month_first (leap m : Z) : Z :=
  fold_left Z.add (firstn (Z.to_nat m) (map (month_length leap) [0; 1; 2; 3; 4; 5; 6; 7; 8; 9; 10])) 0.

(** MonthFromTime and DateFromTime name the day [dwy]: a month, and a
    date within that month's length, that start on [dwy]. *)
Definition calendar_ok (leap dwy : Z) : bool :=
  let m := month_from_dwy leap dwy in
  let dt := date_from_dwy leap dwy in
  (0 <=? m) && (m <=? 11) && (1 <=? dt) && (dt <=? month_length leap m)
  && (dwy =? month_first leap m + dt - 1).

(** * Properties *)

Lemma day_from_year_bounds (y : Z) :
  146097 * (y - 1970) - 607 < 400 * day_from_year y < 146097 * (y - 1970) + 593.
Proof. unfold day_from_year. Z.div_mod_to_equations. lia. Qed.

(** The estimate of [year_from_day] is within two years of the answer. *)
Lemma year_estimate_bounds (d : Z) :
  day_from_year (1970 + d * 400 / 146097 - 2) <= d < day_from_year (1970 + d * 400 / 146097 + 3).
Proof.
  pose proof (day_from_year_bounds (1970 + d * 400 / 146097 - 2)).
  pose proof (day_from_year_bounds (1970 + d * 400 / 146097 + 3)).
  pose proof (Z.div_mod (d * 400) 146097 ltac:(lia)).
  pose proof (Z.mod_pos_bound (d * 400) 146097 ltac:(lia)).
  lia.
Qed.

Lemma year_from_day_bounds (d : Z) :
  day_from_year (year_from_day d) <= d < day_from_year (year_from_day d + 1).
Proof.
  pose proof (year_estimate_bounds d) as [Hlo Hhi].
  unfold year_from_day. set (y0 := 1970 + d * 400 / 146097) in *.
  destruct (Z.ltb_spec d (day_from_year y0)), (Z.ltb_spec d (day_from_year (y0 - 1))),
    (Z.leb_spec (day_from_year (y0 + 1)) d), (Z.leb_spec (day_from_year (y0 + 2)) d);
  repeat match goal with |- context [?a - 1 + 1] => replace (a - 1 + 1) with a by lia end;
  repeat match goal with |- context [?a - 2 + 1] => replace (a - 2 + 1) with (a - 1) by lia end;
  repeat match goal with |- context [?a + 1 + 1] => replace (a + 1 + 1) with (a + 2) by lia end;
  repeat match goal with |- context [?a + 2 + 1] => replace (a + 2 + 1) with (a + 3) by lia end;
  lia.
Qed.

(** C35 (functional): YearFromTime is the year that contains the day:
    [DayFromYear(y) <= d < DayFromYear(y + 1)] for [y = year_from_day d],
    for every day number [d]. *)
Theorem year_from_day_spec (d : Z) :
  day_from_year (year_from_day d) <= d < day_from_year (year_from_day d + 1).
Proof. apply year_from_day_bounds. Qed.

Lemma day_from_year_step (y : Z) :
  day_from_year (y + 1) - day_from_year y = days_in_year y.
Proof.
  unfold day_from_year, days_in_year.
  destruct (Z.eqb_spec (y mod 4) 0), (Z.eqb_spec (y mod 100) 0), (Z.eqb_spec (y mod 400) 0);
  cbn [negb]; Z.div_mod_to_equations; lia.
Qed.

(** DayFromYear and DaysInYear agree: year [y] has
    [DayFromYear(y + 1) - DayFromYear(y)] days, 366 exactly in the
    Gregorian leap years. *)
Theorem day_from_year_succ (y : Z) :
  day_from_year (y + 1) - day_from_year y = days_in_year y.
Proof. apply day_from_year_step. Qed.

Lemma calendar_ok_all : forall_range (calendar_ok 0) 365 0 = true /\ forall_range (calendar_ok 1) 366 0 = true.
Proof. split; vm_compute; reflexivity. Qed.

Lemma calendar_fields (leap dwy : Z) :
  (leap = 0 \/ leap = 1) -> 0 <= dwy < 365 + leap ->
  let m := month_from_dwy leap dwy in
  let dt := date_from_dwy leap dwy in
  0 <= m <= 11 /\ 1 <= dt <= month_length leap m /\ dwy = month_first leap m + dt - 1.
Proof.
  intros Hl Hd. assert (H : calendar_ok leap dwy = true).
  { destruct calendar_ok_all as [H0 H1].
    destruct Hl as [->| ->]; [eapply (forall_range_sound _ 365 0) | eapply (forall_range_sound _ 366 0)];
      eauto; simpl; lia. }
  unfold calendar_ok in H. cbv zeta in *. repeat rewrite andb_true_iff in H. lia.
Qed.

(** C36 (functional): on every day of a common or a leap year,
    MonthFromTime gives a month [m] in [0, 11] and DateFromTime a date in
    [1, length of m], and the day is the [date]-th of that month. *)
Theorem month_date_spec (leap dwy : Z) :
  (leap = 0 \/ leap = 1) -> 0 <= dwy < 365 + leap ->
  let m := month_from_dwy leap dwy in
  let dt := date_from_dwy leap dwy in
  0 <= m <= 11 /\ 1 <= dt <= month_length leap m /\ dwy = month_first leap m + dt - 1.
Proof. apply calendar_fields. Qed.

(** TimeClip keeps an integer time value of the valid range. *)
Lemma time_clip_float_of_Z (t : Z) :
  0 <= t < 2 ^ 53 -> time_clip (float_of_Z t) = if t <=? max_time then Some t else None.
Proof.
  intros Ht. unfold time_clip. rewrite Prim2SF_float_of_Z by lia.
  destruct t as [|p|p]; [reflexivity| |lia]. cbn [binary_normalize].
  assert (Hp : Zpos p < 2 ^ 53) by lia.
  destruct (binary_round_small false p (size_lt_pow p Hp)) as (m & -> & Hv & _).
  pose proof (Pos2Z.pos_le_pos _ _ (size_lt_pow p Hp)) as Hs.
  unfold sf_time_clip. destruct (Z.leb_spec 0 (Zpos (Pos.size p) - 53)) as [H0|H0].
  - assert (E : Zpos (Pos.size p) - 53 = 0) by lia. assert (E' : 53 - Zpos (Pos.size p) = 0) by lia.
    rewrite E. rewrite E', Z.pow_0_r, Z.mul_1_r in Hv. rewrite Z.pow_0_r, Z.mul_1_r.
    rewrite Hv. destruct (Z.ltb_spec max_time (Zpos p)), (Z.leb_spec (Zpos p) max_time); (lia || reflexivity).
  - replace (- (Zpos (Pos.size p) - 53)) with (53 - Zpos (Pos.size p)) by lia.
    pose proof (Z.pow_pos_nonneg 2 (53 - Zpos (Pos.size p)) ltac:(lia) ltac:(lia)).
    rewrite Hv. destruct (Z.ltb_spec (max_time * 2 ^ (53 - Zpos (Pos.size p))) (Zpos p * 2 ^ (53 - Zpos (Pos.size p)))),
      (Z.leb_spec (Zpos p) max_time); first [nia | reflexivity | now rewrite Z.div_mul by lia].
Qed.

Lemma time_clip_int (t : Z) : 0 <= t <= max_time -> time_clip (float_of_Z t) = Some t.
Proof.
  intros Ht. rewrite time_clip_float_of_Z by (unfold max_time in Ht; lia).
  now rewrite (proj2 (Z.leb_le t max_time)) by lia.
Qed.

Lemma pad_length (k : nat) (z : Z) :
  (1 <= k)%nat -> 0 <= z < 10 ^ Z.of_nat k -> length (pad k z) = k.
Proof.
  intros Hk Hz. unfold pad, pad_left. rewrite length_app, repeat_length.
  pose proof (digits_fuel_length (S (Z.to_nat (Z.log2 z))) z [] k Hk Hz) as H. cbn [length Nat.add] in H.
  unfold digits_of_nonneg. lia.
Qed.

Lemma days_in_year_range (y : Z) : 365 <= days_in_year y <= 366.
Proof. unfold days_in_year. destruct_ifs; lia. Qed.

Lemma day_from_year_mono (y1 y2 : Z) : y1 <= y2 -> day_from_year y1 <= day_from_year y2.
Proof.
  intros H.
  assert (Hn : forall n : nat, day_from_year y1 <= day_from_year (y1 + Z.of_nat n)).
  { induction n as [|n IH]; [rewrite Z.add_0_r; lia|].
    replace (y1 + Z.of_nat (S n)) with (y1 + Z.of_nat n + 1) by lia.
    pose proof (day_from_year_step (y1 + Z.of_nat n)) as Hs.
    pose proof (days_in_year_range (y1 + Z.of_nat n)). lia. }
  specialize (Hn (Z.to_nat (y2 - y1))). rewrite Z2Nat.id in Hn by lia.
  replace (y1 + (y2 - y1)) with y2 in Hn by lia. exact Hn.
Qed.

(** The year of every time value from 1970 to the end of year 9999. *)
Lemma year_range (d : Z) : 0 <= d < day_from_year 10000 -> 1970 <= year_from_day d <= 9999.
Proof.
  intros Hd. pose proof (year_from_day_bounds d) as [H1 H2]. split.
  - destruct (Z.le_gt_cases 1970 (year_from_day d)) as [|Hlt]; [assumption|].
    pose proof (day_from_year_mono (year_from_day d + 1) 1970 ltac:(lia)).
    change (day_from_year 1970) with 0 in H. lia.
  - destruct (Z.le_gt_cases (year_from_day d) 9999) as [|Hlt]; [assumption|].
    pose proof (day_from_year_mono 10000 (year_from_day d) ltac:(lia)). lia.
Qed.

Lemma month_length_le (leap m : Z) : (leap = 0 \/ leap = 1) -> 0 <= m <= 11 -> month_length leap m <= 31.
Proof.
  intros Hl Hm. apply Z.leb_le. revert m Hm.
  destruct Hl as [-> | ->]; intros m Hm;
    (apply (forall_range_sound (fun m => month_length _ m <=? 31) 12 0); [vm_compute; reflexivity | simpl; lia]).
Qed.

Lemma days_in_year_leap (y : Z) : days_in_year y = 365 + in_leap_year y.
Proof. unfold in_leap_year. pose proof (days_in_year_range y). destruct (Z.eqb_spec (days_in_year y) 366); lia. Qed.

Lemma in_leap_year_cases (y : Z) : in_leap_year y = 0 \/ in_leap_year y = 1.
Proof. unfold in_leap_year. destruct (days_in_year y =? 366); auto. Qed.

Lemma iso_string_len (t : Z) :
  0 <= t < day_from_year 10000 * ms_per_day -> length (iso_string t) = 24%nat.
Proof.
  intros Ht. unfold iso_string.
  assert (Hd : 0 <= day t < day_from_year 10000).
  { unfold day, ms_per_day in *. split; [apply Z.div_pos; lia | apply Z.div_lt_upper_bound; lia]. }
  set (d := day t) in *. set (y := year_from_day d).
  pose proof (year_range d Hd) as Hy. fold y in Hy.
  pose proof (year_from_day_bounds d) as Hb. fold y in Hb.
  pose proof (day_from_year_step y) as Hstep. rewrite days_in_year_leap in Hstep.
  set (leap := in_leap_year y) in *.
  assert (Hl : leap = 0 \/ leap = 1) by apply in_leap_year_cases.
  set (dwy := d - day_from_year y).
  destruct (calendar_fields leap dwy Hl ltac:(unfold dwy; lia)) as (Hm & Hdt & _).
  pose proof (month_length_le leap (month_from_dwy leap dwy) Hl Hm).
  assert (Hms : 0 <= time_within_day t < 86400000) by (apply Z.mod_pos_bound; reflexivity).
  set (ms := time_within_day t) in *.
  unfold year_string. replace ((0 <=? y) && (y <=? 9999)) with true by (symmetry; apply andb_true_intro; split; apply Z.leb_le; lia).
  rewrite !length_app. cbn [length].
  rewrite (pad_length 4 y) by (simpl; lia).
  rewrite (pad_length 2 (month_from_dwy leap dwy + 1)) by (simpl; lia).
  rewrite (pad_length 2 (date_from_dwy leap dwy)) by (simpl; lia).
  rewrite (pad_length 2 (ms / 3600000)) by (simpl; first [lia | split; [apply Z.div_pos | apply Z.div_lt_upper_bound]; lia]).
  rewrite (pad_length 2 (ms / 60000 mod 60)) by (simpl; try lia; pose proof (Z.mod_pos_bound (ms / 60000) 60 ltac:(lia)); lia).
  rewrite (pad_length 2 (ms / 1000 mod 60)) by (simpl; try lia; pose proof (Z.mod_pos_bound (ms / 1000) 60 ltac:(lia)); lia).
  rewrite (pad_length 3 (ms mod 1000)) by (simpl; try lia; pose proof (Z.mod_pos_bound ms 1000 ltac:(lia)); lia).
  reflexivity.
Qed.

(** For every time value from 1970 to the end of year
    9999, [toISOString] prints exactly 24 code units,
    [YYYY-MM-DDTHH:mm:ss.sssZ]: every field fits its width, the year in
    four digits, the month in [01, 12], the date in [01, 31]. *)
Theorem iso_string_length (t : Z) :
  0 <= t < day_from_year 10000 * ms_per_day -> length (iso_string t) = 24%nat.
Proof. apply iso_string_len. Qed.

Lemma month_date_spec_witness :
  (0 = 0 \/ 0 = 1) /\ 0 <= 59 < 365 + 0 /\
  (0 <= month_from_dwy 0 59 <= 11 /\ 1 <= date_from_dwy 0 59 <= month_length 0 (month_from_dwy 0 59) /\
   59 = month_first 0 (month_from_dwy 0 59) + date_from_dwy 0 59 - 1).
Proof. split; [left; reflexivity|]. split; [lia|]. apply (month_date_spec 0 59); [left; reflexivity | lia]. Defined.

Lemma iso_string_length_witness :
  length (iso_string 1724003600001) = 24%nat.
Proof.
  apply iso_string_length. change (day_from_year 10000 * ms_per_day) with 253402300800000. lia.
Defined.
