(* ===== verification/Response.v ===== *)
(** * The response object [res]

    The handler writes its answer through Node's [ServerResponse] with
    Vercel's helpers: [res.setHeader(name, value)] (lines 3-6),
    [res.status(code)] (lines 9, 14, 22, 29, 82, 89, 94), [res.json(obj)]
    (the same lines but 9) and [res.end()] (line 9).  The response is a
    record, each method a function on it:
    - [setHeader] keys headers by their lower-cased name (a second call
      with the same name replaces the value in place) and throws once the
      response is finished (Node's ERR_HTTP_HEADERS_SENT);
    - [status] only sets [statusCode];
    - [json] serialises its argument with JSON.stringify, sets
      [content-type: application/json; charset=utf-8] unless a content type
      is already set, and ends the response with that body;
    - [end] ends the response with an empty body.
    Content-Length and ETag, which Vercel's [send] adds from the body, are
    not modelled. *)

From Stdlib Require Import String ZArith List Lia Bool.
From S2P Require Import Prelude JsString JsNumber JsValue Json.
Import ListNotations.
Open Scope Z_scope.
Local Open Scope js_scope.

Record response := mk_response {
  res_headers : list (jstr * (jstr * value));
  res_status_code : Z;
  res_body : option jstr;
  res_finished : bool
}.

(** A fresh [ServerResponse]: status 200, no header, not finished. *)
Definition initial_response : response := mk_response [] 200 None false.

Definition ascii_lower (c : code_unit) : code_unit :=
  if (65 <=? c) && (c <=? 90) then c + 32 else c.

Definition lower (s : jstr) : jstr := map ascii_lower s.

Fixpoint put_header (key : jstr) (entry : jstr * value)
    (hs : list (jstr * (jstr * value))) : list (jstr * (jstr * value)) :=
  match hs with
  | [] => [(key, entry)]
  | (k, e) :: r => if jstr_eqb k key then (k, entry) :: r else (k, e) :: put_header key entry r
  end.

Fixpoint get_header (key : jstr) (hs : list (jstr * (jstr * value))) : option value :=
  match hs with
  | [] => None
  | (k, (_, v)) :: r => if jstr_eqb k key then Some v else get_header key r
  end.

Definition headers_sent : js_error :=
  mk_error PlainError (js "Cannot set headers after they are sent to the client"%string).

(** [res.getHeader(name)]. *)
Definition res_get_header (name : jstr) (r : response) : option value :=
  get_header (lower name) (res_headers r).

(** [res.setHeader(name, value)]. *)
Definition res_set_header (name : jstr) (v : value) (r : response) : completion response :=
  if res_finished r then Throw headers_sent
  else Normal (mk_response (put_header (lower name) (name, v) (res_headers r))
                 (res_status_code r) (res_body r) false).

(** [res.status(code)]. *)
Definition res_status (code : Z) (r : response) : response :=
  mk_response (res_headers r) code (res_body r) (res_finished r).

Definition content_type : jstr := js "content-type"%string.
Definition json_content_type : jstr := js "application/json; charset=utf-8"%string.

(** [res.end()]: the response is sent with an empty body. *)
Definition res_end (r : response) : response :=
  mk_response (res_headers r) (res_status_code r) (Some []) true.

(** [res.json(obj)]. *)
Definition res_json (obj : value) (r : response) : completion response :=
  let body := json_stringify obj in
  r1 <-? (match res_get_header content_type r with
          | Some v => if to_boolean v then Normal r else res_set_header content_type (VString json_content_type) r
          | None => res_set_header content_type (VString json_content_type) r
          end) ;;
  Normal (mk_response (res_headers r1) (res_status_code r1)
            (Some (match body with Some b => b | None => [] end)) true).

(** A response with one header, as [setHeader] leaves it (used by the
    examples below). *)
Definition demo_header_response : response :=
  mk_response [(js "content-type"%string, (js "Content-Type"%string, VString (js "text/plain"%string)))]
    200 None false.

(** ** The life cycle of [res] *)

(** The methods the handler calls on [res]. *)
Inductive res_op :=
| ROSetHeader (name : jstr) (v : value)
| ROStatus (code : Z)
| ROJson (obj : value)
| ROEnd.

Definition res_apply (op : res_op) (r : response) : completion response :=
  match op with
  | ROSetHeader name v => res_set_header name v r
  | ROStatus code => Normal (res_status code r)
  | ROJson obj => res_json obj r
  | ROEnd => Normal (res_end r)
  end.

(** The responses a sequence of method calls that do not throw can leave,
    from a fresh [ServerResponse]. *)
Inductive reachable : response -> Prop :=
| reach_init : reachable initial_response
| reach_step (r : response) (op : res_op) (r' : response) :
    reachable r -> res_apply op r = Normal r' -> reachable r'.

(** One entry per lower-cased header name, keyed by the lower-cased form
    of the name it was set with; a body exactly when the response is
    finished. *)
Definition res_wf (r : response) : Prop :=
  NoDup (map fst (res_headers r)) /\
  Forall (fun e => fst e = lower (fst (snd e))) (res_headers r) /\
  (res_finished r = true <-> res_body r <> None).

(** * Properties *)

Lemma get_put_header_same (key : jstr) (entry : jstr * value) (hs : list (jstr * (jstr * value))) :
  get_header key (put_header key entry hs) = Some (snd entry).
Proof.
  destruct entry as [n v]. induction hs as [|[k [n' v']] hs IH]; simpl.
  - now rewrite jstr_eqb_refl.
  - destruct (jstr_eqb k key) eqn:E; simpl; rewrite ?E; auto.
Qed.

Lemma get_put_header_other (key key' : jstr) (entry : jstr * value)
    (hs : list (jstr * (jstr * value))) :
  key' <> key -> get_header key' (put_header key entry hs) = get_header key' hs.
Proof.
  intros Hne. destruct entry as [n v].
  induction hs as [|[k [n' v']] hs IH]; simpl.
  - destruct (jstr_eqb key key') eqn:E; [apply jstr_eqb_eq in E; congruence | reflexivity].
  - destruct (jstr_eqb k key) eqn:E; simpl.
    + apply jstr_eqb_eq in E; subst k.
      destruct (jstr_eqb key key') eqn:E'; [apply jstr_eqb_eq in E'; congruence | reflexivity].
    + destruct (jstr_eqb k key'); [reflexivity | exact IH].
Qed.

Lemma put_header_keys (key : jstr) (entry : jstr * value) (hs : list (jstr * (jstr * value))) :
  incl (map fst (put_header key entry hs)) (key :: map fst hs).
Proof.
  induction hs as [|[k e] hs IH]; simpl; [apply incl_refl|].
  destruct (jstr_eqb k key) eqn:E; simpl.
  - apply jstr_eqb_eq in E; subst. intros x [->|Hx]; simpl; auto.
  - intros x [->|Hx]; simpl; auto. apply IH in Hx as [->|Hx]; auto.
Qed.

(** After [res.setHeader(name, v)] succeeds, reading a
    header whose name is the same up to ASCII case gives [v], and reading
    any other header gives what it gave before. *)
Theorem set_get_header (name name' : jstr) (v : value) (r r' : response) :
  res_set_header name v r = Normal r' ->
  res_get_header name' r' =
  if jstr_eqb (lower name') (lower name) then Some v else res_get_header name' r.
Proof.
  unfold res_set_header, res_get_header. destruct (res_finished r); [discriminate|].
  intros H. injection H as <-. simpl.
  destruct (jstr_eqb (lower name') (lower name)) eqn:E.
  - apply jstr_eqb_eq in E. rewrite E. apply get_put_header_same.
  - apply get_put_header_other. intros E'. rewrite E', jstr_eqb_refl in E. discriminate.
Qed.

(** [setHeader] keeps one entry per lower-cased name:
    if the header names of a response are distinct, they still are after
    any successful [setHeader]. *)
Theorem set_header_nodup (name : jstr) (v : value) (r r' : response) :
  NoDup (map fst (res_headers r)) -> res_set_header name v r = Normal r' ->
  NoDup (map fst (res_headers r')).
Proof.
  unfold res_set_header. destruct (res_finished r); [discriminate|].
  intros Hnd H. injection H as <-. simpl. revert Hnd.
  generalize (res_headers r) as hs. intros hs.
  induction hs as [|[k e] hs IH]; simpl; intros Hnd.
  - repeat constructor. intros [].
  - inv Hnd. destruct (jstr_eqb k (lower name)) eqn:E; simpl; constructor; auto.
    intros Hin. apply put_header_keys in Hin as [<-|Hin]; [|contradiction].
    now rewrite jstr_eqb_refl in E.
Qed.

(** [res.json(obj)] on a response that is not finished
    and has no content type sets [content-type] to
    [application/json; charset=utf-8], keeps the status, and finishes the
    response with the JSON text of [obj] as its body. *)
Theorem res_json_spec (obj : value) (r : response) :
  res_finished r = false -> res_get_header content_type r = None ->
  exists r', res_json obj r = Normal r' /\
    res_get_header content_type r' = Some (VString json_content_type) /\
    res_status_code r' = res_status_code r /\ res_finished r' = true /\
    res_body r' = Some (match json_stringify obj with Some b => b | None => [] end).
Proof.
  intros Hf Hc. unfold res_json. rewrite Hc. unfold res_set_header. rewrite Hf. simpl.
  eexists. split; [reflexivity|]. repeat split.
  unfold res_get_header. simpl. change (lower content_type) with content_type.
  apply get_put_header_same.
Qed.

Lemma put_header_forall (P : jstr * (jstr * value) -> Prop) (key : jstr) (entry : jstr * value)
    (hs : list (jstr * (jstr * value))) :
  Forall P hs -> P (key, entry) -> Forall P (put_header key entry hs).
Proof.
  intros Hs He. induction Hs as [|[k e] hs Hk Hs IH]; simpl; [now constructor|].
  destruct (jstr_eqb k key) eqn:E; constructor; auto.
  apply jstr_eqb_eq in E. now subst.
Qed.

Lemma set_header_wf (name : jstr) (v : value) (r r' : response) :
  res_wf r -> res_set_header name v r = Normal r' -> res_wf r'.
Proof.
  intros (Hnd & Hk & Hb) H. pose proof (set_header_nodup name v r r' Hnd H) as Hnd'.
  unfold res_set_header in H. destruct (res_finished r) eqn:Hf; [discriminate|].
  injection H as <-. split; [exact Hnd'|]. cbn. split.
  - apply put_header_forall; [exact Hk | reflexivity].
  - split; [discriminate|]. intros Hne. exfalso. apply Hne. destruct (res_body r); [|reflexivity].
    exfalso. pose proof (proj2 Hb ltac:(discriminate)). discriminate.
Qed.

(** Every method call that does not throw keeps a response well formed. *)
Lemma res_apply_wf (op : res_op) (r r' : response) :
  res_wf r -> res_apply op r = Normal r' -> res_wf r'.
Proof.
  intros Hw H. destruct op as [name v|code|obj|]; cbn in H.
  - exact (set_header_wf name v r r' Hw H).
  - injection H as <-. exact Hw.
  - unfold res_json in H.
    assert (Hr1 : forall r1, (match res_get_header content_type r with
                              | Some v => if to_boolean v then Normal r else res_set_header content_type (VString json_content_type) r
                              | None => res_set_header content_type (VString json_content_type) r
                              end) = Normal r1 -> res_wf r1).
    { intros r1. destruct (res_get_header content_type r) as [v|]; [destruct (to_boolean v)|];
        [intros E; now injection E as <- | apply set_header_wf; exact Hw | apply set_header_wf; exact Hw]. }
    destruct (match res_get_header content_type r with
              | Some v => if to_boolean v then Normal r else res_set_header content_type (VString json_content_type) r
              | None => res_set_header content_type (VString json_content_type) r
              end) as [r1|e] eqn:E; [|discriminate].
    injection H as <-. destruct (Hr1 r1 eq_refl) as (Hnd & Hk & _).
    split; [exact Hnd|]. split; [exact Hk|]. cbn. split; [discriminate | reflexivity].
  - injection H as <-. destruct Hw as (Hnd & Hk & _). split; [exact Hnd|]. split; [exact Hk|].
    cbn. split; [discriminate | reflexivity].
Qed.

Lemma reachable_wf (r : response) : reachable r -> res_wf r.
Proof.
  induction 1 as [|r op r' _ IH H].
  - split; [constructor|]. split; [constructor|]. cbn. split; [discriminate | now intros []].
  - exact (res_apply_wf op r r' IH H).
Qed.

(** Once the response is sent, no method that does not throw changes its
    headers, and it stays sent. *)
Lemma finished_frozen (op : res_op) (r r' : response) :
  res_finished r = true -> res_apply op r = Normal r' ->
  res_headers r' = res_headers r /\ res_finished r' = true.
Proof.
  intros Hf H. destruct op as [name v|code|obj|]; cbn in H.
  - unfold res_set_header in H. now rewrite Hf in H.
  - injection H as <-. split; [reflexivity | exact Hf].
  - unfold res_json, res_set_header in H. rewrite Hf in H.
    destruct (res_get_header content_type r) as [v|]; [destruct (to_boolean v)|]; try discriminate.
    injection H as <-. split; reflexivity.
  - injection H as <-. split; reflexivity.
Qed.

Lemma set_get_header_witness :
  res_get_header (js "CONTENT-TYPE"%string) demo_header_response =
  if jstr_eqb (lower (js "CONTENT-TYPE"%string)) (lower (js "Content-Type"%string))
  then Some (VString (js "text/plain"%string))
  else res_get_header (js "CONTENT-TYPE"%string) initial_response.
Proof. apply (set_get_header (js "Content-Type"%string)). reflexivity. Defined.

Lemma set_header_nodup_witness :
  NoDup (map fst (res_headers demo_header_response)).
Proof.
  apply (set_header_nodup (js "Content-Type"%string) (VString (js "text/plain"%string)) initial_response);
    [constructor | reflexivity].
Defined.

Lemma res_json_spec_witness :
  exists r', res_json VNull initial_response = Normal r' /\
    res_get_header content_type r' = Some (VString json_content_type) /\
    res_status_code r' = res_status_code initial_response /\ res_finished r' = true /\
    res_body r' = Some (match json_stringify VNull with Some b => b | None => [] end).
Proof. apply res_json_spec; reflexivity. Defined.
