(* ===== verification/Handler.v ===== *)
(** * The handler [src/api/gerar-pix.js]

    The handler is an [async] function; its two [await]s (lines 59 and 69)
    only sequence it, so it is modelled as a state-and-exception monad [M]
    over an explicit [platform]:
    - [env_token]: [process.env.PAGBANK_TOKEN] (a string or undefined),
      read once per request and never written;
    - [clock]: the readings of [Date.now()], the [i]-th call seeing
      [clock i] (the handler calls it twice, lines 35 and 53);
    - [provider]: what [fetch] gives for a request: a rejection (network
      failure) or an HTTP response, its status and body text;
      [response.json()] is then [JSON.parse] of the body ([JsonParse]),
      a value or the SyntaxError of a body that is not JSON.
    The state records the response object, the [console.error] log, every
    request sent with [fetch] and the number of clock readings.  A [Throw]
    at the end is an exception that escapes the handler: the returned
    promise rejects.

    [handler] follows the source line by line; the helper definitions
    model one expression each and name its line. *)

From Stdlib Require Import String ZArith List Lia Bool Floats.
From S2P Require Import Prelude JsString JsNumber JsValue Json JsonParse IsoDate Response.
Import ListNotations.
Open Scope Z_scope.
Local Open Scope js_scope.

(** ** Requests, the platform and the state *)
Record request := mk_request { req_method : jstr; req_body : value }.

Record fetch_request := mk_fetch {
  fetch_url : jstr;
  fetch_method : jstr;
  fetch_headers : list (jstr * jstr);
  fetch_body : jstr
}.

(** The response [fetch] resolves to: its HTTP status and its body text. *)
Record http_response := mk_http { http_status : Z; http_body : jstr }.

Inductive fetch_outcome :=
| FetchRejected (e : js_error)
| FetchResolved (resp : http_response).

Record platform := mk_platform {
  env_token : option jstr;
  clock : nat -> Z;
  provider : fetch_request -> fetch_outcome
}.

(** An argument of [console.error]. *)
Inductive log_arg := LogValue (v : value) | LogError (e : js_error).

Record state := mk_state {
  st_res : response;
  st_log : list (list log_arg);
  st_fetches : list fetch_request;
  st_clock_reads : nat
}.

Definition initial_state : state := mk_state initial_response [] [] O.

(** ** The monad *)
Definition M (A : Type) : Type := platform -> state -> state * completion A.

Definition mret {A} (a : A) : M A := fun _ s => (s, Normal a).

Definition mbind {A B} (m : M A) (f : A -> M B) : M B :=
  fun p s =>
    let '(s', c) := m p s in
    match c with Normal a => f a p s' | Throw e => (s', Throw e) end.

(** A completion of a pure expression, in the monad. *)
Definition mlift {A} (c : completion A) : M A := fun _ s => (s, c).

(** [try { m } catch (e) { h(e) }]: the effects of [m] up to the throw
    are kept. *)
Definition mtry {A} (m : M A) (h : js_error -> M A) : M A :=
  fun p s =>
    let '(s', c) := m p s in
    match c with Normal a => (s', Normal a) | Throw e => h e p s' end.

Declare Scope handler_scope.
Notation "x <- m ;; k" := (mbind m (fun x => k))
  (at level 61, m at next level, right associativity) : handler_scope.
Notation "m ;; k" := (mbind m (fun _ => k))
  (at level 61, right associativity) : handler_scope.
Local Open Scope handler_scope.

(** ** Effects *)

(** [process.env.PAGBANK_TOKEN] (line 18). *)
Definition read_env_token : M value :=
  fun p s => (s, Normal (match env_token p with Some t => VString t | None => VUndefined end)).

(** [Date.now()]: the next clock reading, as a Number. *)
Definition date_now : M number :=
  fun p s =>
    (mk_state (st_res s) (st_log s) (st_fetches s) (S (st_clock_reads s)),
     Normal (float_of_Z (clock p (st_clock_reads s)))).

(** [console.error(...args)]. *)
Definition console_error (args : list log_arg) : M unit :=
  fun _ s =>
    (mk_state (st_res s) (st_log s ++ [args]) (st_fetches s) (st_clock_reads s), Normal tt).

(** [await fetch(url, init)]: the request is sent; the promise rejects on
    a network failure and otherwise gives the response, whatever its
    HTTP status. *)
Definition fetch (r : fetch_request) : M http_response :=
  fun p s =>
    let s' := mk_state (st_res s) (st_log s) (st_fetches s ++ [r]) (st_clock_reads s) in
    match provider p r with
    | FetchRejected e => (s', Throw e)
    | FetchResolved resp => (s', Normal resp)
    end.

(** [await response.json()]: [JSON.parse] of the body text. *)
Definition response_json (resp : http_response) : M value := mlift (json_parse (http_body resp)).

(** A method of [res] that may throw, and one that cannot. *)
Definition res_call (f : response -> completion response) : M unit :=
  fun _ s =>
    match f (st_res s) with
    | Normal r => (mk_state r (st_log s) (st_fetches s) (st_clock_reads s), Normal tt)
    | Throw e => (s, Throw e)
    end.

Definition res_update (f : response -> response) : M unit :=
  res_call (fun r => Normal (f r)).

(** [return res.status(code).json(obj)]. *)
Definition reply (code : Z) (obj : value) : M unit :=
  res_update (res_status code) ;; res_call (res_json obj).

(** ** The literals of the source *)
Definition s_ (s : string) : value := VString (js s).

Definition h_credentials := js "Access-Control-Allow-Credentials"%string.
Definition h_origin := js "Access-Control-Allow-Origin"%string.
Definition h_methods := js "Access-Control-Allow-Methods"%string.
Definition h_headers := js "Access-Control-Allow-Headers"%string.
Definition v_methods := js "GET,OPTIONS,PATCH,DELETE,POST,PUT"%string.
Definition v_headers := js ("X-CSRF-Token, X-Requested-With, Accept, Accept-Version, "
  ++ "Content-Length, Content-MD5, Content-Type, Date, X-Api-Version")%string.

Definition m_options := js "OPTIONS"%string.
Definition m_post := js "POST"%string.

Definition k_error := js "error"%string.
Definition k_detalhe := js "detalhe"%string.

(** 'Método não permitido' *)
Definition msg_method := js "M"%string ++ [233] ++ js "todo n"%string ++ [227] ++ js "o permitido"%string.
(** "Erro: Token PAGBANK_TOKEN não encontrado na Vercel" *)
Definition msg_token_log :=
  js "Erro: Token PAGBANK_TOKEN n"%string ++ [227] ++ js "o encontrado na Vercel"%string.
(** 'Configuração de servidor pendente (Token).' *)
Definition msg_token :=
  js "Configura"%string ++ [231; 227] ++ js "o de servidor pendente (Token)."%string.
(** 'CPF é obrigatório para Pix no PagBank.' *)
Definition msg_cpf :=
  js "CPF "%string ++ [233] ++ js " obrigat"%string ++ [243] ++ js "rio para Pix no PagBank."%string.
Definition msg_rejected := js "O PagBank recusou o pedido. Verifique o CPF."%string.
Definition msg_log_rejected := js "Erro PagBank:"%string.
Definition msg_log_internal := js "Erro interno:"%string.

Definition pagbank_url := js "https://api.pagseguro.com/orders"%string.
Definition qrcode_png := js "QRCODE.PNG"%string.

(** ** The expressions of the handler *)

(** [const { valor, nome, cpf } = req.body] (line 25), with V8's message
    when the body is undefined or null. *)
Definition destructure_body (body : value) : completion (value * value * value) :=
  match body with
  | VUndefined | VNull =>
      Throw (mk_error TypeError
               (js "Cannot destructure property 'valor' of 'req.body' as it is "%string
                ++ to_string body ++ js "."%string))
  | _ =>
      valor <-? get_prop body (js "valor"%string) ;;
      nome <-? get_prop body (js "nome"%string) ;;
      cpf <-? get_prop body (js "cpf"%string) ;;
      Normal (valor, nome, cpf)
  end.

(** [cpf.replace(/\D/g, '')] (line 39): a string method, so a truthy
    non-string [cpf] has no callable [replace]. *)
Definition replace_cpf (cpf : value) : completion value :=
  match cpf with
  | VString s => Normal (VString (strip_non_digits s))
  | VUndefined | VNull => cbind (get_prop cpf (js "replace"%string)) (fun _ => Normal VUndefined)
  | _ => Throw (mk_error TypeError (js "cpf.replace is not a function"%string))
  end.

(** [Math.round(valor * 100)] (lines 45 and 51). *)
Definition amount_cents (valor : value) : number := math_round (times_100 (to_number valor)).

(** [new Date(Date.now() + 3600 * 1000).toISOString()] (line 53), once
    [Date.now()] has given [now]. *)
Definition expiration_date (now : number) : completion jstr :=
  date_to_iso_string (now + 3600 * 1000)%float.

(** The order literal of lines 34-56. *)
Definition pedido (now1 : number) (name tax_id : value) (cents1 : number)
    (cents2 : number) (expiry : jstr) : value :=
  VObject
    [(js "reference_id"%string, VString (js "PEDIDO-"%string ++ NumberToString now1));
     (js "customer"%string,
      VObject [(js "name"%string, name);
               (js "email"%string, s_ "cliente@loja.com");
               (js "tax_id"%string, tax_id)]);
     (js "items"%string,
      VArray [VObject [(js "name"%string, s_ "Salgados Tia Ana");
                       (js "quantity"%string, VNumber 1%float);
                       (js "unit_amount"%string, VNumber cents1)]]);
     (js "qr_codes"%string,
      VArray [VObject [(js "amount"%string, VObject [(js "value"%string, VNumber cents2)]);
                       (js "expiration_date"%string, VString expiry)]])].

(** The [fetch] of lines 59-67. *)
Definition order_request (token : value) (order : value) : fetch_request :=
  mk_fetch pagbank_url m_post
    [(js "Authorization"%string, js "Bearer "%string ++ to_string token);
     (js "Content-Type"%string, js "application/json"%string);
     (js "accept"%string, js "application/json"%string)]
    (match json_stringify order with Some b => b | None => [] end).

(** The callback [l => l.rel === "QRCODE.PNG"] (line 78). *)
Definition is_qrcode_png (l : value) : completion value :=
  rel <-? get_prop l (js "rel"%string) ;; Normal (VBool (strict_eq_string rel qrcode_png)).

(** [pix.links.find(...)] (line 78), [pix.links] being truthy. *)
Definition find_qrcode_link (links : value) : completion value :=
  match links with
  | VArray vs => array_find is_qrcode_png vs
  | VUndefined | VNull => cbind (get_prop links (js "find"%string)) (fun _ => Normal VUndefined)
  | _ => Throw (mk_error TypeError (js "pix.links.find is not a function"%string))
  end.

(** Lines 76-80: the image link, or null. *)
Definition qr_image (pix : value) : completion value :=
  links <-? get_prop pix (js "links"%string) ;;
  if to_boolean links then
    found <-? find_qrcode_link links ;;
    if to_boolean found then get_prop found (js "href"%string) else Normal VNull
  else Normal VNull.

(** [data.qr_codes && data.qr_codes.length > 0] (line 72). *)
Definition has_qr_codes (data : value) : completion bool :=
  qrs <-? get_prop data (js "qr_codes"%string) ;;
  if to_boolean qrs then
    len <-? get_prop qrs length_key ;; Normal (greater_than_zero len)
  else Normal false.

(** Lines 72-90, once [data] is parsed: the answer to the client. *)
Definition answer (data : value) : M unit :=
  ok <- mlift (has_qr_codes data) ;;
  if ok then
    pix <- mlift (cbind (get_prop data (js "qr_codes"%string)) (fun q => get_prop q (js "0"%string))) ;;
    img <- mlift (qr_image pix) ;;
    id <- mlift (get_prop data (js "id"%string)) ;;
    text <- mlift (get_prop pix (js "text"%string)) ;;
    reply 200 (VObject [(js "id"%string, id); (js "qr_code"%string, text);
                        (js "qr_code_base64_url"%string, img)])
  else
    console_error [LogValue (VString msg_log_rejected);
                   LogValue (match json_stringify data with Some t => VString t | None => VUndefined end)] ;;
    reply 400 (VObject [(k_error, VString msg_rejected); (k_detalhe, data)]).

(** The body of the [try] (lines 33-90). *)
Definition create_order (token valor nome cpf : value) : M unit :=
  now1 <- date_now ;;
  let name := js_or nome (s_ "Cliente") in
  tax_id <- mlift (replace_cpf cpf) ;;
  let cents1 := amount_cents valor in
  let cents2 := amount_cents valor in
  now2 <- date_now ;;
  expiry <- mlift (expiration_date now2) ;;
  response <- fetch (order_request token (pedido now1 name tax_id cents1 cents2 expiry)) ;;
  data <- response_json response ;;
  answer data.

(** The [catch] (lines 92-95). *)
Definition internal_error (e : js_error) : M unit :=
  console_error [LogValue (VString msg_log_internal); LogError e] ;;
  reply 500 (VObject [(k_error, VString (err_message e))]).

(** The CORS headers of lines 3-6. *)
Definition set_cors_headers : M unit :=
  res_call (res_set_header h_credentials (VBool true)) ;;
  res_call (res_set_header h_origin (s_ "*")) ;;
  res_call (res_set_header h_methods (VString v_methods)) ;;
  res_call (res_set_header h_headers (VString v_headers)).

(** Lines 25-30 and the [try] of lines 32-95, for a POST with a token. *)
Definition handle_post (token : value) (body : value) : M unit :=
  fields <- mlift (destructure_body body) ;;
  let '(valor, nome, cpf) := fields in
  if negb (to_boolean cpf) then
    reply 400 (VObject [(k_error, VString msg_cpf)])
  else
    mtry (create_order token valor nome cpf) internal_error.

(** Lines 8-95. *)
Definition route (req : request) : M unit :=
  if jstr_eqb (req_method req) m_options then
    res_update (res_status 200) ;; res_update res_end
  else if negb (jstr_eqb (req_method req) m_post) then
    reply 405 (VObject [(k_error, VString msg_method)])
  else
    token <- read_env_token ;;
    if negb (to_boolean token) then
      console_error [LogValue (VString msg_token_log)] ;;
      reply 500 (VObject [(k_error, VString msg_token)])
    else handle_post token (req_body req).

(** [handler(req, res)], lines 1-96. *)
Definition handler (req : request) : M unit :=
  set_cors_headers ;; route req.

(** One invocation from a fresh response. *)
Definition run (p : platform) (req : request) : state * completion unit :=
  handler req p initial_state.
