(* ===== verification/ResponseLife.v ===== *)
(** * The response the handler leaves

    [Response] gives the life cycle of [res] as a reachability relation
    ([reachable]: the responses a sequence of [setHeader], [status],
    [json] and [end] calls leaves from a fresh one) and proves by rule
    induction that every reachable response is well formed ([res_wf]:
    one entry per lower-cased header name, a body exactly when it is
    sent).  This file proves that the handler only ever touches [res]
    through those methods, so whatever the platform and the request, the
    response it leaves is reachable, hence well formed.

    The proof is a frame property of the monad proved once per
    combinator ([keeps_reachable]), collected in the hint database
    [reach]. *)

From Stdlib Require Import String ZArith List Lia Bool Floats.
From S2P Require Import Prelude JsString JsValue Response Handler.
Import ListNotations.
Open Scope Z_scope.
Local Open Scope handler_scope.

(** An action that leaves a reachable response reachable, whether it
    returns or throws. *)
Definition keeps_reachable {A} (m : M A) : Prop :=
  forall p s, reachable (st_res s) -> reachable (st_res (fst (m p s))).

(** * Properties *)

Create HintDb reach.

Lemma mlift_reach {A} (c : completion A) : keeps_reachable (mlift c).
Proof. intros p s H. exact H. Qed.

Lemma mbind_reach {A B} (m : M A) (f : A -> M B) :
  keeps_reachable m -> (forall a, keeps_reachable (f a)) -> keeps_reachable (mbind m f).
Proof.
  intros Hm Hf p s H. unfold mbind. specialize (Hm p s H).
  destruct (m p s) as [s' [a|e]]; [apply Hf|]; exact Hm.
Qed.

Lemma mtry_reach {A} (m : M A) (h : js_error -> M A) :
  keeps_reachable m -> (forall e, keeps_reachable (h e)) -> keeps_reachable (mtry m h).
Proof.
  intros Hm Hh p s H. unfold mtry. specialize (Hm p s H).
  destruct (m p s) as [s' [a|e]]; [|apply Hh]; exact Hm.
Qed.

Lemma read_env_token_reach : keeps_reachable read_env_token.
Proof. intros p s H. exact H. Qed.

Lemma date_now_reach : keeps_reachable date_now.
Proof. intros p s H. exact H. Qed.

Lemma console_error_reach (args : list log_arg) : keeps_reachable (console_error args).
Proof. intros p s H. exact H. Qed.

Lemma fetch_reach (r : fetch_request) : keeps_reachable (fetch r).
Proof. intros p s H. unfold fetch. destruct (provider p r); exact H. Qed.

Lemma response_json_reach (resp : http_response) : keeps_reachable (response_json resp).
Proof. apply mlift_reach. Qed.

(** A call of one of [res]'s methods. *)
Lemma res_call_reach (op : res_op) : keeps_reachable (res_call (res_apply op)).
Proof.
  intros p s H. unfold res_call. destruct (res_apply op (st_res s)) as [r|e] eqn:E; [|exact H].
  exact (reach_step _ op r H E).
Qed.

Lemma set_header_reach (name : jstr) (v : value) : keeps_reachable (res_call (res_set_header name v)).
Proof. exact (res_call_reach (ROSetHeader name v)). Qed.

Lemma status_reach (code : Z) : keeps_reachable (res_update (res_status code)).
Proof. exact (res_call_reach (ROStatus code)). Qed.

Lemma end_reach : keeps_reachable (res_update res_end).
Proof. exact (res_call_reach ROEnd). Qed.

Lemma json_reach (obj : value) : keeps_reachable (res_call (res_json obj)).
Proof. exact (res_call_reach (ROJson obj)). Qed.

#[export] Hint Resolve mlift_reach read_env_token_reach date_now_reach console_error_reach
  fetch_reach response_json_reach set_header_reach status_reach end_reach json_reach : reach.

(** One step of [keeps_reachable] for the combinators. *)
Ltac reach_step :=
  match goal with
  | |- keeps_reachable (mbind _ _) => apply mbind_reach; [|intros]
  | |- keeps_reachable (mtry _ _) => apply mtry_reach; [|intros]
  | |- keeps_reachable (if ?b then _ else _) => destruct b
  | |- keeps_reachable (match ?x with _ => _ end) => destruct x
  | |- keeps_reachable (let _ := _ in _) => cbv zeta
  | |- keeps_reachable (reply _ _) => unfold reply
  end.

Ltac reach_tac := repeat (reach_step || eauto with reach).

Lemma answer_reach (data : value) : keeps_reachable (answer data).
Proof. unfold answer. reach_tac. Qed.

Lemma internal_error_reach (e : js_error) : keeps_reachable (internal_error e).
Proof. unfold internal_error. reach_tac. Qed.

Lemma create_order_reach (token valor nome cpf : value) : keeps_reachable (create_order token valor nome cpf).
Proof. unfold create_order. reach_tac; apply answer_reach. Qed.

Lemma handler_reach (req : request) : keeps_reachable (handler req).
Proof.
  unfold handler, set_cors_headers, route, handle_post.
  reach_tac; auto using create_order_reach, internal_error_reach.
Qed.

(** Whatever the platform and the request, the response
    the handler leaves is one that [res]'s methods can reach from a fresh
    [ServerResponse], so it has one entry per lower-cased header name,
    each keyed by the lower-cased name it was set with, and a body
    exactly when it has been sent. *)
Theorem handler_response_wf (p : platform) (req : request) :
  reachable (st_res (fst (run p req))) /\ res_wf (st_res (fst (run p req))).
Proof.
  assert (H : reachable (st_res (fst (run p req)))) by (apply handler_reach, reach_init).
  split; [exact H | exact (reachable_wf _ H)].
Qed.
