(* ===== verification/Order.v ===== *)
(** * The computed fields of the order (lines 35-53)

    The order literal [pedido] computes three fields from its inputs: the
    reference id from the first [Date.now()], the tax id from [cpf], and
    the QR code's expiry from the second [Date.now()].  This file proves
    that the expiry is the ISO form of the clock reading plus one hour,
    exactly: [Date.now() + 3600 * 1000] is an exact binary64 sum for every
    valid time value, and TimeClip keeps it.  It also proves that the
    reference id is ["PEDIDO-"] followed by the decimal digits of the
    clock reading, so that two orders get the same reference id exactly
    when they are built in the same millisecond. *)

From Stdlib Require Import String ZArith List Lia Bool Floats.
From S2P Require Import Prelude JsString JsNumber JsValue IsoDate Handler.
Import ListNotations.
Open Scope Z_scope.

Lemma three_thousand_six_hundred_seconds : (3600 * 1000)%float = float_of_Z 3600000.
Proof. vm_compute. reflexivity. Qed.

Lemma expiration_date_value (n : Z) :
  0 <= n -> n + 3600000 <= max_time ->
  expiration_date (float_of_Z n) = Normal (iso_string (n + 3600000)).
Proof.
  intros H0 H1. unfold expiration_date, date_to_iso_string.
  rewrite three_thousand_six_hundred_seconds, float_of_Z_add by (unfold max_time in *; lia).
  rewrite time_clip_int by lia. reflexivity.
Qed.

(** A clock reading less than one hour before the last valid time value
    (and below [2^53 - 3600000], where the sum is still exact) gives an
    invalid date: [toISOString] throws the RangeError. *)
Lemma expiration_date_invalid (n : Z) :
  0 <= n -> max_time < n + 3600000 < 2 ^ 53 ->
  expiration_date (float_of_Z n) = Throw invalid_time_value.
Proof.
  intros H0 H1. unfold expiration_date, date_to_iso_string.
  rewrite three_thousand_six_hundred_seconds, float_of_Z_add by lia.
  rewrite time_clip_float_of_Z by lia. destruct (Z.leb_spec (n + 3600000) max_time); [lia | reflexivity].
Qed.

(** C30 (functional): for every clock reading [n] from the epoch up to
    one hour before the last valid time value, the expiry of line 53 is
    [toISOString] of exactly [n + 3600000]: the addition is exact, no
    RangeError is thrown. *)
Theorem expiration_date_exact (n : Z) :
  0 <= n -> n + 3600000 <= max_time ->
  expiration_date (float_of_Z n) = Normal (iso_string (n + 3600000)).
Proof. apply expiration_date_value. Qed.

Lemma expiration_date_exact_witness :
  expiration_date (float_of_Z 1724000000001) = Normal (iso_string (1724000000001 + 3600000)).
Proof. apply expiration_date_exact; unfold max_time; lia. Defined.

Lemma reference_id_field (now1 : number) (name tax : value) (c1 c2 : number) (expiry : jstr) :
  get_prop (pedido now1 name tax c1 c2 expiry) (js "reference_id"%string)
  = Normal (VString (js "PEDIDO-"%string ++ NumberToString now1)).
Proof. reflexivity. Qed.

(** The reference id of the order built at clock
    reading [n] (line 35, ["PEDIDO-" + Date.now()]) is ["PEDIDO-"]
    followed by the plain decimal digits of [n], for every reading before
    [10^15] ms. *)
Theorem reference_id_clock (n : Z) (name tax : value) (c1 c2 : number) (expiry : jstr) :
  0 <= n < 10 ^ 15 ->
  get_prop (pedido (float_of_Z n) name tax c1 c2 expiry) (js "reference_id"%string)
  = Normal (VString (js "PEDIDO-"%string ++ Z_to_dec n)).
Proof. intros Hn. rewrite reference_id_field, NumberToString_int_aux by exact Hn. reflexivity. Qed.

(** C31 (safety): two orders get the same reference id if and only if
    they were built at the same clock reading: the id identifies the
    millisecond, and two requests served in the same millisecond collide. *)
Theorem reference_id_unique (a b : Z) (name tax name' tax' : value) (c1 c2 c1' c2' : number)
    (e e' : jstr) :
  0 <= a < 10 ^ 15 -> 0 <= b < 10 ^ 15 ->
  get_prop (pedido (float_of_Z a) name tax c1 c2 e) (js "reference_id"%string)
  = get_prop (pedido (float_of_Z b) name' tax' c1' c2' e') (js "reference_id"%string)
  <-> a = b.
Proof.
  intros Ha Hb. rewrite !reference_id_field, !NumberToString_int_aux by assumption.
  split; [|intros ->; reflexivity].
  intros E. injection E as E. now apply Z_to_dec_inj.
Qed.

(** Line 39 on every kind of [cpf] that passed the check of
    line 28: a string gives its ASCII digits in order; any other truthy
    value (a number, a boolean, an array, an object) throws the TypeError
    "cpf.replace is not a function"; undefined and null, which do not pass
    line 28, would throw V8's "Cannot read properties of ..." TypeError. *)
Theorem replace_cpf_spec (cpf : value) :
  match cpf with
  | VString s => replace_cpf cpf = Normal (VString (filter is_digit s))
  | VUndefined =>
      replace_cpf cpf = Throw (mk_error TypeError (cannot_read_msg (js "undefined"%string) (js "replace"%string)))
  | VNull =>
      replace_cpf cpf = Throw (mk_error TypeError (cannot_read_msg (js "null"%string) (js "replace"%string)))
  | _ => replace_cpf cpf = Throw (mk_error TypeError (js "cpf.replace is not a function"%string))
  end.
Proof. destruct cpf; try reflexivity. cbn [replace_cpf]. now rewrite strip_non_digits_eq. Qed.

Lemma reference_id_clock_witness :
  get_prop (pedido (float_of_Z 1724000000000) VUndefined VUndefined 0%float 0%float [])
    (js "reference_id"%string)
  = Normal (VString (js "PEDIDO-"%string ++ Z_to_dec 1724000000000)).
Proof. apply reference_id_clock. split; [lia | reflexivity]. Defined.

Lemma reference_id_unique_witness :
  get_prop (pedido (float_of_Z 1724000000000) VUndefined VUndefined 0%float 0%float [])
    (js "reference_id"%string)
  = get_prop (pedido (float_of_Z 1724000000000) VNull VNull 1%float 1%float [])
    (js "reference_id"%string)
  <-> 1724000000000 = 1724000000000.
Proof. apply reference_id_unique; split; [lia | reflexivity | lia | reflexivity]. Defined.
