(* ===== verification/Amounts.v ===== *)
(** * The amount in centavos (lines 45 and 51)

    [unit_amount] and [qr_codes[0].amount.value] are both
    [Math.round(valor * 100)].  The comment on line 45 says what it is for:
    "Converte R$ 10,00 para 1000 centavos".  This file proves that it does
    so exactly for every amount with two decimals from -R$ 999,99 to
    R$ 999,99, sent as a number or as a decimal string, by checks the
    kernel evaluates over all of them; a negative amount gives negative
    centavos, which nothing refuses.  It then shows what
    happens outside that range of intent: a third decimal is not rounded
    half up, and an amount that is not a number (a request without [valor]) or so
    large that [valor * 100] overflows reaches PagBank as [null]. *)

From Stdlib Require Import String ZArith List Lia Bool Floats.
From S2P Require Import Prelude JsString JsNumber JsValue Json Handler.
Import ListNotations.
Open Scope Z_scope.

(** [Math.round(c / 100 * 100)] is [c], for the Number nearest to [c / 100]. *)
Definition cents_ok (c : Z) : bool :=
  PrimFloat.Leibniz.eqb (amount_cents (VNumber (float_of_decimal false c (-2)))) (float_of_Z c).

(** The amount a client sends with two decimals, as [c] centavos: the
    Number nearest to [c / 100], what [JSON.parse] gives for the literal
    [12.34] or [-12.34] of the request body ... *)
Definition decimal_amount (c : Z) : number := float_of_decimal (c <? 0) (Z.abs c) (-2).

(** ... and the same amount sent as a string, ["12.34"] or ["-12.34"],
    which [valor * 100] converts with StringToNumber. *)
Definition amount_text (c : Z) : jstr :=
  (if c <? 0 then [45] else []) ++ digits_of_nonneg (Z.abs c / 100) ++
  [46; digit_char (Z.abs c mod 100 / 10); digit_char (Z.abs c mod 10)].

(** [Math.round(-c / 100 * 100)] is [-c]. *)
Definition cents_ok_neg (c : Z) : bool :=
  PrimFloat.Leibniz.eqb (amount_cents (VNumber (float_of_decimal true c (-2)))) (float_of_Z (- c)).

(** * Properties *)

Lemma cents_ok_spec (c : Z) :
  cents_ok c = true -> amount_cents (VNumber (float_of_decimal false c (-2))) = float_of_Z c.
Proof. apply FloatAxioms.Leibniz.eqb_spec. Qed.

Lemma cents_ok_below_100000 : forall_range cents_ok (Z.to_nat 100000) 0 = true.
Proof. vm_compute. reflexivity. Qed.

Lemma amount_cents_value (c : Z) :
  0 <= c < 100000 ->
  amount_cents (VNumber (float_of_decimal false c (-2))) = float_of_Z c.
Proof.
  intros Hc. apply cents_ok_spec.
  apply (forall_range_sound cents_ok (Z.to_nat 100000) 0); [exact cents_ok_below_100000 | lia].
Qed.

Lemma cents_ok_neg_below_100000 : forall_range cents_ok_neg (Z.to_nat 99999) 1 = true.
Proof. vm_compute. reflexivity. Qed.

Lemma amount_cents_neg_value (c : Z) :
  0 < c < 100000 ->
  amount_cents (VNumber (float_of_decimal true c (-2))) = float_of_Z (- c).
Proof.
  intros Hc. apply FloatAxioms.Leibniz.eqb_spec.
  apply (forall_range_sound cents_ok_neg (Z.to_nat 99999) 1); [exact cents_ok_neg_below_100000 | lia].
Qed.

Lemma amount_cents_decimal (c : Z) :
  -100000 < c < 100000 -> amount_cents (VNumber (decimal_amount c)) = float_of_Z c.
Proof.
  intros Hc. unfold decimal_amount. destruct (Z.ltb_spec c 0).
  - rewrite Z.abs_neq, amount_cents_neg_value by lia. f_equal. lia.
  - rewrite Z.abs_eq by lia. apply amount_cents_value. lia.
Qed.

Lemma dec_value_cents (n : Z) :
  0 <= n ->
  dec_value (digits_of_nonneg (n / 100) ++ [digit_char (n mod 100 / 10); digit_char (n mod 10)]) = n.
Proof.
  intros Hn. unfold dec_value. rewrite fold_left_app.
  change (fold_left dec_step (digits_of_nonneg (n / 100)) 0) with (dec_value (digits_of_nonneg (n / 100))).
  rewrite dec_value_digits by (apply Z.div_pos; lia).
  cbn [fold_left]. unfold dec_step, digit_val, digit_char.
  pose proof (Z.div_mod n 100). pose proof (Z.mod_pos_bound n 100).
  pose proof (Z.div_mod (n mod 100) 10). pose proof (Z.mod_pos_bound (n mod 100) 10).
  assert (n mod 100 mod 10 = n mod 10).
  { rewrite <- (Z.mod_mod_divide n 100 10) by (exists 10; lia). reflexivity. }
  lia.
Qed.

Lemma digit_char_digit (d : Z) : 0 <= d < 10 -> is_digit (digit_char d) = true.
Proof. intros Hd. unfold is_digit, digit_char. lia. Qed.

(** The string ["12.34"] converts to the same Number as the literal [12.34]. *)
Lemma StringToNumber_amount_text (c : Z) : StringToNumber (amount_text c) = decimal_amount c.
Proof.
  unfold amount_text, decimal_amount.
  destruct (digits_of_nonneg_shape (Z.abs c / 100)) as [Hne Hd]; [apply Z.div_pos; lia|].
  rewrite StringToNumber_decimal; [| exact Hne | exact Hd | discriminate |].
  - rewrite dec_value_cents by lia. reflexivity.
  - cbn [forallb]. rewrite !digit_char_digit; [reflexivity | |].
    + apply Z.mod_pos_bound. lia.
    + split; [apply Z.div_pos|apply Z.div_lt_upper_bound]; pose proof (Z.mod_pos_bound (Z.abs c) 100); lia.
Qed.

(** C27 (bounds): for every amount with two decimals from -R$ 999,99
    to R$ 999,99, sent as the number [12.34] (the Number nearest to
    [c / 100]) or as the string ["12.34"], [Math.round(valor * 100)] is
    exactly [c] centavos. *)
Theorem amount_cents_exact (c : Z) :
  -100000 < c < 100000 ->
  amount_cents (VNumber (decimal_amount c)) = float_of_Z c /\
  amount_cents (VString (amount_text c)) = float_of_Z c.
Proof.
  intros Hc. split; [|unfold amount_cents; cbn [to_number]; rewrite StringToNumber_amount_text];
    apply amount_cents_decimal; exact Hc.
Qed.

Lemma amount_cents_exact_witness :
  (-100000 < 1999 < 100000) /\
  amount_cents (VNumber (decimal_amount 1999)) = float_of_Z 1999 /\
  amount_cents (VString (amount_text 1999)) = float_of_Z 1999.
Proof. split; [lia | apply amount_cents_exact; lia]. Defined.

(** R$ 1,005 does not become 101 centavos, as
    [round(amount * 100)] on the decimal amount would give, but 100:
    [1.005] is stored as [1.00499999999999989...], and its product by 100
    rounds to [100.49999999999999]. *)
Example amount_cents_third_decimal :
  times_100 (StringToNumber (js "1.005"%string)) = 0x1.91fffffffffffp+6%float /\
  amount_cents (VString (js "1.005"%string)) = 100%float.
Proof. split; vm_compute; reflexivity. Qed.

(** C29 (error): when [valor * 100] is not a finite Number, because
    [valor] does not convert to a number (a request without [valor], a
    non-numeric string, an object: NaN) or because the product overflows
    binary64 (an amount from about [1.8e306] up, such as [2^1020]: an infinity), the amount
    is not rounded to an integer but kept, and [JSON.stringify] sends it
    to PagBank as [null]. *)
Theorem amount_not_finite_sent_as_null (valor : value) :
  PrimFloat.is_finite (times_100 (to_number valor)) = false ->
  json_stringify (VNumber (amount_cents valor)) = Some (js "null"%string).
Proof.
  intros H. unfold amount_cents. rewrite (math_round_nonfinite _ H).
  cbn [json_stringify serialize]. unfold json_number. now rewrite H.
Qed.

Lemma amount_not_finite_sent_as_null_witness :
  json_stringify (VNumber (amount_cents VUndefined)) = Some (js "null"%string) /\
  json_stringify (VNumber (amount_cents (VNumber 0x1p1020%float))) = Some (js "null"%string).
Proof. split; apply amount_not_finite_sent_as_null; vm_compute; reflexivity. Defined.
