(* ===== verification/HandlerSpec.v ===== *)
(** * What the handler does, path by path, and its contract

    This file evaluates [Handler.handler] symbolically.  Its lemmas give
    the exact state after the CORS prelude, the effect of
    [res.status(c).json(o)], and one-step unfoldings of the order creation
    and of the reading of the provider's answer.  Its theorems give the
    outcome of every path of the handler for every platform and request:
    the response status and body, the log, the requests sent and the
    clock readings.  The abstract contract of the endpoint (the outcome
    table of the spec, section 6) is the inductive [endpoint_contract],
    and [handler_refines_contract] proves that every invocation satisfies
    it.  The provider's answer enters every statement through
    [received]: the rejection of [fetch], or [JSON.parse] of the body of
    the response it resolves to. *)

From Stdlib Require Import String ZArith List Lia Bool Floats.

From S2P Require Import Prelude JsString JsNumber JsValue Json JsonParse IsoDate Response Handler Order.

Import ListNotations.

Open Scope Z_scope.

(** ** Definitions: states, replies, the contract, the examples *)
Definition cors_response : response :=
  mk_response
    [(lower h_credentials, (h_credentials, VBool true));
     (lower h_origin, (h_origin, s_ "*"));
     (lower h_methods, (h_methods, VString v_methods));
     (lower h_headers, (h_headers, VString v_headers))] 200 None false.

Definition cors_state : state := mk_state cors_response [] [] O.

(** The four CORS headers are present in a response. *)
Definition has_cors_headers (r : response) : Prop :=
  res_get_header h_credentials r = Some (VBool true) /\
  res_get_header h_origin r = Some (s_ "*") /\
  res_get_header h_methods r = Some (VString v_methods) /\
  res_get_header h_headers r = Some (VString v_headers).

(** The response [res.status(code).json(obj)] makes of [r]. *)
Definition json_reply_response (code : Z) (obj : value) (r : response) : response :=
  mk_response (put_header content_type (content_type, VString json_content_type) (res_headers r))
    code (Some (match json_stringify obj with Some b => b | None => [] end)) true.

Definition with_res (s : state) (r : response) : state :=
  mk_state r (st_log s) (st_fetches s) (st_clock_reads s).

Definition bump_clock (s : state) (k : nat) : state :=
  mk_state (st_res s) (st_log s) (st_fetches s) (k + st_clock_reads s)%nat.

Definition add_fetch (s : state) (r : fetch_request) : state :=
  mk_state (st_res s) (st_log s) (st_fetches s ++ [r]) (st_clock_reads s).

(** The order the handler sends, given its two clock readings. *)
Definition order_of (token valor nome cpf : value) (tax : value) (now1 : number)
    (expiry : jstr) : fetch_request :=
  order_request token
    (pedido now1 (js_or nome (s_ "Cliente")) tax (amount_cents valor) (amount_cents valor) expiry).

(** The order the handler sends on platform [p] with token [t], given
    the cleaned tax id and the expiry. *)
Definition sent_order (p : platform) (t : jstr) (valor nome cpf tax : value)
    (expiry : jstr) : fetch_request :=
  order_of (VString t) valor nome cpf tax (float_of_Z (clock p 0)) expiry.

(** What the handler receives for a request: the rejection of [fetch],
    or [JSON.parse] of the body of the response, whatever its status. *)
Definition received (p : platform) (r : fetch_request) : completion value :=
  match provider p r with
  | FetchRejected e => Throw e
  | FetchResolved resp => json_parse (http_body resp)
  end.

Definition success_body (id text img : value) : value :=
  VObject [(js "id"%string, id); (js "qr_code"%string, text);
           (js "qr_code_base64_url"%string, img)].

Definition rejected_body (data : value) : value :=
  VObject [(k_error, VString msg_rejected); (k_detalhe, data)].

Definition rejected_log (data : value) : list log_arg :=
  [LogValue (VString msg_log_rejected);
   LogValue (match json_stringify data with Some t => VString t | None => VUndefined end)].

Definition add_log (s : state) (args : list log_arg) : state :=
  mk_state (st_res s) (st_log s ++ [args]) (st_fetches s) (st_clock_reads s).

(** A link of PagBank's answer is a plain object; the image link is the
    first one whose [rel] is the string ["QRCODE.PNG"] (the spec's
    "first link whose relation is the PNG image"), found with [List.find]. *)
Definition is_object (v : value) : bool := match v with VObject _ => true | _ => false end.

Definition png_link (l : value) : bool :=
  match get_prop l (js "rel"%string) with Normal r => strict_eq_string r qrcode_png | Throw _ => false end.

(** The first QR code of the answer, [data.qr_codes[0]]. *)
Definition first_qr (data : value) : completion value :=
  cbind (get_prop data (js "qr_codes"%string)) (fun q => get_prop q (js "0"%string)).

Definition token_value (p : platform) : value :=
  match env_token p with Some t => VString t | None => VUndefined end.

(** The state the [catch] block leaves when the [try] threw [e] after
    sending [fs] and reading the clock [n] times. *)
Definition internal_error_state (e : js_error) (fs : list fetch_request) (n : nat) : state :=
  mk_state (json_reply_response 500 (VObject [(k_error, VString (err_message e))]) cors_response)
    [[LogValue (VString msg_log_internal); LogError e]] fs n.

(** A request built by lines 59-67 with the token [tok]: the PagBank
    URL, method and headers, and the JSON of an order literal. *)
Definition sent_by (tok : value) (r : fetch_request) : Prop :=
  exists now1 name tax c1 c2 expiry, r = order_request tok (pedido now1 name tax c1 c2 expiry).

(** The spec's outcome table (section 6) as a relation between a
    platform, a request and what one invocation leaves: the final state
    and whether the handler's promise resolved.  Only a POST with a
    token, whose body destructures with a truthy [cpf], reaches the
    provider: a success or a refusal follows exactly one request, whose
    answer it reports, and an internal error follows at most one. *)
Inductive endpoint_contract (p : platform) (req : request) : state * completion unit -> Prop :=
| contract_preflight :
    req_method req = m_options ->
    endpoint_contract p req (mk_state (res_end (res_status 200 cors_response)) [] [] O, Normal tt)
| contract_not_allowed :
    req_method req <> m_options -> req_method req <> m_post ->
    endpoint_contract p req
      (mk_state (json_reply_response 405 (VObject [(k_error, VString msg_method)]) cors_response)
         [] [] O, Normal tt)
| contract_no_token :
    req_method req = m_post -> to_boolean (token_value p) = false ->
    endpoint_contract p req
      (mk_state (json_reply_response 500 (VObject [(k_error, VString msg_token)]) cors_response)
         [[LogValue (VString msg_token_log)]] [] O, Normal tt)
| contract_bad_body (msg : jstr) :
    req_method req = m_post -> to_boolean (token_value p) = true ->
    req_body req = VUndefined \/ req_body req = VNull ->
    endpoint_contract p req (cors_state, Throw (mk_error TypeError msg))
| contract_no_cpf (valor nome cpf : value) :
    req_method req = m_post -> to_boolean (token_value p) = true ->
    destructure_body (req_body req) = Normal (valor, nome, cpf) -> to_boolean cpf = false ->
    endpoint_contract p req
      (mk_state (json_reply_response 400 (VObject [(k_error, VString msg_cpf)]) cors_response)
         [] [] O, Normal tt)
| contract_success (valor nome cpf : value) (r : fetch_request) (data pix id text img : value) :
    req_method req = m_post -> to_boolean (token_value p) = true ->
    destructure_body (req_body req) = Normal (valor, nome, cpf) -> to_boolean cpf = true ->
    sent_by (token_value p) r -> received p r = Normal data ->
    has_qr_codes data = Normal true -> first_qr data = Normal pix ->
    get_prop data (js "id"%string) = Normal id ->
    get_prop pix (js "text"%string) = Normal text ->
    qr_image pix = Normal img ->
    endpoint_contract p req
      (mk_state (json_reply_response 200 (success_body id text img) cors_response)
         [] [r] 2, Normal tt)
| contract_refused (valor nome cpf : value) (r : fetch_request) (data : value) :
    req_method req = m_post -> to_boolean (token_value p) = true ->
    destructure_body (req_body req) = Normal (valor, nome, cpf) -> to_boolean cpf = true ->
    sent_by (token_value p) r -> received p r = Normal data ->
    has_qr_codes data = Normal false ->
    endpoint_contract p req
      (mk_state (json_reply_response 400 (rejected_body data) cors_response)
         [rejected_log data] [r] 2, Normal tt)
| contract_internal (valor nome cpf : value) (e : js_error) (fs : list fetch_request) (n : nat) :
    req_method req = m_post -> to_boolean (token_value p) = true ->
    destructure_body (req_body req) = Normal (valor, nome, cpf) -> to_boolean cpf = true ->
    Forall (sent_by (token_value p)) fs -> (length fs <= 1)%nat -> (n <= 2)%nat ->
    endpoint_contract p req (internal_error_state e fs n, Normal tt).

(** What [create_order] leaves from [cors_state]: a reply after one
    request, or a throw with the response untouched. *)
Inductive order_result (p : platform) (tok : value) : state * completion unit -> Prop :=
| order_success (r : fetch_request) (data pix id text img : value) :
    sent_by tok r -> received p r = Normal data ->
    has_qr_codes data = Normal true -> first_qr data = Normal pix ->
    get_prop data (js "id"%string) = Normal id ->
    get_prop pix (js "text"%string) = Normal text ->
    qr_image pix = Normal img ->
    order_result p tok (mk_state (json_reply_response 200 (success_body id text img) cors_response)
                      [] [r] 2, Normal tt)
| order_refused (r : fetch_request) (data : value) :
    sent_by tok r -> received p r = Normal data ->
    has_qr_codes data = Normal false ->
    order_result p tok (mk_state (json_reply_response 400 (rejected_body data) cors_response)
                      [rejected_log data] [r] 2, Normal tt)
| order_threw (e : js_error) (fs : list fetch_request) (n : nat) :
    Forall (sent_by tok) fs -> (length fs <= 1)%nat -> (n <= 2)%nat ->
    order_result p tok (mk_state cors_response [] fs n, Throw e).

(** The provider's answer of the spec's example (section 8). *)
Definition demo_data : value :=
  VObject [(js "id"%string, s_ "O1");
           (js "qr_codes"%string,
            VArray [VObject [(js "text"%string, s_ "X");
                             (js "links"%string,
                              VArray [VObject [(js "rel"%string, s_ "QRCODE.PNG");
                                               (js "href"%string, s_ "U")]])]])].

Definition demo_pix : value :=
  VObject [(js "text"%string, s_ "X");
           (js "links"%string,
            VArray [VObject [(js "rel"%string, s_ "QRCODE.PNG"); (js "href"%string, s_ "U")]])].

(** PagBank's answer of the spec's example, as the body it sends. *)
Definition demo_response : http_response :=
  mk_http 201 (json_text "{'id':'O1','qr_codes':[{'text':'X','links':[{'rel':'QRCODE.PNG','href':'U'}]}]}").

(** The answer [{ qr_codes: [] }] of the spec's example, with an error
    status. *)
Definition refused_response : http_response := mk_http 400 (json_text "{'qr_codes':[]}").

Definition demo_clock (i : nat) : Z := 1724000000000 + Z.of_nat i.

Definition demo_platform (answer : fetch_outcome) : platform :=
  mk_platform (Some (js "tok"%string)) demo_clock (fun _ => answer).

Definition demo_body : value :=
  VObject [(js "valor"%string, VNumber 10.5%float); (js "cpf"%string, s_ "123.456.789-00")].

Definition demo_expiry : jstr := js "2024-08-18T17:53:20.001Z"%string.

Definition demo_order : fetch_request :=
  sent_order (demo_platform (FetchResolved demo_response)) (js "tok"%string)
    (VNumber 10.5%float) VUndefined (s_ "123.456.789-00") (s_ "12345678900") demo_expiry.

Definition replace_not_a_function : js_error :=
  mk_error TypeError (js "cpf.replace is not a function"%string).

Definition fetch_failed : js_error := mk_error TypeError (js "fetch failed"%string).

Definition empty_qr_data : value := VObject [(js "qr_codes"%string, VArray [])].

(** ** The state after the CORS prelude *)
Lemma run_route (p : platform) (req : request) :
  run p req = route req p cors_state.
Proof. reflexivity. Qed.

Lemma reply_run (code : Z) (obj : value) (p : platform) (s : state) :
  res_finished (st_res s) = false ->
  res_get_header content_type (st_res s) = None ->
  reply code obj p s = (with_res s (json_reply_response code obj (st_res s)), Normal tt).
Proof.
  intros Hf Hc. destruct s as [[hs st b fin] lg fs n]; simpl in *; subst fin.
  unfold reply, mbind, res_update, res_call, res_json, res_status; cbn.
  unfold res_get_header in Hc; cbn in Hc. rewrite Hc. reflexivity.
Qed.

(** [reply] from any state whose response is still [cors_response]. *)
Lemma reply_cors (code : Z) (obj : value) (p : platform) (lg : list (list log_arg))
    (fs : list fetch_request) (n : nat) :
  reply code obj p (mk_state cors_response lg fs n)
  = (mk_state (json_reply_response code obj cors_response) lg fs n, Normal tt).
Proof. apply reply_run; reflexivity. Qed.

Lemma reply_cors_state (code : Z) (obj : value) (p : platform) :
  reply code obj p cors_state
  = (mk_state (json_reply_response code obj cors_response) [] [] O, Normal tt).
Proof. apply reply_cors. Qed.

Lemma json_reply_cors (code : Z) (obj : value) :
  has_cors_headers (json_reply_response code obj cors_response).
Proof. repeat split. Qed.

#[export] Hint Resolve json_reply_cors : js.

(** ** One-step unfoldings *)
Lemma create_order_run (token valor nome cpf : value) (p : platform) (s : state) :
  create_order token valor nome cpf p s =
  let n := st_clock_reads s in
  let now1 := float_of_Z (clock p n) in
  let now2 := float_of_Z (clock p (S n)) in
  match replace_cpf cpf with
  | Throw e => (bump_clock s 1, Throw e)
  | Normal tax =>
      match expiration_date now2 with
      | Throw e => (bump_clock s 2, Throw e)
      | Normal expiry =>
          let r := order_of token valor nome cpf tax now1 expiry in
          match received p r with
          | Throw e => (add_fetch (bump_clock s 2) r, Throw e)
          | Normal data => answer data p (add_fetch (bump_clock s 2) r)
          end
      end
  end.
Proof.
  destruct s as [rs lg fs n]. unfold create_order, mbind, date_now, mlift. cbn.
  destruct (replace_cpf cpf) as [tax|e]; [|reflexivity].
  destruct (expiration_date _) as [expiry|e]; [|reflexivity].
  unfold fetch, order_of, received, response_json, mlift. cbn.
  destruct (provider p _) as [e|resp]; [reflexivity|].
  destruct (json_parse (http_body resp)); reflexivity.
Qed.

Lemma answer_run (data : value) (p : platform) (s : state) :
  res_finished (st_res s) = false ->
  res_get_header content_type (st_res s) = None ->
  answer data p s =
  match has_qr_codes data with
  | Throw e => (s, Throw e)
  | Normal true =>
      match first_qr data with
      | Throw e => (s, Throw e)
      | Normal pix =>
          match qr_image pix with
          | Throw e => (s, Throw e)
          | Normal img =>
              match get_prop data (js "id"%string) with
              | Throw e => (s, Throw e)
              | Normal id =>
                  match get_prop pix (js "text"%string) with
                  | Throw e => (s, Throw e)
                  | Normal text =>
                      (with_res s (json_reply_response 200 (success_body id text img) (st_res s)),
                       Normal tt)
                  end
              end
          end
      end
  | Normal false =>
      (with_res (add_log s (rejected_log data))
         (json_reply_response 400 (rejected_body data) (st_res s)), Normal tt)
  end.
Proof.
  intros Hf Hc. unfold answer, mbind, mlift, first_qr.
  destruct (has_qr_codes data) as [[|]|e]; [| |reflexivity].
  - destruct (cbind _ _) as [pix|e]; [|reflexivity].
    destruct (qr_image pix) as [img|e]; [|reflexivity].
    destruct (get_prop data _) as [id|e]; [|reflexivity].
    destruct (get_prop pix _) as [text|e]; [|reflexivity].
    now apply reply_run.
  - exact (reply_run 400 (rejected_body data) p (add_log s (rejected_log data)) Hf Hc).
Qed.

(** ** The early returns *)
Lemma preflight_run (p : platform) (body : value) :
  run p (mk_request m_options body)
  = (mk_state (res_end (res_status 200 cors_response)) [] [] O, Normal tt).
Proof. reflexivity. Qed.

(** C3 (functional): an OPTIONS preflight, whatever the body and the
    platform, answers 200 with an empty body after setting the four CORS
    headers, and logs, reads and sends nothing. *)
Theorem handler_preflight (p : platform) (body : value) :
  run p (mk_request m_options body)
  = (mk_state (res_end (res_status 200 cors_response)) [] [] O, Normal tt).
Proof. apply preflight_run. Qed.

(** C4 (error): any method other than OPTIONS and POST is answered 405
    with the "method not allowed" message, without reading the token or
    the clock and without calling the provider. *)
Theorem handler_method_not_allowed (p : platform) (req : request) :
  jstr_eqb (req_method req) m_options = false ->
  jstr_eqb (req_method req) m_post = false ->
  run p req
  = (mk_state (json_reply_response 405 (VObject [(k_error, VString msg_method)]) cors_response)
       [] [] O, Normal tt).
Proof.
  intros Ho Hp. rewrite run_route. unfold route. rewrite Ho, Hp. apply reply_cors.
Qed.

Lemma route_post (p : platform) (req : request) :
  jstr_eqb (req_method req) m_post = true ->
  run p req =
  if negb (to_boolean (token_value p)) then
    (mk_state (json_reply_response 500 (VObject [(k_error, VString msg_token)]) cors_response)
       [[LogValue (VString msg_token_log)]] [] O, Normal tt)
  else handle_post (token_value p) (req_body req) p cors_state.
Proof.
  intros Hp. rewrite run_route. unfold route.
  destruct (jstr_eqb (req_method req) m_options) eqn:Ho.
  { apply jstr_eqb_eq in Ho, Hp. rewrite Ho in Hp. discriminate. }
  rewrite Hp. cbn [negb]. unfold mbind at 1, read_env_token. fold (token_value p).
  destruct (to_boolean (token_value p)); [reflexivity|].
  apply reply_cors.
Qed.

(** C5 (error): a POST while [PAGBANK_TOKEN] is unset or empty is
    answered 500 with the configuration message and logs it once; the
    body is not read and the provider is not called. *)
Theorem handler_missing_token (p : platform) (body : value) :
  env_token p = None \/ env_token p = Some [] ->
  run p (mk_request m_post body)
  = (mk_state (json_reply_response 500 (VObject [(k_error, VString msg_token)]) cors_response)
       [[LogValue (VString msg_token_log)]] [] O, Normal tt).
Proof.
  intros Ht. rewrite route_post by reflexivity. unfold token_value.
  destruct Ht as [-> | ->]; reflexivity.
Qed.

(** ** The POST paths with a token *)
Lemma internal_error_run (e : js_error) (p : platform) (s : state) :
  res_finished (st_res s) = false ->
  res_get_header content_type (st_res s) = None ->
  internal_error e p s
  = (with_res (add_log s [LogValue (VString msg_log_internal); LogError e])
       (json_reply_response 500 (VObject [(k_error, VString (err_message e))]) (st_res s)),
     Normal tt).
Proof.
  intros Hf Hc.
  exact (reply_run 500 (VObject [(k_error, VString (err_message e))]) p
           (add_log s [LogValue (VString msg_log_internal); LogError e]) Hf Hc).
Qed.

Section Post.
Context (p : platform) (t : jstr).
Hypothesis Htok : env_token p = Some t.
Hypothesis Hne : t <> [].

Let token := VString t.

Lemma run_post (body : value) :
  run p (mk_request m_post body) = handle_post token body p cors_state.
Proof.
  rewrite route_post by reflexivity. unfold token_value. rewrite Htok.
  destruct t as [|c r]; [congruence|reflexivity].
Qed.

Lemma handle_post_run (body valor nome cpf : value) :
  destructure_body body = Normal (valor, nome, cpf) ->
  to_boolean cpf = true ->
  handle_post token body p cors_state =
  let '(s', c) := create_order token valor nome cpf p cors_state in
  match c with
  | Normal a => (s', Normal a)
  | Throw e => internal_error e p s'
  end.
Proof.
  intros Hb Hc. unfold handle_post, mbind, mlift. rewrite Hb, Hc. reflexivity.
Qed.

(** C23 (error): a body that is undefined or null makes the
    destructuring of line 25, outside the [try], throw a TypeError: the
    handler's promise rejects with the response not ended, and nothing
    is sent or logged. *)
Theorem handler_body_nullish (body : value) :
  body = VUndefined \/ body = VNull ->
  exists msg, run p (mk_request m_post body) = (cors_state, Throw (mk_error TypeError msg)).
Proof.
  intros Hb. rewrite run_post. destruct Hb as [-> | ->]; eexists; reflexivity.
Qed.

(** C6 (error): a POST whose body has a falsy [cpf] (missing, empty,
    0, false, null) is answered 400 with the CPF message; nothing is
    sent, logged or read from the clock. *)
Theorem handler_missing_cpf (body valor nome cpf : value) :
  destructure_body body = Normal (valor, nome, cpf) ->
  to_boolean cpf = false ->
  run p (mk_request m_post body)
  = (mk_state (json_reply_response 400 (VObject [(k_error, VString msg_cpf)]) cors_response)
       [] [] O, Normal tt).
Proof.
  intros Hb Hc. rewrite run_post. unfold handle_post, mbind, mlift. rewrite Hb, Hc.
  apply reply_cors.
Qed.

(** [cpf.replace] on a value that is not a string, undefined or null. *)
Lemma replace_cpf_not_string (cpf : value) :
  to_boolean cpf = true -> (forall s, cpf <> VString s) -> replace_cpf cpf = Throw replace_not_a_function.
Proof.
  intros Hc Hs. destruct cpf; try discriminate; try reflexivity. exfalso. eapply Hs. reflexivity.
Qed.

(** C24 (error): a truthy [cpf] that is not a string (a number, a
    boolean, an array, an object) makes [cpf.replace] throw the TypeError
    "cpf.replace is not a function" inside the [try]: the answer is 500
    with that message, after one clock reading and without calling the
    provider. *)
Theorem handler_cpf_not_string (body valor nome cpf : value) :
  destructure_body body = Normal (valor, nome, cpf) ->
  to_boolean cpf = true -> (forall s, cpf <> VString s) ->
  run p (mk_request m_post body) = (internal_error_state replace_not_a_function [] 1, Normal tt).
Proof.
  intros Hb Hc Hs. rewrite run_post, (handle_post_run _ _ _ _ Hb Hc), create_order_run.
  cbn zeta. rewrite (replace_cpf_not_string cpf Hc Hs). apply internal_error_run; reflexivity.
Qed.

(** C25 (error): when the second clock reading plus one hour is beyond
    the last valid time value [8.64e15] (and below [2^53], where the
    binary64 sum is exact), TimeClip gives NaN and [toISOString] throws
    the RangeError "Invalid time value" inside the [try]: the answer is
    500 with that message and the provider is not called. *)
Theorem handler_invalid_expiry (body valor nome : value) (s : jstr) :
  destructure_body body = Normal (valor, nome, VString s) -> s <> [] ->
  0 <= clock p 1 -> max_time < clock p 1 + 3600000 < 2 ^ 53 ->
  run p (mk_request m_post body) = (internal_error_state invalid_time_value [] 2, Normal tt).
Proof.
  intros Hb Hs H0 H1.
  rewrite run_post, (handle_post_run _ _ _ _ Hb) by (destruct s; [congruence | reflexivity]).
  rewrite create_order_run. cbn zeta. cbn [replace_cpf st_clock_reads cors_state].
  rewrite (expiration_date_invalid (clock p 1) H0 H1). apply internal_error_run; reflexivity.
Qed.

(** C8 (error): when [fetch] rejects with [e] (a network failure) or
    [response.json()] throws [e] (a [SyntaxError] of [JSON.parse] on a
    body that is not JSON, whatever the HTTP status), the answer
    is 500 with [e.message], [e] is logged, and exactly one request was
    sent. *)
Theorem handler_provider_failure (body valor nome cpf tax : value) (expiry : jstr)
    (e : js_error) :
  destructure_body body = Normal (valor, nome, cpf) ->
  to_boolean cpf = true ->
  replace_cpf cpf = Normal tax ->
  expiration_date (float_of_Z (clock p 1)) = Normal expiry ->
  received p (sent_order p t valor nome cpf tax expiry) = Throw e ->
  run p (mk_request m_post body)
  = (internal_error_state e [sent_order p t valor nome cpf tax expiry] 2, Normal tt).
Proof.
  intros Hb Hc Hr He Hp. rewrite run_post, (handle_post_run _ _ _ _ Hb Hc), create_order_run.
  cbn zeta. rewrite Hr. cbn [st_clock_reads cors_state]. rewrite He.
  change (order_of token valor nome cpf tax (float_of_Z (clock p 0)) expiry) with (sent_order p t valor nome cpf tax expiry).
  rewrite Hp; apply internal_error_run; reflexivity.
Qed.

(** C7 (functional): when the provider's answer has no usable QR code
    list ([data.qr_codes] falsy or of length not above 0), the answer
    is 400 with the refusal message and the raw answer as [detalhe], and
    the serialised answer is logged. *)
Theorem handler_provider_refused (body valor nome cpf tax data : value) (expiry : jstr) :
  destructure_body body = Normal (valor, nome, cpf) ->
  to_boolean cpf = true ->
  replace_cpf cpf = Normal tax ->
  expiration_date (float_of_Z (clock p 1)) = Normal expiry ->
  received p (sent_order p t valor nome cpf tax expiry) = Normal data ->
  has_qr_codes data = Normal false ->
  run p (mk_request m_post body)
  = (mk_state (json_reply_response 400 (rejected_body data) cors_response)
       [rejected_log data] [sent_order p t valor nome cpf tax expiry] 2, Normal tt).
Proof.
  intros Hb Hc Hr He Hp Hq. rewrite run_post, (handle_post_run _ _ _ _ Hb Hc), create_order_run.
  cbn zeta. rewrite Hr. cbn [st_clock_reads cors_state]. rewrite He.
  change (order_of token valor nome cpf tax (float_of_Z (clock p 0)) expiry) with (sent_order p t valor nome cpf tax expiry). rewrite Hp.
  rewrite answer_run by reflexivity. rewrite Hq. reflexivity.
Qed.

(** C2 (functional): when the provider answers with QR codes, the
    answer is 200 with the order id, the first QR code's text and the
    link found for its PNG image (or null); exactly one request was
    sent and nothing is logged. *)
Theorem handler_success (body valor nome cpf tax data pix img id text : value)
    (expiry : jstr) :
  destructure_body body = Normal (valor, nome, cpf) ->
  to_boolean cpf = true ->
  replace_cpf cpf = Normal tax ->
  expiration_date (float_of_Z (clock p 1)) = Normal expiry ->
  received p (sent_order p t valor nome cpf tax expiry) = Normal data ->
  has_qr_codes data = Normal true ->
  first_qr data = Normal pix ->
  qr_image pix = Normal img ->
  get_prop data (js "id"%string) = Normal id ->
  get_prop pix (js "text"%string) = Normal text ->
  run p (mk_request m_post body)
  = (mk_state (json_reply_response 200 (success_body id text img) cors_response)
       [] [sent_order p t valor nome cpf tax expiry] 2, Normal tt).
Proof.
  intros Hb Hc Hr He Hp Hq Hf Hi Hid Ht. rewrite run_post, (handle_post_run _ _ _ _ Hb Hc), create_order_run.
  cbn zeta. rewrite Hr. cbn [st_clock_reads cors_state]. rewrite He.
  change (order_of token valor nome cpf tax (float_of_Z (clock p 0)) expiry) with (sent_order p t valor nome cpf tax expiry). rewrite Hp.
  rewrite answer_run by reflexivity. rewrite Hq, Hf, Hi, Hid, Ht. reflexivity.
Qed.

End Post.

(** ** The image link *)
Lemma is_qrcode_png_true (l b : value) :
  is_qrcode_png l = Normal b -> to_boolean b = true ->
  get_prop l (js "rel"%string) = Normal (VString qrcode_png).
Proof.
  unfold is_qrcode_png. destruct (get_prop l (js "rel"%string)) as [rel|e]; [|discriminate].
  intros H. injection H as <-. intros Tb. apply strict_eq_string_true in Tb. now subst rel.
Qed.

Lemma is_qrcode_png_object (l : value) :
  is_object l = true -> is_qrcode_png l = Normal (VBool (png_link l)).
Proof. destruct l; try discriminate. reflexivity. Qed.

Lemma find_qrcode_link_array (vs : list value) :
  forallb is_object vs = true ->
  find_qrcode_link (VArray vs) = Normal (match find png_link vs with Some l => l | None => VUndefined end).
Proof.
  induction vs as [|l vs IH]; [reflexivity|]. cbn [forallb find]. intros H.
  apply andb_prop in H as [Hl Hvs]. cbn [find_qrcode_link array_find] in *.
  rewrite (is_qrcode_png_object l Hl). cbn [cbind to_boolean].
  destruct (png_link l); [reflexivity | exact (IH Hvs)].
Qed.

(** C26 (functional): the [qr_code_base64_url] of lines 76-80.  When
    [pix.links] is absent (undefined or null) it is null; when it is an
    array of link objects it is the [href] of the first link whose [rel]
    is ["QRCODE.PNG"], and null only when there is no such link. *)
Theorem qr_image_spec (pix links : value) :
  get_prop pix (js "links"%string) = Normal links ->
  ((links = VUndefined \/ links = VNull) -> qr_image pix = Normal VNull) /\
  (forall vs, links = VArray vs -> forallb is_object vs = true ->
     qr_image pix = match find png_link vs with
                    | Some l => get_prop l (js "href"%string)
                    | None => Normal VNull
                    end).
Proof.
  intros Hl. unfold qr_image. rewrite Hl. cbn [cbind]. split.
  - intros [-> | ->]; reflexivity.
  - intros vs -> Ho. cbn [to_boolean]. rewrite (find_qrcode_link_array vs Ho). cbn [cbind].
    destruct (find png_link vs) as [l|] eqn:F; [|reflexivity].
    apply find_some in F as [Hin _]. apply (proj1 (forallb_forall _ _) Ho) in Hin.
    destruct l; try discriminate. reflexivity.
Qed.

(** ** The contract of the endpoint *)

Lemma sent_by_order (tok : value) now1 name tax c1 c2 expiry :
  sent_by tok (order_request tok (pedido now1 name tax c1 c2 expiry)).
Proof. do 6 eexists. reflexivity. Qed.

Ltac sent_tac := repeat first [apply Forall_nil | apply Forall_cons | assumption | apply sent_by_order].
Ltac order_threw_tac := apply order_threw; cbn; [sent_tac | lia | lia].

Lemma answer_result (p : platform) (tok : value) (r : fetch_request) (data : value) :
  sent_by tok r -> received p r = Normal data ->
  order_result p tok (answer data p (mk_state cors_response [] [r] 2)).
Proof.
  intros Hs Hp. rewrite answer_run by reflexivity.
  destruct (has_qr_codes data) as [[|]|e] eqn:Hq; [| |order_threw_tac].
  - destruct (first_qr data) as [pix|e] eqn:Hf; [|order_threw_tac].
    destruct (qr_image pix) as [img|e] eqn:Hi; [|order_threw_tac].
    destruct (get_prop data _) as [id|e] eqn:Hid; [|order_threw_tac].
    destruct (get_prop pix _) as [text|e] eqn:Ht; [|order_threw_tac].
    eapply order_success; eauto.
  - eapply order_refused; eauto.
Qed.

Lemma create_order_result (p : platform) (token valor nome cpf : value) :
  order_result p token (create_order token valor nome cpf p cors_state).
Proof.
  rewrite create_order_run. cbn zeta.
  destruct (replace_cpf cpf) as [tax|e]; [|order_threw_tac].
  destruct (expiration_date _) as [expiry|e]; [|order_threw_tac].
  destruct (received p _) as [data|e] eqn:Hp; [|order_threw_tac].
  apply answer_result; [apply sent_by_order | exact Hp].
Qed.

(** The destructuring of line 25 throws exactly on undefined and null,
    and then a TypeError. *)
Lemma destructure_body_throw (body : value) (e : js_error) :
  destructure_body body = Throw e ->
  (body = VUndefined \/ body = VNull) /\ err_kind e = TypeError.
Proof.
  destruct body; intros H; try (injection H as <-; auto; fail);
    exfalso; revert H; vm_compute; try discriminate; destruct (assoc _ _); discriminate.
Qed.

Lemma handle_post_contract (p : platform) (req : request) :
  req_method req = m_post -> to_boolean (token_value p) = true ->
  endpoint_contract p req (handle_post (token_value p) (req_body req) p cors_state).
Proof.
  intros Hm Ht. unfold handle_post, mbind, mlift.
  destruct (destructure_body (req_body req)) as [[[valor nome] cpf]|e] eqn:Hb.
  - destruct (to_boolean cpf) eqn:Hc; simpl.
    + unfold mtry. destruct (create_order_result p (token_value p) valor nome cpf)
        as [r data pix id text img ? ? ? ? ? ? ?|r data ? ? ?|e fs n ? ? ?].
      * eapply contract_success; eauto.
      * eapply contract_refused; eauto.
      * rewrite internal_error_run by reflexivity. eapply contract_internal; eauto.
    + rewrite reply_cors_state. eapply contract_no_cpf; eauto.
  - destruct (destructure_body_throw _ _ Hb) as [Hn Hk].
    destruct e as [k msg]; simpl in Hk; subst k. now apply contract_bad_body.
Qed.

Lemma run_contract (p : platform) (req : request) :
  endpoint_contract p req (run p req).
Proof.
  destruct (jstr_eqb (req_method req) m_options) eqn:Ho.
  - apply jstr_eqb_eq in Ho. destruct req as [m body]; simpl in Ho; subst m.
    rewrite preflight_run. now constructor.
  - destruct (jstr_eqb (req_method req) m_post) eqn:Hp.
    + rewrite (route_post p req Hp). apply jstr_eqb_eq in Hp.
      destruct (to_boolean (token_value p)) eqn:Ht; cbn [negb].
      * now apply handle_post_contract.
      * now constructor.
    + rewrite run_route. unfold route. rewrite Ho, Hp. cbn [negb].
      rewrite reply_cors_state. constructor; intros E; apply jstr_eqb_eq in E; congruence.
Qed.

(** C1 (refinement): every invocation of the handler, on every platform
    and request, does what the endpoint's contract allows. *)
Theorem handler_refines_contract (p : platform) (req : request) :
  endpoint_contract p req (run p req).
Proof. apply run_contract. Qed.

(** ** Consequences of the contract *)
Lemma internal_error_state_cors (e : js_error) (fs : list fetch_request) (n : nat) :
  has_cors_headers (st_res (internal_error_state e fs n)).
Proof. repeat split. Qed.

(** C9 (invariant): whatever the platform and the request, the response
    the handler leaves carries the four CORS headers of lines 3-6. *)
Theorem handler_cors_headers (p : platform) (req : request) :
  has_cors_headers (st_res (fst (run p req))).
Proof.
  destruct (run_contract p req); simpl;
    first [apply json_reply_cors | apply internal_error_state_cors | repeat split].
Qed.

(** C11 (safety): one invocation sends at most one request to the
    provider. *)
Theorem handler_at_most_one_fetch (p : platform) (req : request) :
  (length (st_fetches (fst (run p req))) <= 1)%nat.
Proof. destruct (run_contract p req); simpl; lia. Qed.

(** C10 (safety): the handler answers 200 to a POST (and returns
    normally) only after sending one request to the provider and
    receiving an answer with a non-empty QR code list ([data.qr_codes]
    truthy with [length > 0]).  A POST whose body cannot be destructured
    leaves the untouched default status 200 but rejects. *)
Theorem handler_200_needs_qr_codes (p : platform) (req : request) :
  req_method req = m_post ->
  snd (run p req) = Normal tt ->
  res_status_code (st_res (fst (run p req))) = 200 ->
  exists r data,
    st_fetches (fst (run p req)) = [r] /\
    received p r = Normal data /\ has_qr_codes data = Normal true.
Proof.
  intros Hm. destruct (run_contract p req) as [Ho| | | | | | |];
    simpl; intros Hr Hs; try discriminate; eauto.
  rewrite Hm in Ho. vm_compute in Ho. discriminate.
Qed.

Lemma sent_by_authorized (p : platform) (r : fetch_request) :
  to_boolean (token_value p) = true -> sent_by (token_value p) r ->
  fetch_url r = pagbank_url /\ fetch_method r = m_post /\
  exists t, env_token p = Some t /\ t <> [] /\
    hd_error (fetch_headers r) = Some (js "Authorization"%string, js "Bearer "%string ++ t).
Proof.
  intros Ht (now1 & name & tax & c1 & c2 & expiry & ->).
  unfold token_value in *. destruct (env_token p) as [t|]; [|discriminate].
  split; [reflexivity|]. split; [reflexivity|]. exists t.
  split; [reflexivity|]. split; [|reflexivity]. destruct t; [discriminate | congruence].
Qed.

(** C13 (safety): every request the handler sends goes to PagBank's
    order URL with method POST, and its first header is
    [Authorization: Bearer <token>] for the configured, non-empty
    [PAGBANK_TOKEN]: the token is sent nowhere else and never empty. *)
Theorem handler_requests_authorized (p : platform) (req : request) :
  Forall (fun r => fetch_url r = pagbank_url /\ fetch_method r = m_post /\
            exists t, env_token p = Some t /\ t <> [] /\
              hd_error (fetch_headers r) = Some (js "Authorization"%string, js "Bearer "%string ++ t))
    (st_fetches (fst (run p req))).
Proof.
  destruct (run_contract p req); simpl;
    first [ apply Forall_nil
          | apply Forall_cons; [now apply sent_by_authorized | apply Forall_nil]
          | eapply Forall_impl; [|eassumption]; intros r; now apply sent_by_authorized ].
Qed.

(** C12 (liveness): the handler returns normally exactly when it has
    finished the response: every path but the nullish body ends with
    [res.end] or [res.json], so no client is left waiting, and the
    nullish body is the one path that rejects with the response open. *)
Theorem handler_response_finished (p : platform) (req : request) :
  snd (run p req) = Normal tt <-> res_finished (st_res (fst (run p req))) = true.
Proof. destruct (run_contract p req); simpl; split; congruence. Qed.

(** ** Witnesses *)
Lemma handler_success_witness :
  run (demo_platform (FetchResolved demo_response)) (mk_request m_post demo_body)
  = (mk_state (json_reply_response 200 (success_body (s_ "O1") (s_ "X") (s_ "U")) cors_response)
       [] [demo_order] 2, Normal tt).
Proof.
  apply (handler_success (demo_platform (FetchResolved demo_response)) (js "tok"%string) eq_refl ltac:(discriminate) demo_body
           (VNumber 10.5%float) VUndefined (s_ "123.456.789-00") (s_ "12345678900")
           demo_data demo_pix (s_ "U") (s_ "O1") (s_ "X") demo_expiry);
    vm_compute; reflexivity.
Defined.

Lemma handler_method_not_allowed_witness :
  run (demo_platform (FetchResolved demo_response)) (mk_request (js "GET"%string) demo_body)
  = (mk_state (json_reply_response 405 (VObject [(k_error, VString msg_method)]) cors_response)
       [] [] O, Normal tt).
Proof. apply handler_method_not_allowed; vm_compute; reflexivity. Defined.

Lemma handler_missing_token_witness :
  run (mk_platform None demo_clock (fun _ => FetchResolved demo_response))
      (mk_request m_post demo_body)
  = (mk_state (json_reply_response 500 (VObject [(k_error, VString msg_token)]) cors_response)
       [[LogValue (VString msg_token_log)]] [] O, Normal tt).
Proof. apply handler_missing_token. left; reflexivity. Defined.

Lemma handler_body_nullish_witness :
  exists msg, run (demo_platform (FetchResolved demo_response)) (mk_request m_post VNull)
              = (cors_state, Throw (mk_error TypeError msg)).
Proof. apply (handler_body_nullish (demo_platform (FetchResolved demo_response)) (js "tok"%string) eq_refl ltac:(discriminate)). right; reflexivity. Defined.

Lemma handler_missing_cpf_witness :
  run (demo_platform (FetchResolved demo_response))
      (mk_request m_post (VObject [(js "valor"%string, VNumber 10.5%float); (js "cpf"%string, s_ "")]))
  = (mk_state (json_reply_response 400 (VObject [(k_error, VString msg_cpf)]) cors_response)
       [] [] O, Normal tt).
Proof.
  apply (handler_missing_cpf (demo_platform (FetchResolved demo_response)) (js "tok"%string) eq_refl ltac:(discriminate) _
           (VNumber 10.5%float) VUndefined (s_ "")); reflexivity.
Defined.

Lemma handler_cpf_not_string_witness :
  run (demo_platform (FetchResolved demo_response))
      (mk_request m_post (VObject [(js "cpf"%string, VNumber 12345678900%float)]))
  = (internal_error_state replace_not_a_function [] 1, Normal tt).
Proof.
  apply (handler_cpf_not_string (demo_platform (FetchResolved demo_response)) (js "tok"%string) eq_refl ltac:(discriminate) _
           VUndefined VUndefined (VNumber 12345678900%float)); [reflexivity | reflexivity | discriminate].
Defined.

Lemma handler_invalid_expiry_witness :
  run (mk_platform (Some (js "tok"%string)) (fun _ => 8640000000000000)
         (fun _ => FetchResolved demo_response)) (mk_request m_post demo_body)
  = (internal_error_state invalid_time_value [] 2, Normal tt).
Proof.
  apply (handler_invalid_expiry (mk_platform (Some (js "tok"%string)) (fun _ => 8640000000000000) (fun _ => FetchResolved demo_response)) (js "tok"%string) eq_refl ltac:(discriminate) demo_body
           (VNumber 10.5%float) VUndefined (js "123.456.789-00"%string));
    [reflexivity | discriminate | vm_compute; discriminate | split; vm_compute; reflexivity].
Defined.

Lemma handler_provider_failure_witness :
  run (demo_platform (FetchRejected fetch_failed)) (mk_request m_post demo_body)
  = (internal_error_state fetch_failed
       [sent_order (demo_platform (FetchRejected fetch_failed)) (js "tok"%string)
          (VNumber 10.5%float) VUndefined (s_ "123.456.789-00") (s_ "12345678900") demo_expiry]
       2, Normal tt).
Proof.
  apply (handler_provider_failure (demo_platform (FetchRejected fetch_failed)) (js "tok"%string) eq_refl ltac:(discriminate) demo_body
           (VNumber 10.5%float) VUndefined (s_ "123.456.789-00") (s_ "12345678900"));
    vm_compute; reflexivity.
Defined.

Lemma handler_provider_refused_witness :
  run (demo_platform (FetchResolved refused_response)) (mk_request m_post demo_body)
  = (mk_state (json_reply_response 400 (rejected_body empty_qr_data) cors_response)
       [rejected_log empty_qr_data]
       [sent_order (demo_platform (FetchResolved refused_response)) (js "tok"%string)
          (VNumber 10.5%float) VUndefined (s_ "123.456.789-00") (s_ "12345678900") demo_expiry]
       2, Normal tt).
Proof.
  apply (handler_provider_refused (demo_platform (FetchResolved refused_response)) (js "tok"%string) eq_refl ltac:(discriminate) demo_body
           (VNumber 10.5%float) VUndefined (s_ "123.456.789-00") (s_ "12345678900"));
    vm_compute; reflexivity.
Defined.

Lemma handler_200_needs_qr_codes_witness :
  exists r data,
    st_fetches (fst (run (demo_platform (FetchResolved demo_response)) (mk_request m_post demo_body))) = [r] /\
    received (demo_platform (FetchResolved demo_response)) r = Normal data /\
    has_qr_codes data = Normal true.
Proof. apply handler_200_needs_qr_codes; vm_compute; reflexivity. Defined.

Lemma qr_image_spec_witness :
  let links := VArray [VObject [(js "rel"%string, s_ "QRCODE.BASE64"); (js "href"%string, s_ "B")];
                       VObject [(js "rel"%string, s_ "QRCODE.PNG"); (js "href"%string, s_ "U")]] in
  qr_image (VObject [(js "links"%string, links)]) = Normal (s_ "U").
Proof.
  intros links.
  rewrite (proj2 (qr_image_spec (VObject [(js "links"%string, links)]) links eq_refl) _ eq_refl eq_refl).
  reflexivity.
Defined.

(** For the request [{ valor: 10.5, cpf: "123.456.789-00" }]
    at clock 1724000000000, the body sent to PagBank is exactly this JSON:
    the tax id is normalised to ["12345678900"], both amounts are
    [Math.round(10.5 * 100) = 1050], and the expiry is the second clock
    reading plus one hour. *)
Example demo_order_body :
  fetch_body demo_order =
  json_text ("{'reference_id':'PEDIDO-1724000000000','customer':{'name':'Cliente',"
      ++ "'email':'cliente@loja.com','tax_id':'12345678900'},'items':[{'name':"
      ++ "'Salgados Tia Ana','quantity':1,'unit_amount':1050}],'qr_codes':[{'amount':"
      ++ "{'value':1050},'expiration_date':'2024-08-18T17:53:20.001Z'}]}")%string.
Proof. vm_compute. reflexivity. Qed.
