(* ===== verification/SentOrder.v ===== *)
(** * The order the handler sends

    The end-to-end property of the order: for a POST with a configured
    token, a string [cpf], an amount with two decimals and valid clock
    readings, the one request the handler sends, whatever PagBank answers,
    is the order literal of lines 34-56 with the digits of [cpf], exactly
    [c] centavos twice and the expiry one hour after the second clock
    reading.  It combines the path lemmas of [HandlerSpec] with the
    exactness results of [Order] and [Amounts], and a frame property
    proved once for the monad: the actions that reply and log never send
    a request ([no_fetch]). *)

From Stdlib Require Import String ZArith List Lia Bool Floats.
From S2P Require Import Prelude JsString JsNumber JsValue Json IsoDate Response Handler Order Amounts HandlerSpec.
Import ListNotations.
Open Scope Z_scope.
Local Open Scope handler_scope.

(** An action that leaves the list of requests sent as it found it. *)
Definition no_fetch {A} (m : M A) : Prop :=
  forall p s, st_fetches (fst (m p s)) = st_fetches s.

Create HintDb no_fetch.

Lemma mret_no_fetch {A} (a : A) : no_fetch (mret a).
Proof. intros p s. reflexivity. Qed.

Lemma mlift_no_fetch {A} (c : completion A) : no_fetch (mlift c).
Proof. intros p s. reflexivity. Qed.

Lemma mbind_no_fetch {A B} (m : M A) (k : A -> M B) :
  no_fetch m -> (forall a, no_fetch (k a)) -> no_fetch (mbind m k).
Proof.
  intros Hm Hk p s. unfold mbind. specialize (Hm p s).
  destruct (m p s) as [s' [a|e]]; simpl in *; [rewrite Hk|]; exact Hm.
Qed.

Lemma console_error_no_fetch (args : list log_arg) : no_fetch (console_error args).
Proof. intros p s. reflexivity. Qed.

Lemma res_call_no_fetch (f : response -> completion response) : no_fetch (res_call f).
Proof. intros p s. unfold res_call. destruct (f (st_res s)); reflexivity. Qed.

Lemma reply_no_fetch (code : Z) (obj : value) : no_fetch (reply code obj).
Proof.
  unfold reply, res_update. apply mbind_no_fetch; [apply res_call_no_fetch|]. intros _. apply res_call_no_fetch.
Qed.

#[export] Hint Resolve mret_no_fetch mlift_no_fetch mbind_no_fetch console_error_no_fetch
  res_call_no_fetch reply_no_fetch : no_fetch.

(** Decompose an action built from [mbind] into the steps above. *)
Ltac no_fetch_tac :=
  repeat first [ apply reply_no_fetch | apply console_error_no_fetch | apply mlift_no_fetch
               | apply mret_no_fetch | apply mbind_no_fetch
               | match goal with |- no_fetch (if ?b then _ else _) => destruct b end
               | intros ? ].

Lemma answer_no_fetch (data : value) : no_fetch (answer data).
Proof.
  unfold answer. no_fetch_tac.
Qed.

Lemma internal_error_no_fetch (e : js_error) : no_fetch (internal_error e).
Proof. unfold internal_error. auto with no_fetch. Qed.

Lemma create_order_fetches (p : platform) (token valor nome cpf tax : value) (expiry : jstr) :
  replace_cpf cpf = Normal tax -> expiration_date (float_of_Z (clock p 1)) = Normal expiry ->
  st_fetches (fst (create_order token valor nome cpf p cors_state))
  = [order_of token valor nome cpf tax (float_of_Z (clock p 0)) expiry].
Proof.
  intros Hc He. rewrite create_order_run. cbn zeta. cbn [st_clock_reads cors_state]. rewrite Hc, He.
  destruct (received p _) as [data|e]; [|reflexivity].
  apply answer_no_fetch.
Qed.

Section Sent.
Context (p : platform) (t : jstr).
Hypothesis Htok : env_token p = Some t.
Hypothesis Hne : t <> [].

Lemma run_post_fetches (body valor nome cpf : value) :
  destructure_body body = Normal (valor, nome, cpf) -> to_boolean cpf = true ->
  st_fetches (fst (run p (mk_request m_post body)))
  = st_fetches (fst (create_order (VString t) valor nome cpf p cors_state)).
Proof.
  intros Hb Hc. rewrite (run_post p t Htok Hne), (handle_post_run p t body valor nome cpf Hb Hc).
  destruct (create_order _ _ _ _ p cors_state) as [s' [a|e]]; [reflexivity|]. apply internal_error_no_fetch.
Qed.

(** The request a well-formed POST sends. *)
Lemma order_sent_fetches (body nome : value) (cpf : jstr) (c : Z) :
  destructure_body body = Normal (VNumber (decimal_amount c), nome, VString cpf) ->
  cpf <> [] -> -100000 < c < 100000 ->
  0 <= clock p 1 -> clock p 1 + 3600000 <= max_time ->
  st_fetches (fst (run p (mk_request m_post body)))
  = [order_request (VString t)
       (pedido (float_of_Z (clock p 0)) (js_or nome (s_ "Cliente")) (VString (filter is_digit cpf))
          (float_of_Z c) (float_of_Z c) (iso_string (clock p 1 + 3600000)))].
Proof.
  intros Hb Hcpf Hc H1 H2.
  rewrite (run_post_fetches _ _ _ _ Hb) by (destruct cpf; [congruence | reflexivity]).
  rewrite (create_order_fetches p _ _ _ _ (VString (filter is_digit cpf)) (iso_string (clock p 1 + 3600000))).
  - unfold order_of. now rewrite amount_cents_decimal.
  - cbn [replace_cpf]. now rewrite strip_non_digits_eq.
  - now apply expiration_date_value.
Qed.

(** C14 (functional): for a POST with a configured token, a non-empty
    string [cpf], an amount [valor] with two decimals between -R$ 999,99
    and R$ 999,99 ([c] centavos, negative ones included) and valid clock
    readings, the handler sends exactly
    one request, whatever PagBank answers: the order literal with the
    first clock reading as reference, [nome] or "Cliente", the ASCII
    digits of [cpf], [c] centavos as both amounts, and the expiry one hour
    after the second clock reading. *)
Theorem handler_order_sent (body nome : value) (cpf : jstr) (c : Z) :
  destructure_body body = Normal (VNumber (decimal_amount c), nome, VString cpf) ->
  cpf <> [] -> -100000 < c < 100000 ->
  0 <= clock p 1 -> clock p 1 + 3600000 <= max_time ->
  st_fetches (fst (run p (mk_request m_post body)))
  = [order_request (VString t)
       (pedido (float_of_Z (clock p 0)) (js_or nome (s_ "Cliente")) (VString (filter is_digit cpf))
          (float_of_Z c) (float_of_Z c) (iso_string (clock p 1 + 3600000)))].
Proof. apply order_sent_fetches. Qed.
End Sent.

Lemma handler_order_sent_witness :
  st_fetches (fst (run (demo_platform (FetchResolved demo_response)) (mk_request m_post demo_body)))
  = [order_request (VString (js "tok"%string))
       (pedido (float_of_Z (clock (demo_platform (FetchResolved demo_response)) 0))
          (js_or VUndefined (s_ "Cliente")) (VString (filter is_digit (js "123.456.789-00"%string)))
          (float_of_Z 1050) (float_of_Z 1050)
          (iso_string (clock (demo_platform (FetchResolved demo_response)) 1 + 3600000)))].
Proof.
  apply (handler_order_sent (demo_platform (FetchResolved demo_response)) (js "tok"%string)
           eq_refl ltac:(discriminate) demo_body VUndefined (js "123.456.789-00"%string) 1050);
    [vm_compute; reflexivity | discriminate | lia | vm_compute; discriminate | vm_compute; discriminate].
Defined.
