(* ===== verification/RequestText.v ===== *)
(** * From the text a client posts to the order PagBank receives

    The handler reads [req.body] (line 25), which Vercel's runtime fills
    with [JSON.parse] of the request text when it is JSON.  This file
    composes [JsonGrammar] (which [JSON.parse] inverts), [Amounts] (the
    centavos of a two-decimal amount) and [SentOrder] (the request the
    handler sends) end to end: for the text [{"valor":12.34,"cpf":"..."}]
    the client posts, the order PagBank receives carries the centavos of
    the amount as it was written, and the digits of the cpf.

    The runtime's parse is the only part of Vercel's body parser used: it
    is [JSON.parse] of the text, so its model is [json_parse]. *)

From Stdlib Require Import String ZArith List Lia Bool Floats.
From S2P Require Import Prelude JsString JsNumber JsValue Json JsonParse JsonRoundTrip JsonGrammar IsoDate Response Handler Order Amounts HandlerSpec SentOrder.
Import ListNotations.
Open Scope Z_scope.

(** A string whose code units all stand for themselves in a JSON string
    literal: from U+0020, neither the quote nor the backslash. *)
Definition plain_text (s : jstr) : bool :=
  forallb (fun c => (32 <=? c) && negb (c =? 34) && negb (c =? 92)) s.

(** The body a client posts for [c] centavos and the tax id [cpf]:
    [{"valor":12.34,"cpf":"123.456.789-00"}]. *)
Definition request_text (c : Z) (cpf : jstr) : jstr :=
  json_text "{'valor':" ++ amount_text c ++ json_text ",'cpf':'" ++ cpf ++ json_text "'}".

(** The value it denotes. *)
Definition request_body (c : Z) (cpf : jstr) : value :=
  VObject [(js "valor"%string, VNumber (decimal_amount c)); (js "cpf"%string, VString cpf)].

(** * Properties *)

Lemma plain_gchars (s : jstr) : plain_text s = true -> gchars s s.
Proof.
  induction s as [|c s IH]; intros H; [constructor|]. cbn [plain_text forallb] in H.
  rewrite !andb_true_iff, Z.leb_le, !negb_true_iff, !Z.eqb_neq in H.
  destruct H as [[[H1 H2] H3] H]. constructor; auto.
Qed.

Lemma digits_gint (n : Z) : 0 <= n -> gint (digits_of_nonneg n).
Proof.
  intros Hn. destruct (Z.eq_dec n 0) as [->|Hz]; [constructor|].
  destruct (digits_of_nonneg_head n ltac:(lia)) as (d & r & E & Hd).
  destruct (digits_of_nonneg_shape n Hn) as [_ Hs]. rewrite E in *.
  cbn [forallb] in Hs. apply andb_true_iff in Hs as [Hd' Hr]. unfold is_digit in Hd'.
  constructor; [lia | now apply digits_forallb].
Qed.

(** The amount written with two decimals is a number of the grammar
    that denotes [decimal_amount c]. *)
Lemma amount_gnumber (c : Z) : gnumber (amount_text c) (decimal_amount c).
Proof.
  set (n := Z.abs c). assert (Hn : 0 <= n) by apply Z.abs_nonneg.
  assert (Hd : forall d, 0 <= d < 10 -> digit (digit_char d)) by (intros d Hd; unfold digit, digit_char; lia).
  pose proof (Z.mod_pos_bound n 100 ltac:(lia)) as H100. pose proof (Z.mod_pos_bound n 10 ltac:(lia)) as H10.
  assert (Hfd : digits [digit_char (n mod 100 / 10); digit_char (n mod 10)]).
  { apply Forall_cons; [apply Hd; split; [apply Z.div_pos | apply Z.div_lt_upper_bound]; lia|].
    apply Forall_cons; [apply Hd; lia | constructor]. }
  pose proof (gn_number (c <? 0) (digits_of_nonneg (n / 100))
                (46 :: [digit_char (n mod 100 / 10); digit_char (n mod 10)])
                [digit_char (n mod 100 / 10); digit_char (n mod 10)] [] 0
                (digits_gint (n / 100) ltac:(apply Z.div_pos; lia))
                (gf_point [digit_char (n mod 100 / 10); digit_char (n mod 10)] ltac:(discriminate) Hfd)
                gx_none) as G.
  rewrite dec_value_cents in G by lia. rewrite app_nil_r in G. exact G.
Qed.

Lemma request_gtext (c : Z) (cpf : jstr) :
  plain_text cpf = true -> gtext (request_text c cpf) (request_body c cpf).
Proof.
  intros Hp.
  exists [], (123 :: ((34 :: js "valor"%string ++ [34]) ++ 58 :: amount_text c ++ 44 ::
                      ((34 :: js "cpf"%string ++ [34]) ++ 58 :: (34 :: cpf ++ [34]))) ++ [125]), [].
  split; [unfold request_text; app_eq|].
  split; [constructor|]. split; [|constructor].
  change (request_body c cpf)
    with (VObject (create_object [(js "valor"%string, VNumber (decimal_amount c)); (js "cpf"%string, VString cpf)])).
  apply gv_object.
  apply (gm_cons [] (34 :: js "valor"%string ++ [34]) [] [] (amount_text c) []
           ((34 :: js "cpf"%string ++ [34]) ++ 58 :: 34 :: cpf ++ [34]) (js "valor"%string)
           (VNumber (decimal_amount c)) [(js "cpf"%string, VString cpf)]);
    [constructor | | constructor | constructor | | constructor |].
  - constructor. apply plain_gchars. reflexivity.
  - apply gv_number, amount_gnumber.
  - match goal with |- gmembers ?x _ =>
      replace x with ((34 :: js "cpf"%string ++ [34]) ++ 58 :: (34 :: cpf ++ [34]) ++ [])
        by (now rewrite app_nil_r) end.
    apply (gm_one [] (34 :: js "cpf"%string ++ [34]) [] [] (34 :: cpf ++ [34]) [] (js "cpf"%string) (VString cpf));
      [constructor | | constructor | constructor | | constructor].
    + constructor. apply plain_gchars. reflexivity.
    + apply gv_string. constructor. now apply plain_gchars.
Qed.

Lemma request_parse (c : Z) (cpf : jstr) :
  plain_text cpf = true -> json_parse (request_text c cpf) = Normal (request_body c cpf).
Proof. intros Hp. apply json_parse_complete, request_gtext, Hp. Qed.

Section FromText.
Context (p : platform) (t : jstr).
Hypothesis Htok : env_token p = Some t.
Hypothesis Hne : t <> [].

(** C15 (functional): end to end, from the text a client posts to the
    request PagBank receives: for the body [{"valor":12.34,"cpf":"..."}]
    with an amount of [c] centavos written with two decimals (between
    -R$ 999,99 and R$ 999,99) and a non-empty [cpf] that needs no escape,
    [JSON.parse] of the text gives the body, and the handler run on it
    sends exactly one request: the order with "Cliente" as name, the
    digits of [cpf], [c] centavos as both amounts and the expiry one hour
    after the second clock reading. *)
Theorem handler_order_from_text (c : Z) (cpf : jstr) :
  plain_text cpf = true -> cpf <> [] -> -100000 < c < 100000 ->
  0 <= clock p 1 -> clock p 1 + 3600000 <= max_time ->
  exists body, json_parse (request_text c cpf) = Normal body /\
    st_fetches (fst (run p (mk_request m_post body)))
    = [order_request (VString t)
         (pedido (float_of_Z (clock p 0)) (s_ "Cliente") (VString (filter is_digit cpf))
            (float_of_Z c) (float_of_Z c) (iso_string (clock p 1 + 3600000)))].
Proof.
  intros Hp Hcpf Hc H1 H2. exists (request_body c cpf). split; [now apply request_parse|].
  exact (order_sent_fetches p t Htok Hne (request_body c cpf) VUndefined cpf c eq_refl Hcpf Hc H1 H2).
Qed.

End FromText.

Lemma handler_order_from_text_witness :
  exists body, json_parse (request_text 1050 (js "123.456.789-00"%string)) = Normal body /\
    st_fetches (fst (run (demo_platform (FetchResolved demo_response)) (mk_request m_post body)))
    = [order_request (VString (js "tok"%string))
         (pedido (float_of_Z (clock (demo_platform (FetchResolved demo_response)) 0)) (s_ "Cliente")
            (VString (filter is_digit (js "123.456.789-00"%string)))
            (float_of_Z 1050) (float_of_Z 1050)
            (iso_string (clock (demo_platform (FetchResolved demo_response)) 1 + 3600000)))].
Proof.
  apply (handler_order_from_text (demo_platform (FetchResolved demo_response)) (js "tok"%string)
           eq_refl ltac:(discriminate) 1050 (js "123.456.789-00"%string));
    [reflexivity | discriminate | lia | vm_compute; discriminate | vm_compute; discriminate].
Defined.
