(* ===== verification/ProviderView.v ===== *)
(** * What the handler sees of PagBank

    The handler reads three things of its platform: the token of
    [process.env], the clock of [Date.now()], and, for the request it
    sends, what [await fetch(...)] followed by [await response.json()]
    yields ([HandlerSpec.received]: the rejection of [fetch], or
    [JSON.parse] of the body).  This file proves that it reads nothing
    else: two platforms that agree on these three give the same run,
    response, log and requests included.  In particular the HTTP status
    of PagBank's answer ([response.ok], [response.status]) is never
    consulted: an answer with status 500 whose body carries QR codes is
    answered 200, as the witness shows.

    The proof is a frame property of the monad proved once per
    combinator ([agree_on]), collected in the hint database [agree]. *)

From Stdlib Require Import String ZArith List Lia Bool Floats.
From S2P Require Import Prelude JsString JsNumber JsValue Json JsonParse IsoDate Response Handler HandlerSpec.
Import ListNotations.
Open Scope Z_scope.
Local Open Scope handler_scope.

(** Two platforms the handler cannot tell apart. *)
Record same_view (p p' : platform) : Prop := {
  view_token : env_token p = env_token p';
  view_clock : forall n, clock p n = clock p' n;
  view_received : forall r, received p r = received p' r
}.

(** PagBank's answer of the spec's example, with an error status. *)
Definition status_500_response : http_response := mk_http 500 (http_body demo_response).

Create HintDb agree.

Section Agree.
Context (p p' : platform).
Hypothesis Hview : same_view p p'.

(** An action whose outcome, from any state, is the same on [p] and [p']. *)
Definition agree_on {A} (m : M A) : Prop := forall s, m p s = m p' s.

Lemma mlift_agree {A} (c : completion A) : agree_on (mlift c).
Proof. intros s. reflexivity. Qed.

Lemma mbind_agree {A B} (m : M A) (f : A -> M B) :
  agree_on m -> (forall a, agree_on (f a)) -> agree_on (mbind m f).
Proof.
  intros Hm Hf s. unfold mbind. rewrite Hm.
  destruct (m p' s) as [s' [a|e]]; [apply Hf | reflexivity].
Qed.

Lemma mtry_agree {A} (m : M A) (h : js_error -> M A) :
  agree_on m -> (forall e, agree_on (h e)) -> agree_on (mtry m h).
Proof.
  intros Hm Hh s. unfold mtry. rewrite Hm.
  destruct (m p' s) as [s' [a|e]]; [reflexivity | apply Hh].
Qed.

Lemma read_env_token_agree : agree_on read_env_token.
Proof. intros s. unfold read_env_token. now rewrite (view_token _ _ Hview). Qed.

Lemma date_now_agree : agree_on date_now.
Proof. intros s. unfold date_now. now rewrite (view_clock _ _ Hview). Qed.

Lemma console_error_agree (args : list log_arg) : agree_on (console_error args).
Proof. intros s. reflexivity. Qed.

Lemma res_call_agree (f : response -> completion response) : agree_on (res_call f).
Proof. intros s. reflexivity. Qed.

Lemma res_update_agree (f : response -> response) : agree_on (res_update f).
Proof. apply res_call_agree. Qed.

Lemma reply_agree (code : Z) (obj : value) : agree_on (reply code obj).
Proof. intros s. reflexivity. Qed.

(** [fetch] alone does not agree (the two responses may differ in their
    status); followed by [response.json()] it does. *)
Lemma fetch_json_agree (r : fetch_request) (k : value -> M unit) :
  (forall d, agree_on (k d)) ->
  agree_on (response <- fetch r ;; data <- response_json response ;; k data).
Proof.
  intros Hk s. pose proof (view_received _ _ Hview r) as Hr.
  unfold received in Hr. unfold mbind, fetch, response_json, mlift.
  destruct (provider p r) as [e|resp], (provider p' r) as [e'|resp'];
    rewrite ?Hr; [congruence| | |].
  - rewrite <- Hr. reflexivity.
  - reflexivity.
  - destruct (json_parse (http_body resp')); [apply Hk | reflexivity].
Qed.

End Agree.

#[export] Hint Resolve mlift_agree read_env_token_agree date_now_agree console_error_agree
  res_call_agree res_update_agree reply_agree : agree.

(** One step of [agree_on] for the combinators: the bind, the [try], the
    request followed by its [json()], a conditional, a destructuring
    [let] and a local definition. *)
Ltac agree_step :=
  match goal with
  | |- agree_on _ _ (mbind (fetch _) _) => apply fetch_json_agree; intros
  | |- agree_on _ _ (mbind _ _) => apply mbind_agree; [|intros]
  | |- agree_on _ _ (mtry _ _) => apply mtry_agree; [|intros]
  | |- agree_on _ _ (if ?b then _ else _) => destruct b
  | |- agree_on _ _ (match ?x with _ => _ end) => destruct x
  | |- agree_on _ _ (let _ := _ in _) => cbv zeta
  end.

Ltac agree_tac := repeat (agree_step || eauto with agree).

Section Handler.
Context (p p' : platform).
Hypothesis Hview : same_view p p'.

Lemma answer_agree (data : value) : agree_on p p' (answer data).
Proof. unfold answer. agree_tac. Qed.

Lemma internal_error_agree (e : js_error) : agree_on p p' (internal_error e).
Proof. unfold internal_error. agree_tac. Qed.

Lemma create_order_agree (token valor nome cpf : value) :
  agree_on p p' (create_order token valor nome cpf).
Proof. unfold create_order. agree_tac; apply answer_agree. Qed.

Lemma handler_agree (req : request) : agree_on p p' (handler req).
Proof.
  unfold handler, set_cors_headers, route, handle_post.
  agree_tac; auto using create_order_agree, internal_error_agree.
Qed.

End Handler.

(** * Properties *)

(** C16 (safety): the handler reads of its platform only the token, the
    clock and what [fetch] followed by [response.json()] yields: two
    platforms that agree on these give the same run (response, log,
    requests sent and clock readings).  The HTTP status of PagBank's
    answer is never consulted. *)
Theorem handler_ignores_status (p p' : platform) (req : request) :
  same_view p p' -> run p req = run p' req.
Proof. intros H. apply (handler_agree p p' H). Qed.

Lemma handler_ignores_status_witness :
  run (demo_platform (FetchResolved status_500_response)) (mk_request m_post demo_body)
  = run (demo_platform (FetchResolved demo_response)) (mk_request m_post demo_body) /\
  res_status_code (st_res (fst (run (demo_platform (FetchResolved status_500_response))
                                   (mk_request m_post demo_body)))) = 200.
Proof.
  split.
  - apply handler_ignores_status. split; reflexivity.
  - vm_compute. reflexivity.
Defined.
