(* ===== verification/ClientView.v ===== *)
(** * What the client reads, and what a non-JSON answer of PagBank gives

    The handler talks JSON on both sides: it parses PagBank's body with
    [response.json()] (line 69) and answers its own client with
    [res.json(obj)] (lines 82 and 94), that is [JSON.stringify(obj)].
    This file composes the paths of [HandlerSpec] with [JsonParse] and
    [JsonRoundTrip]:
    - after a success, the client's [JSON.parse] of the body gives back
      the object [{ id, qr_code, qr_code_base64_url }] whose fields are
      the values read from PagBank's answer;
    - an answer of PagBank that is not JSON (an HTML error page of a
      gateway, an empty body) is answered 500 with V8's SyntaxError
      message, after the one request, and the error is logged. *)

From Stdlib Require Import String ZArith List Lia Bool Floats.
From S2P Require Import Prelude JsString JsNumber JsValue Json JsonParse JsonRoundTrip IsoDate Response Handler HandlerSpec.
Import ListNotations.
Open Scope Z_scope.
Local Open Scope handler_scope.

(** The body of the response a run leaves. *)
Definition final_body (o : state * completion unit) : option jstr := res_body (st_res (fst o)).

(** A gateway's error page in place of PagBank's JSON. *)
Definition html_response : http_response := mk_http 502 (js "<html><body>Bad Gateway</body></html>"%string).

(** * Properties *)

Lemma success_body_clean (id text img : value) :
  json_clean id = true -> json_clean text = true -> json_clean img = true ->
  json_clean (success_body id text img) = true.
Proof.
  intros Hi Ht Hm. unfold success_body. rewrite json_clean_object.
  unfold member_clean. cbn [forallb fst snd]. rewrite Hi, Ht, Hm. vm_compute. reflexivity.
Qed.

Lemma reply_body_reads (code : Z) (obj : value) (r : response) :
  json_clean obj = true ->
  exists b, res_body (json_reply_response code obj r) = Some b /\ json_parse b = Normal obj.
Proof.
  intros Hc. destruct (clean_reads obj Hc) as [Hs Hr].
  exists (elem_text obj). unfold json_reply_response, json_stringify. cbn. rewrite Hs.
  split; [reflexivity | now apply parse_whole].
Qed.

Section Client.
Context (p : platform) (t : jstr).
Hypothesis Htok : env_token p = Some t.
Hypothesis Hne : t <> [].

(** C21 (round trip): after a success, the client that parses the body
    of the answer with [JSON.parse] gets the object
    [{ id: data.id, qr_code: pix.text, qr_code_base64_url: imagemQr }]
    itself, whenever these three values read from PagBank's answer are
    clean (strings, [null], integers below [10^15], ...). *)
Theorem client_reads_success (body valor nome cpf tax data pix img id text : value)
    (expiry : jstr) :
  destructure_body body = Normal (valor, nome, cpf) ->
  to_boolean cpf = true ->
  replace_cpf cpf = Normal tax ->
  expiration_date (float_of_Z (clock p 1)) = Normal expiry ->
  received p (sent_order p t valor nome cpf tax expiry) = Normal data ->
  has_qr_codes data = Normal true ->
  first_qr data = Normal pix ->
  qr_image pix = Normal img ->
  get_prop data (js "id"%string) = Normal id ->
  get_prop pix (js "text"%string) = Normal text ->
  json_clean id = true -> json_clean text = true -> json_clean img = true ->
  exists b, final_body (run p (mk_request m_post body)) = Some b /\
            json_parse b = Normal (success_body id text img).
Proof.
  intros Hb Hc Hr He Hp Hq Hf Hi Hid Ht Ci Ct Cm.
  rewrite (run_post p t Htok Hne), (handle_post_run p t _ _ _ _ Hb Hc), create_order_run.
  cbn zeta. rewrite Hr. cbn [st_clock_reads cors_state]. rewrite He.
  change (order_of (VString t) valor nome cpf tax (float_of_Z (clock p 0)) expiry)
    with (sent_order p t valor nome cpf tax expiry). rewrite Hp.
  rewrite answer_run by reflexivity. rewrite Hq, Hf, Hi, Hid, Ht.
  apply reply_body_reads, success_body_clean; assumption.
Qed.

(** C22 (error): when PagBank's answer, whatever its status, has a body
    whose first code unit after white space cannot start a JSON value
    (the [<] of an HTML error page), [response.json()] throws V8's
    SyntaxError and the client gets 500 with its message; the error is
    logged, after the one request. *)
Theorem handler_non_json_answer (body valor nome cpf tax : value) (expiry : jstr)
    (resp : http_response) (c : code_unit) (r : jstr) :
  destructure_body body = Normal (valor, nome, cpf) ->
  to_boolean cpf = true ->
  replace_cpf cpf = Normal tax ->
  expiration_date (float_of_Z (clock p 1)) = Normal expiry ->
  provider p (sent_order p t valor nome cpf tax expiry) = FetchResolved resp ->
  skip_ws (http_body resp) = c :: r -> value_start c = false ->
  run p (mk_request m_post body)
  = (internal_error_state
       (mk_error SyntaxError (js "Unexpected token "%string ++ [c] ++ msg_position (http_body resp) (c :: r)))
       [sent_order p t valor nome cpf tax expiry] 2, Normal tt).
Proof.
  intros Hb Hc Hr He Hp Hs Hv.
  rewrite (run_post p t Htok Hne), (handle_post_run p t _ _ _ _ Hb Hc), create_order_run.
  cbn zeta. rewrite Hr. cbn [st_clock_reads cors_state]. rewrite He.
  change (order_of (VString t) valor nome cpf tax (float_of_Z (clock p 0)) expiry)
    with (sent_order p t valor nome cpf tax expiry).
  unfold received. rewrite Hp, (json_parse_unexpected _ c r Hs Hv).
  apply internal_error_run; reflexivity.
Qed.

End Client.

Lemma client_reads_success_witness :
  exists b, final_body (run (demo_platform (FetchResolved demo_response)) (mk_request m_post demo_body))
            = Some b /\ json_parse b = Normal (success_body (s_ "O1") (s_ "X") (s_ "U")).
Proof.
  apply (client_reads_success (demo_platform (FetchResolved demo_response)) (js "tok"%string) eq_refl
           ltac:(discriminate) demo_body (VNumber 10.5%float) VUndefined (s_ "123.456.789-00")
           (s_ "12345678900") demo_data demo_pix (s_ "U") (s_ "O1") (s_ "X") demo_expiry);
    vm_compute; reflexivity.
Defined.

Lemma handler_non_json_answer_witness :
  run (demo_platform (FetchResolved html_response)) (mk_request m_post demo_body)
  = (internal_error_state
       (mk_error SyntaxError (js "Unexpected token < in JSON at position 0"%string))
       [sent_order (demo_platform (FetchResolved html_response)) (js "tok"%string)
          (VNumber 10.5%float) VUndefined (s_ "123.456.789-00") (s_ "12345678900") demo_expiry]
       2, Normal tt).
Proof.
  apply (handler_non_json_answer (demo_platform (FetchResolved html_response)) (js "tok"%string) eq_refl
           ltac:(discriminate) demo_body (VNumber 10.5%float) VUndefined (s_ "123.456.789-00")
           (s_ "12345678900") demo_expiry html_response 60
           (js "html><body>Bad Gateway</body></html>"%string));
    vm_compute; reflexivity.
Defined.
